(** * fastapi_version_handler: version classification, closest-match
      resolution and route-set dispatch

    A shallow embedding of [fastapi_version_handler/utils.py],
    [fastapi_version_handler/routers.py] and the registration path of
    [fastapi_version_handler/handlers.py].

    Conventions.
    - A Python [str] is a [string]; a character is one of the code points
      0..255, and [str] comparison is the lexicographic comparison of code
      points ([String.compare]).
    - A raised exception is a value of [exn]; a call that may raise returns a
      [result].
    - The router is a mutable object: its methods are state transformers in
      the monad [M].  Route lists are Python list objects that are shared
      between the route table and the memoised grouping, so they live in a
      heap and the tables hold their addresses. *)

From Stdlib Require Import String Ascii List Bool Arith NArith Lia.
From Stdlib Require Import Sorting.Sorted Sorting.Permutation.
Import ListNotations.

Open Scope string_scope.

(* ================================================================== *)
(** * Exceptions *)
(* ================================================================== *)

Inductive exn : Type :=
| ValueError (msg : string)
| IndexError (msg : string)
| KeyError (key : string)
| HTTPException (status_code : nat) (detail : string).

Inductive result (A : Type) : Type :=
| Ok (a : A)
| Raise (e : exn).

Arguments Ok {A} a.
Arguments Raise {A} e.

(* ================================================================== *)
(** * Python built-ins used by the source *)
(* ================================================================== *)

Module Py.

(** Code point of a character. *)
Definition ord (c : ascii) : N := N_of_ascii c.

(** [0-9]. *)
Definition ascii_digit (c : ascii) : bool :=
  ((48 <=? ord c) && (ord c <=? 57))%N.

(** [\d] of the [re] module on [str] patterns: the decimal digits
    (category Nd); below code point 256 these are 0..9 only. *)
Definition re_digit (c : ascii) : bool := ascii_digit c.

(** One character of [str.isdigit]: the decimal digits and the characters
    with a digit value; below code point 256 these are 0..9 and the
    superscripts U+00B2, U+00B3 and U+00B9. *)
Definition isdigit_char (c : ascii) : bool :=
  (ascii_digit c || (ord c =? 178) || (ord c =? 179) || (ord c =? 185))%N.

(** [\s] of the [re] module on [str] patterns, below code point 256. *)
Definition re_space (c : ascii) : bool :=
  (((9 <=? ord c) && (ord c <=? 13)) || ((28 <=? ord c) && (ord c <=? 32))
   || (ord c =? 133) || (ord c =? 160))%N.

Fixpoint forallb_str (p : ascii -> bool) (s : string) : bool :=
  match s with
  | EmptyString => true
  | String c s' => p c && forallb_str p s'
  end.

(** [s.isdigit()]: every character is a digit and there is at least one. *)
Definition isdigit (s : string) : bool :=
  match s with
  | EmptyString => false
  | _ => forallb_str isdigit_char s
  end.

(** [s.startswith("v")]. *)
Definition startswith_v (s : string) : bool :=
  match s with
  | String c _ => Ascii.eqb c "v"
  | EmptyString => false
  end.

(** [s.split(sep)] for a one-character separator. *)
Fixpoint split (sep : ascii) (s : string) : list string :=
  match s with
  | EmptyString => [EmptyString]
  | String c s' =>
      if Ascii.eqb c sep then EmptyString :: split sep s'
      else match split sep s' with
           | w :: ws => String c w :: ws
           | [] => [String c EmptyString]
           end
  end.

(** [int(s)] on a string of ASCII digits, most significant digit first. *)
Fixpoint int_acc (acc : N) (s : string) : N :=
  match s with
  | EmptyString => acc
  | String c s' => int_acc (10 * acc + (ord c - 48))%N s'
  end.

Definition int (s : string) : N := int_acc 0 s.

(** [x in l] on a list of strings. *)
Definition contains (x : string) (l : list string) : bool :=
  existsb (String.eqb x) l.

(** [l[i]] for [0 <= i]. *)
Definition getitem {A : Type} (l : list A) (i : nat) : result A :=
  match nth_error l i with
  | Some x => Ok x
  | None => Raise (IndexError "list index out of range")
  end.

(** [l[-1]]. *)
Definition getitem_last {A : Type} (l : list A) : result A :=
  match l with
  | [] => Raise (IndexError "list index out of range")
  | _ => getitem l (List.length l - 1)
  end.

(** [sorted(l, key=key)] on string keys.  The built-in sort is stable;
    a stable insertion sort returns the same list. *)
Section Sorted.
Context {A : Type} (key : A -> string).

Fixpoint insort (x : A) (l : list A) : list A :=
  match l with
  | [] => [x]
  | y :: l' =>
      if String.ltb (key y) (key x) then y :: insort x l' else x :: l
  end.

Definition sorted_by (l : list A) : list A := fold_right insort [] l.
End Sorted.

(** [sorted(l)] on a list of strings. *)
Definition sorted (l : list string) : list string := sorted_by (fun s => s) l.

(** [bisect.bisect_left(a, x)]:
    [lo, hi = 0, len(a)]
    [while lo < hi: mid = (lo + hi) // 2;
       if a[mid] < x: lo = mid + 1  else: hi = mid]
    [return lo].
    The loop runs at most [len(a)] times, since [hi - lo] decreases
    ([bisect_loop_fuel] below). *)
Fixpoint bisect_loop (fuel : nat) (a : list string) (x : string)
    (lo hi : nat) : nat :=
  match fuel with
  | O => lo
  | S fuel' =>
      if Nat.ltb lo hi then
        let mid := (lo + hi) / 2 in
        if String.ltb (nth mid a EmptyString) x
        then bisect_loop fuel' a x (mid + 1) hi
        else bisect_loop fuel' a x lo mid
      else lo
  end.

Definition bisect_left (a : list string) (x : string) : nat :=
  bisect_loop (List.length a) a x 0 (List.length a).

(** [max(x :: xs)] on strings: the first greatest element in code point
    order. *)
Definition max_str (x : string) (xs : list string) : string :=
  fold_left (fun m y => if String.ltb m y then y else m) xs x.

End Py.

(* ================================================================== *)
(** * The standard library's calendar: [datetime.strptime(s, "%Y-%m-%d")] *)
(* ================================================================== *)

Module Calendar.

Definition is_leap (y : N) : bool :=
  ((y mod 4 =? 0) && (negb (y mod 100 =? 0) || (y mod 400 =? 0)))%N.

Definition days_in_month (y m : N) : N :=
  match m with
  | 2 => if is_leap y then 29 else 28
  | 4 | 6 | 9 | 11 => 30
  | _ => 31
  end%N.

(** Whether [datetime.strptime(year-month-day, "%Y-%m-%d")] returns, for a
    year of four characters and a month and a day of two (the shape
    [is_valid_date] has checked before the call).  The directives match
    [\d\d\d\d], [1[0-2]|0[1-9]|[1-9]] and [3[01]|[12]\d|0[1-9]|[1-9]| [1-9]]
    and the whole string has to be consumed; the date built from the fields
    must exist (year 1 at least, day within the month). *)
Definition strptime_ok (year month day : string) : bool :=
  Py.forallb_str Py.re_digit year
  && Py.forallb_str Py.re_digit month
  && Py.forallb_str Py.re_digit day
  && (let y := Py.int year in
      let m := Py.int month in
      let d := Py.int day in
      (1 <=? y) && (1 <=? m) && (m <=? 12) && (1 <=? d)
      && (d <=? days_in_month y m))%N.

End Calendar.

(* ================================================================== *)
(** * [packaging.version] on the release tokens of this program *)
(* ================================================================== *)

(** The longest prefix of [\d] characters, and the rest. *)
Fixpoint span_digits (s : string) : string * string :=
  match s with
  | String c s' =>
      if Py.re_digit c
      then let (d, r) := span_digits s' in (String c d, r)
      else (EmptyString, s)
  | EmptyString => (EmptyString, EmptyString)
  end.

(** [\d+\.\d+\.\d+] at the start of [s]: the three digit runs and what
    follows them.  [\d+] is greedy, and giving back a digit never helps,
    since the character after a run that was cut short is a digit and not
    the dot or the end the pattern needs next. *)
Definition match_release (s : string)
  : option (string * string * string * string) :=
  match span_digits s with
  | (String a1 d1, String "." r1) =>
      match span_digits r1 with
      | (String a2 d2, String "." r2) =>
          match span_digits r2 with
          | (String a3 d3, r3) =>
              Some (String a1 d1, String a2 d2, String a3 d3, r3)
          | _ => None
          end
      | _ => None
      end
  | _ => None
  end.

Module versionpkg.

(** The release of a version: major, minor, micro. *)
Definition Version : Type := (N * N * N)%type.

Fixpoint lstrip (s : string) : string :=
  match s with
  | String c s' => if Py.re_space c then lstrip s' else s
  | EmptyString => EmptyString
  end.

Definition drop_v (s : string) : string :=
  match s with
  | String c s' =>
      if (Ascii.eqb c "v" || Ascii.eqb c "V")%bool then s' else s
  | EmptyString => EmptyString
  end.

(** [packaging.version.parse] on the tokens made of three dotted numbers
    with an optional [v], surrounding white space allowed (the library's
    pattern is [^\s*v?...\s*$], case-insensitive).  [None] stands for
    [InvalidVersion], a subclass of [ValueError].  The other forms of
    PEP 440 (epochs, pre-, post- and development releases, local labels, a
    release of another length) are not embedded: every statement below that
    depends on [parse] is about tokens accepted by [is_valid_version], all of
    which have the three-number form. *)
Definition parse (s : string) : option Version :=
  match match_release (drop_v (lstrip s)) with
  | Some (d1, d2, d3, rest) =>
      if Py.forallb_str Py.re_space rest
      then Some (Py.int d1, Py.int d2, Py.int d3)
      else None
  | None => None
  end.

(** [a <= b] on versions that are plain releases: the releases compared as
    tuples of numbers. *)
Definition le (a b : Version) : bool :=
  let '(a1, a2, a3) := a in
  let '(b1, b2, b3) := b in
  ((a1 <? b1) || ((a1 =? b1) && ((a2 <? b2) || ((a2 =? b2) && (a3 <=? b3)))))%N.

Definition lt (a b : Version) : bool := negb (le b a).

End versionpkg.

(* ================================================================== *)
(** * utils.py *)
(* ================================================================== *)

(** [re.match(r"^(v)?\d+\.\d+\.\d+$", version) is not None].  [$] matches at
    the end of the string and also just before a newline that ends it. *)
Definition re_match_version (version : string) : bool :=
  let body := if Py.startswith_v version
              then match version with String _ s' => s' | _ => version end
              else version in
  match match_release body with
  | Some (_, _, _, rest) =>
      String.eqb rest EmptyString || String.eqb rest (String "010" EmptyString)
  | None => false
  end.

Definition is_valid_version (version : string) : bool :=
  if String.eqb version "v0.0.0" || String.eqb version "0.0.0" then false
  else re_match_version version.

Definition is_valid_date (date_string : string) : bool :=
  match Py.split "-" date_string with
  | [year; month; day] =>
      if negb (Py.isdigit year && Nat.eqb (String.length year) 4
               && Py.isdigit month && Nat.eqb (String.length month) 2
               && Py.isdigit day && Nat.eqb (String.length day) 2)
      then false
      else Calendar.strptime_ok year month day
  | _ => false
  end.

Definition HTTP_422_UNPROCESSABLE_ENTITY : nat := 422.

Definition validate_version (version : string) : result unit :=
  if String.eqb version EmptyString then
    Raise (HTTPException HTTP_422_UNPROCESSABLE_ENTITY
             "Version header is missing")
  else if negb (is_valid_version version || is_valid_date version) then
    Raise (HTTPException HTTP_422_UNPROCESSABLE_ENTITY
             "Invalid version format")
  else Ok tt.

Definition normalize_version (version : string) : string :=
  if is_valid_version version && negb (Py.startswith_v version)
  then "v" ++ version
  else version.

(** The generator [v for v in available_versions
    if versionpkg.parse(v) <= versionpkg.parse(target_version)], consumed to
    its end by [max]: the candidates that pass, in order, or [None] when
    parsing raises [InvalidVersion] on the way. *)
Fixpoint not_exceeding (target_version : string) (l : list string)
  : option (list string) :=
  match l with
  | [] => Some []
  | v :: l' =>
      match versionpkg.parse v, versionpkg.parse target_version with
      | Some p, Some t =>
          match not_exceeding target_version l' with
          | Some r => Some (if versionpkg.le p t then v :: r else r)
          | None => None
          end
      | _, _ => None
      end
  end.

Definition find_closest_version (target_version : string)
    (available_versions : list string) : result string :=
  if negb (is_valid_version target_version) then
    Raise (ValueError "Invalid version format")
  else
    let target_version := normalize_version target_version in
    let available_versions := map normalize_version available_versions in
    match not_exceeding target_version available_versions with
    | Some (x :: xs) => Ok (Py.max_str x xs)
    | _ =>
        (* except ValueError: [max] of an empty sequence, or
           [InvalidVersion] *)
        match available_versions with
        | v0 :: _ => Ok v0
        | [] => Raise (ValueError "No available versions found")
        end
    end.

Definition find_closest_date (target_date : string)
    (available_dates : list string) : result string :=
  if negb (is_valid_date target_date) then
    Raise (ValueError "Invalid date format")
  else if Py.contains target_date available_dates then Ok target_date
  else
    let available_dates := Py.sorted available_dates in
    let index := Py.bisect_left available_dates target_date in
    if Nat.eqb index 0 then Py.getitem available_dates 0
    else if Nat.eqb index (List.length available_dates)
         then Py.getitem_last available_dates
         else Py.getitem available_dates (index - 1).

(* ================================================================== *)
(** * routers.py: [VersionAwareAPIRouter] *)
(* ================================================================== *)

(** A route of the framework; the router never looks inside. *)
Record BaseRoute : Type := mkRoute { route_path : string }.

(** Address of a list object. *)
Definition loc : Type := nat.

(** The value of [group_and_sort_routes]: the two ordered dictionaries, each
    from a key to the list object registered under it. *)
Record GroupedIndex : Type := mkGroupedIndex {
  sorted_date_routes : list (string * loc);
  sorted_version_routes : list (string * loc)
}.

(** A router object.  [versioned_routers] is a [dict], kept in insertion
    order.  [lru] is the entry of the [lru_cache] of [group_and_sort_routes]
    for this object: the cache key is the argument tuple [(self,)], whose hash
    is [__hash__] (the hash of the bound method, which depends on the identity
    of [self] and of the function only) and which is compared by identity
    first, so one router has one entry, and nothing removes it.  A context
    variable is [None] when the router was built without it, else
    [Some value]. *)
Record VersionAwareAPIRouter : Type := mkRouter {
  heap : list (list BaseRoute);
  routes : loc;
  versioned_routers : list (string * loc);
  unversioned_routers : loc;
  lru : option GroupedIndex;
  requested_version : option (option string);
  returned_version : option (option string)
}.

(** ** The monad of methods: state and exceptions *)

Definition M (A : Type) : Type :=
  VersionAwareAPIRouter -> result A * VersionAwareAPIRouter.

Definition ret {A : Type} (a : A) : M A := fun self => (Ok a, self).

Definition bind {A B : Type} (m : M A) (k : A -> M B) : M B :=
  fun self =>
    match m self with
    | (Ok a, self') => k a self'
    | (Raise e, self') => (Raise e, self')
    end.

Definition lift {A : Type} (r : result A) : M A := fun self => (r, self).

Definition get : M VersionAwareAPIRouter := fun self => (Ok self, self).

Definition put (self' : VersionAwareAPIRouter) : M unit :=
  fun _ => (Ok tt, self').

Notation "x <- m ;; k" := (bind m (fun x => k))
  (at level 61, m at next level, right associativity).
Notation "m ;;; k" := (bind m (fun _ => k))
  (at level 61, right associativity).

(** ** The heap of list objects *)

Definition deref (self : VersionAwareAPIRouter) (l : loc) : list BaseRoute :=
  nth l (heap self) [].

Fixpoint update_nth {A : Type} (n : nat) (f : A -> A) (l : list A) : list A :=
  match l, n with
  | [], _ => []
  | x :: l', O => f x :: l'
  | x :: l', S n' => x :: update_nth n' f l'
  end.

Definition with_heap (h : list (list BaseRoute)) (self : VersionAwareAPIRouter) :=
  mkRouter h (routes self) (versioned_routers self) (unversioned_routers self)
    (lru self) (requested_version self) (returned_version self).

Definition with_routes (r : loc) (self : VersionAwareAPIRouter) :=
  mkRouter (heap self) r (versioned_routers self) (unversioned_routers self)
    (lru self) (requested_version self) (returned_version self).

Definition with_versioned_routers (d : list (string * loc))
    (self : VersionAwareAPIRouter) :=
  mkRouter (heap self) (routes self) d (unversioned_routers self)
    (lru self) (requested_version self) (returned_version self).

Definition with_lru (c : option GroupedIndex) (self : VersionAwareAPIRouter) :=
  mkRouter (heap self) (routes self) (versioned_routers self)
    (unversioned_routers self) c (requested_version self)
    (returned_version self).

Definition with_requested_version (v : option (option string))
    (self : VersionAwareAPIRouter) :=
  mkRouter (heap self) (routes self) (versioned_routers self)
    (unversioned_routers self) (lru self) v (returned_version self).

Definition with_returned_version (v : option (option string))
    (self : VersionAwareAPIRouter) :=
  mkRouter (heap self) (routes self) (versioned_routers self)
    (unversioned_routers self) (lru self) (requested_version self) v.

(** [l.extend(rs)] on the list object at [l]; [l.append(r)] is
    [extend l [r]]. *)
Definition extend (l : loc) (rs : list BaseRoute) : M unit :=
  fun self =>
    (Ok tt, with_heap (update_nth l (fun old => (old ++ rs)%list) (heap self)) self).

(** A new empty list object. *)
Definition alloc : M loc :=
  fun self => (Ok (List.length (heap self)), with_heap (heap self ++ [[]])%list self).

(** ** Dictionaries *)

Fixpoint dict_get {V : Type} (d : list (string * V)) (k : string) : option V :=
  match d with
  | [] => None
  | (k', v) :: d' => if String.eqb k k' then Some v else dict_get d' k
  end.

Definition keys {V : Type} (d : list (string * V)) : list string := map fst d.

(** [d[k]]. *)
Definition dict_getitem {V : Type} (d : list (string * V)) (k : string)
  : result V :=
  match dict_get d k with
  | Some v => Ok v
  | None => Raise (KeyError k)
  end.

(** [self.versioned_routers.setdefault(k, [])]. *)
Definition versioned_routers_setdefault (k : string) : M loc :=
  self <- get ;;
  match dict_get (versioned_routers self) k with
  | Some l => ret l
  | None =>
      l <- alloc ;;
      self <- get ;;
      put (with_versioned_routers (versioned_routers self ++ [(k, l)])%list self) ;;;
      ret l
  end.

(** ** [__init__] *)

Definition __init__ (requested returned : option (option string))
  : VersionAwareAPIRouter :=
  {| heap := [[]; []];
     routes := 0;
     versioned_routers := [];
     unversioned_routers := 1;
     lru := None;
     requested_version := requested;
     returned_version := returned |}.

(** ** [group_and_sort_routes] *)

(** The loop over [self.versioned_routers.items()]. *)
Fixpoint group_routes (items : list (string * loc))
    (dates versions : list (string * loc))
  : result (list (string * loc) * list (string * loc)) :=
  match items with
  | [] => Ok (dates, versions)
  | (key, value) :: items' =>
      if is_valid_date key then
        group_routes items' (dates ++ [(key, value)])%list versions
      else if is_valid_version key then
        group_routes items' dates (versions ++ [(key, value)])%list
      else
        Raise (ValueError
                 ("Key " ++ key ++ " is neither a valid date nor a valid version."))
  end.

(** The body of the method.  [sorted] on the items of a dictionary orders
    them by key: the keys are distinct, so the values are never compared. *)
Definition group_and_sort_routes_body (self : VersionAwareAPIRouter)
  : result GroupedIndex :=
  match group_routes (versioned_routers self) [] [] with
  | Raise e => Raise e
  | Ok (dates, versions) =>
      Ok {| sorted_date_routes := Py.sorted_by fst dates;
            sorted_version_routes := Py.sorted_by fst versions |}
  end.

(** The method under [@lru_cache(maxsize=None)]: a hit returns the stored
    value; a miss runs the body and stores its value when it returns (an
    exception is not stored). *)
Definition group_and_sort_routes : M GroupedIndex :=
  fun self =>
    match lru self with
    | Some g => (Ok g, self)
    | None =>
        match group_and_sort_routes_body self with
        | Ok g => (Ok g, with_lru (Some g) self)
        | Raise e => (Raise e, self)
        end
    end.

(** ** [_pick_version] *)

(** [if var: var.set(value)]. *)
Definition set_context_var (var : option (option string)) (value : string)
  : option (option string) :=
  match var with
  | Some _ => Some (Some value)
  | None => None
  end.

Definition _pick_version (header_version : string) : M loc :=
  let is_valid_date_version := is_valid_date header_version in
  closest_version <-
    (if is_valid_date_version then
       g <- group_and_sort_routes ;;
       lift (find_closest_date header_version (keys (sorted_date_routes g)))
     else
       g <- group_and_sort_routes ;;
       lift (find_closest_version header_version
               (keys (sorted_version_routes g)))) ;;
  self <- get ;;
  put (with_requested_version
         (set_context_var (requested_version self) header_version) self) ;;;
  self <- get ;;
  put (with_returned_version
         (set_context_var (returned_version self) closest_version) self) ;;;
  self <- get ;;
  lift (dict_getitem (versioned_routers self) closest_version).

(** ** [_get_routes_for_version] *)

(** The second argument of [dict.get] is evaluated before the call, so
    [_pick_version] runs for every header that is not empty. *)
Definition _get_routes_for_version (header_version : string) : M loc :=
  if String.eqb header_version EmptyString then
    self <- get ;; ret (unversioned_routers self)
  else
    default <- _pick_version header_version ;;
    self <- get ;;
    ret (match dict_get (versioned_routers self) header_version with
         | Some l => l
         | None => default
         end).

(** ** [__call__], up to the hand-over to the framework *)

(** [header_version] is what [_get_header_version] reads from the request:
    the value of the version header, or the empty string when the request
    has none. *)
Definition __call__ (header_version : string) : M unit :=
  selected <- _get_routes_for_version header_version ;;
  self <- get ;;
  put (with_routes selected self).

(* ================================================================== *)
(** * handlers.py: [HeaderBasedVersionHandler.include_router] *)
(* ================================================================== *)

(** [l[start:]] where [start] is [len(l) - n], a negative start counting
    from the end and clamped at the beginning. *)
Definition slice_from_len_minus {A : Type} (l : list A) (n : nat) : list A :=
  let len := List.length l in
  if Nat.leb n len then skipn (len - n) l            (* 0 <= start *)
  else if Nat.leb (n - len) len
       then skipn (len - (n - len)) l                (* 0 <= start + len *)
       else l.

Fixpoint for_each {A : Type} (f : A -> M unit) (l : list A) : M unit :=
  match l with
  | [] => ret tt
  | x :: l' => f x ;;; for_each f l'
  end.

(** [include_router(router, version=version)].  [router_routes] is
    [router.routes]; [appended] is what the framework's own [include_router]
    adds to [self.routes], the route list of the application's router (the
    framework builds these routes; they are an input here).  The update of
    the OpenAPI documents ([enrich_swagger]) is not part of the router. *)
Definition include_router (router_routes appended : list BaseRoute)
    (version : option string) : M unit :=
  match version with
  | Some version =>
      lift (validate_version version) ;;;
      self <- get ;;
      extend (routes self) appended ;;;
      self <- get ;;
      let added_routes :=
        slice_from_len_minus (deref self (routes self))
          (List.length router_routes) in
      for_each
        (fun route =>
           l <- versioned_routers_setdefault (normalize_version version) ;;
           extend l [route])
        added_routes
  | None =>
      self <- get ;;
      extend (routes self) appended ;;;
      self <- get ;;
      extend (unversioned_routers self) router_routes
  end.

(** The state after running a method, and its outcome. *)
Definition exec {A : Type} (m : M A) (self : VersionAwareAPIRouter)
  : VersionAwareAPIRouter := snd (m self).

Definition outcome {A : Type} (m : M A) (self : VersionAwareAPIRouter)
  : result A := fst (m self).

(** ** Runs of the program *)

(** What the application does to its router: it includes routers, serves
    requests and renders the dashboard (which calls
    [group_and_sort_routes]). *)
Inductive action : Type :=
| Include (router_routes appended : list BaseRoute) (version : option string)
| Request (header_version : string)
| Dashboard.

Definition run_action (a : action) (self : VersionAwareAPIRouter)
  : VersionAwareAPIRouter :=
  match a with
  | Include rr app v => exec (include_router rr app v) self
  | Request h => exec (__call__ h) self
  | Dashboard => exec group_and_sort_routes self
  end.

Definition run (l : list action) (self : VersionAwareAPIRouter)
  : VersionAwareAPIRouter :=
  fold_left (fun s a => run_action a s) l self.

(** The router states of a running application. *)
Definition reachable (self : VersionAwareAPIRouter) : Prop :=
  exists requested returned l, self = run l (__init__ requested returned).
(* ================================================================== *)
(** * Vocabulary of the statements *)
(* ================================================================== *)

(** The lists of tests/test_utils.py. *)
Definition versions6 : list string :=
  ["v1.0.0"; "v1.1.0"; "v1.2.0"; "v1.2.1"; "v1.2.2"; "v1.2.4"].
Definition dates3 : list string := ["2024-04-10"; "2024-04-15"; "2024-04-20"].
Definition dates4 : list string :=
  ["2024-02-10"; "2024-03-16"; "2024-01-05"; "2024-04-25"].

(** [a < b] and [a <= b] on [str]. *)
Module StrOrder.
Definition lt (a b : string) : Prop := String.ltb a b = true.
Definition le (a b : string) : Prop := String.ltb b a = false.
End StrOrder.

Definition key_le {A : Type} (key : A -> string) (x y : A) : Prop :=
  StrOrder.le (key x) (key y).

(** What the loop of [bisect_left] maintains: everything left of [lo] is
    below [x], nothing from [hi] on is. *)
Definition bisect_inv (a : list string) (x : string) (lo hi : nat) : Prop :=
  lo <= hi <= List.length a
  /\ (forall j, j < lo -> StrOrder.lt (nth j a EmptyString) x)
  /\ (forall j, hi <= j -> j < List.length a ->
                ~ StrOrder.lt (nth j a EmptyString) x).

(** The precedence of a candidate, as [find_closest_version] reads it: the
    release of its normal form. *)
Definition precedence (v : string) : option versionpkg.Version :=
  versionpkg.parse (normalize_version v).

(** [v] does not exceed [w] in precedence. *)
Definition prec_le (v w : string) : Prop :=
  match precedence v, precedence w with
  | Some p, Some q => versionpkg.le p q = true
  | _, _ => False
  end.

(** [w] strictly exceeds [target] in precedence. *)
Definition exceeds (target w : string) : Prop :=
  match precedence target, precedence w with
  | Some t, Some q => versionpkg.lt t q = true
  | _, _ => False
  end.

(** [v] is the normal form of a candidate of [l] that no candidate of [l]
    precedes strictly. *)
Definition smallest_of (v : string) (l : list string) : Prop :=
  In v (map normalize_version l) /\ forall w, In w l -> prec_le v w.

(** [v] is the normal form of a candidate of [l] that does not exceed
    [target], and no such candidate exceeds [v]. *)
Definition floor_of (target v : string) (l : list string) : Prop :=
  In v (map normalize_version l) /\ prec_le v target
  /\ forall w, In w l -> prec_le w target -> prec_le w v.

(** The candidates come in ascending precedence. *)
Definition ascending (l : list string) : Prop := StronglySorted prec_le l.

(** A key as registration writes it: a valid date, or a valid semantic
    version in normal form. *)
Definition key_ok (k : string) : Prop :=
  is_valid_date k = true
  \/ (is_valid_version k = true /\ Py.startswith_v k = true).

Definition date_keys (d : list (string * loc)) : list string :=
  filter is_valid_date (keys d).

Definition version_keys (d : list (string * loc)) : list string :=
  filter is_valid_version (keys d).

(** The index [g] is the grouping of the keys that the table of [self] has
    now. *)
Definition reflects (g : GroupedIndex) (self : VersionAwareAPIRouter) : Prop :=
  keys (sorted_date_routes g) = Py.sorted (date_keys (versioned_routers self))
  /\ keys (sorted_version_routes g)
     = Py.sorted (version_keys (versioned_routers self)).

(** The partition of the index that [_pick_version] hands to the resolver
    for the header [h]. *)
Definition partition_for (h : string) (g : GroupedIndex) : list (string * loc) :=
  if is_valid_date h then sorted_date_routes g else sorted_version_routes g.

(** The memoised index, when there is one, is what the body of
    [group_and_sort_routes] would compute now. *)
Definition index_fresh (self : VersionAwareAPIRouter) : Prop :=
  forall g, lru self = Some g -> group_and_sort_routes_body self = Ok g.

(** What holds of a memoised index. *)
Definition index_ok (g : GroupedIndex) (self : VersionAwareAPIRouter) : Prop :=
  incl (sorted_date_routes g) (versioned_routers self)
  /\ incl (sorted_version_routes g) (versioned_routers self)
  /\ Forall (fun kv => is_valid_date (fst kv) = true) (sorted_date_routes g)
  /\ Forall (fun kv => is_valid_version (fst kv) = true)
       (sorted_version_routes g).

(** The invariant of the router. *)
Record router_inv (self : VersionAwareAPIRouter) : Prop := mkInv {
  inv_keys_ok : Forall key_ok (keys (versioned_routers self));
  inv_keys_nodup : NoDup (keys (versioned_routers self));
  inv_lru : forall g, lru self = Some g -> index_ok g self
}.

(** From [self] to [self']: the memoised index is untouched and the table
    is the same or has one more entry, for the new key [k]. *)
Definition table_grows (k : string) (self self' : VersionAwareAPIRouter) : Prop :=
  lru self' = lru self
  /\ (versioned_routers self' = versioned_routers self
      \/ (dict_get (versioned_routers self) k = None
          /\ exists l, versioned_routers self'
                       = (versioned_routers self ++ [(k, l)])%list)).

(** Actions of the two phases of an application: registration, then
    serving. *)
Definition registering (a : action) : Prop :=
  match a with
  | Include _ _ _ => True
  | _ => False
  end.

Definition serving (a : action) : Prop :=
  match a with
  | Include _ _ _ => False
  | _ => True
  end.

(** Routes of the examples. *)
Definition heroes : list BaseRoute := [mkRoute "/heroes"].
Definition docs : list BaseRoute :=
  [mkRoute "/openapi.json"; mkRoute "/docs"; mkRoute "/redoc"].

(** An application with the documentation routes and one version bucket. *)
Definition setup_v1 : list action :=
  [Include docs docs None; Include heroes heroes (Some "v1.0.0")].

Definition app_v1 : VersionAwareAPIRouter := run setup_v1 (__init__ None None).

(** Registration goes on after the index was computed. *)
Definition late_version : list action :=
  [Dashboard; Include heroes heroes (Some "v2.0.0")].

Definition app_late_version : VersionAwareAPIRouter := run late_version app_v1.

Definition late_date : list action :=
  [Request "v1.0.0"; Include heroes heroes (Some "2024-01-05")].

Definition app_late_date : VersionAwareAPIRouter := run late_date app_v1.

(** Two buckets whose order by string and by precedence differ. *)
Definition app_v1_9_and_v1_10 : VersionAwareAPIRouter :=
  run [Include heroes heroes (Some "v1.9.0");
       Include heroes heroes (Some "v1.10.0")]
    (__init__ None None).

(* ================================================================== *)
(** * Vocabulary of the further statements *)
(* ================================================================== *)







(** From [self] to [self']: the route table, the unversioned routes and
    every list object are what they were. *)
Definition same_tables (self self' : VersionAwareAPIRouter) : Prop :=
  heap self' = heap self
  /\ versioned_routers self' = versioned_routers self
  /\ unversioned_routers self' = unversioned_routers self.





(** The shape of the heap of a router: the list of [__init__] at 0, the
    unversioned routes at 1, and one list of its own for each key. *)
Record heap_inv (self : VersionAwareAPIRouter) : Prop := mkHeapInv {
  hi_len : 2 <= List.length (heap self);
  hi_unversioned : unversioned_routers self = 1;
  hi_routes : routes self < List.length (heap self);
  hi_locs : Forall (fun kv => 2 <= snd kv < List.length (heap self))
              (versioned_routers self);
  hi_nodup : NoDup (map snd (versioned_routers self))
}.

(** The routes registered under the key [k], none when the key is absent. *)
Definition bucket (self : VersionAwareAPIRouter) (k : string) : list BaseRoute :=
  match dict_get (versioned_routers self) k with
  | Some l => deref self l
  | None => []
  end.

(** One round of the loop of [include_router]. *)
Definition register_one (k : string) (route : BaseRoute) : M unit :=
  l <- versioned_routers_setdefault k ;; extend l [route].

(* ================================================================== *)
(** * middleware.py: [VersionValidationMiddleware] *)
(* ================================================================== *)

(** What the middleware reads of a route of the application: [route.path]
    and the attribute [include_in_schema], which a route may lack. *)
Record AppRoute : Type := mkAppRoute {
  path : string;
  include_in_schema : option bool
}.

(** [getattr(route, "include_in_schema", True)]. *)
Definition getattr_include_in_schema (route : AppRoute) : bool :=
  match include_in_schema route with
  | Some b => b
  | None => true
  end.

(** [d[k] = v]: a key that is present keeps its place and takes the new
    value. *)
Fixpoint dict_setitem {V : Type} (d : list (string * V)) (k : string) (v : V)
  : list (string * V) :=
  match d with
  | [] => [(k, v)]
  | (k', v') :: d' =>
      if String.eqb k k' then (k', v) :: d'
      else (k', v') :: dict_setitem d' k v
  end.

(** The dictionary comprehension over [self._app.routes]. *)
Definition _build_skipped_routes (app_routes : list AppRoute)
  : list (string * bool) :=
  fold_left
    (fun d route =>
       dict_setitem d (path route) (negb (getattr_include_in_schema route)))
    app_routes [].

(** [s.rstrip(c)] for one character [c]. *)
Fixpoint rstrip (c : ascii) (s : string) : string :=
  match s with
  | EmptyString => EmptyString
  | String a s' =>
      match rstrip c s' with
      | EmptyString => if Ascii.eqb a c then EmptyString else String a EmptyString
      | r => String a r
      end
  end.

Definition _should_skip_validation (skipped_routes : list (string * bool))
    (url_path : string) : bool :=
  match dict_get skipped_routes (rstrip "/" url_path) with
  | Some skip => skip
  | None => false
  end.

(** [validate_version] on the value of [request.headers.get(name)], which
    is [None] when the request has no such header: [not None] holds. *)
Definition validate_header (version : option string) : result unit :=
  match version with
  | None => Raise (HTTPException 422 "Version header is missing")
  | Some v => validate_version v
  end.

(** What [dispatch] returns: the response of [call_next], or the JSON body
    [{"detail": detail}] with a status. *)
Inductive Response (R : Type) : Type :=
| Next (r : R)
| JSONResponse (detail : string) (status_code : nat).

Arguments Next {R} r.
Arguments JSONResponse {R} detail status_code.

(** [dispatch(request, call_next)].  [url_path] is [request.url.path],
    [header] the value of the version header, and [call_next] what
    [call_next(request)] does when it is awaited: it returns a response or
    raises. *)
Definition dispatch {R : Type} (skipped_routes : list (string * bool))
    (url_path : string) (header : option string) (call_next : result R)
  : result (Response R) :=
  let awaited :=
    match call_next with
    | Ok r => Ok (Next r)
    | Raise e => Raise e
    end in
  let body :=
    if _should_skip_validation skipped_routes url_path then awaited
    else
      match validate_header header with
      | Ok _ => awaited
      | Raise e => Raise e
      end in
  match body with
  | Raise (HTTPException status_code detail) =>
      Ok (JSONResponse detail status_code)
  | r => r
  end.

(** A string that ends in [c]. *)
Definition ends_in (c : ascii) (s : string) : Prop :=
  exists q, s = (q ++ String c EmptyString)%string.

(* ================================================================== *)
(** * routers.py: [_get_min_version_or_date]; handlers.py: [_get_version] *)
(* ================================================================== *)

(** [min(x :: xs)] on strings: the first least element in code point
    order. *)
Definition min_str (x : string) (xs : list string) : string :=
  fold_left (fun m y => if String.ltb y m then y else m) xs x.

(** [min(keys, default=default)]. *)
Definition min_default (ks : list string) (default : string) : string :=
  match ks with
  | [] => default
  | x :: xs => min_str x xs
  end.

(** [datetime.max.isoformat()]. *)
Definition datetime_max_isoformat : string := "9999-12-31T23:59:59.999999".

(** A router with the memo of [_get_min_version_or_date]: [lru_cache] keys
    it by the router and by [is_date], and nothing clears it. *)
Record MemoRouter : Type := mkMemoRouter {
  base : VersionAwareAPIRouter;
  min_lru : bool -> option string
}.

Definition _get_min_version_or_date (is_date : bool) (self : MemoRouter)
  : result string * MemoRouter :=
  match min_lru self is_date with
  | Some m => (Ok m, self)
  | None =>
      match group_and_sort_routes (base self) with
      | (Ok g, s) =>
          let sorted_routes :=
            if is_date then sorted_date_routes g
            else sorted_version_routes g in
          let m := min_default (keys sorted_routes)
                     (if is_date then "" else datetime_max_isoformat) in
          (Ok m,
           mkMemoRouter s
             (fun b => if Bool.eqb b is_date then Some m else min_lru self b))
      | (Raise e, s) => (Raise e, mkMemoRouter s (min_lru self))
      end
  end.

(** How a call of [_get_version] ends: [next] on an iterator that is
    exhausted raises [StopIteration]. *)
Inductive answer (A : Type) : Type :=
| Returned (a : A)
| StopIteration
| Raised (e : exn).

Arguments Returned {A} a.
Arguments StopIteration {A}.
Arguments Raised {A} e.

(** The truth value of [req.query_params.get("version")]: [None] and the
    empty string are false. *)
Definition truthy (version : option string) : bool :=
  match version with
  | Some (String _ _) => true
  | _ => false
  end.

(** [_get_version(req)], where [version] is
    [req.query_params.get("version")]. *)
Definition _get_version (show_dashboard : bool) (version : option string)
    (self : MemoRouter) : answer (option string) * MemoRouter :=
  if negb (truthy version) && negb show_dashboard then
    match keys (versioned_routers (base self)) with
    | [] => (StopIteration, self)
    | first_key :: _ =>
        match _get_min_version_or_date (negb (is_valid_version first_key)) self
        with
        | (Ok m, s) => (Returned (Some m), s)
        | (Raise e, s) => (Raised e, s)
        end
    end
  else (Returned version, self).

(** The registered keys of one kind. *)
Definition keys_of_kind (is_date : bool) (d : list (string * loc))
  : list string :=
  if is_date then date_keys d else version_keys d.

(* ================================================================== *)
(** * handlers.py: the OpenAPI documents *)
(* ================================================================== *)

(** [f"{version}"] for the value of [req.query_params.get("version")]. *)
Definition format_version (version : option string) : string :=
  match version with
  | Some v => v
  | None => "None"
  end.

(** The documents are the framework's: [get_openapi routes version] stands
    for [get_openapi(routes=routes, version=version, **kwargs)], where
    [kwargs] holds the title and the other settings of the application,
    and [has_paths openapi] for the truth value of [openapi["paths"]].  A
    document is a dictionary that is not empty. *)
Module handlers.

Record HeaderBasedVersionHandler (OpenAPI : Type) : Type := mkHandler {
  router : VersionAwareAPIRouter;
  swaggers : list (string * OpenAPI)
}.

Arguments mkHandler {OpenAPI} router swaggers.
Arguments router {OpenAPI} h.
Arguments swaggers {OpenAPI} h.

Definition enrich_swagger {OpenAPI : Type}
    (get_openapi : list BaseRoute -> string -> OpenAPI)
    (has_paths : OpenAPI -> bool)
    (self : HeaderBasedVersionHandler OpenAPI)
  : HeaderBasedVersionHandler OpenAPI :=
  let unversioned_routers_openapi :=
    get_openapi (deref (router self) (unversioned_routers (router self)))
      "unversioned" in
  let swaggers0 :=
    if has_paths unversioned_routers_openapi
    then dict_setitem (swaggers self) "unversioned" unversioned_routers_openapi
    else swaggers self in
  mkHandler (router self)
    (fold_left
       (fun sw item =>
          match dict_get sw (fst item) with
          | Some _ => sw
          | None =>
              dict_setitem sw (fst item)
                (get_openapi (deref (router self) (snd item)) (fst item))
          end)
       (versioned_routers (router self)) swaggers0).

(** [include_router(router, version=version)] with the update of the
    documents, which an exception of the validation skips. *)
Definition include_router {OpenAPI : Type}
    (get_openapi : list BaseRoute -> string -> OpenAPI)
    (has_paths : OpenAPI -> bool)
    (router_routes appended : list BaseRoute) (version : option string)
    (self : HeaderBasedVersionHandler OpenAPI)
  : result unit * HeaderBasedVersionHandler OpenAPI :=
  match include_router router_routes appended version (router self) with
  | (Ok _, s) =>
      (Ok tt, enrich_swagger get_openapi has_paths (mkHandler s (swaggers self)))
  | (Raise e, s) => (Raise e, mkHandler s (swaggers self))
  end.

(** [__init__]: the router, no document, and the router of the three
    documentation routes, included without a version. *)
Definition __init__ {OpenAPI : Type}
    (get_openapi : list BaseRoute -> string -> OpenAPI)
    (has_paths : OpenAPI -> bool)
    (requested returned : option (option string))
  : HeaderBasedVersionHandler OpenAPI :=
  snd (include_router get_openapi has_paths docs docs None
         (mkHandler (__init__ requested returned) [])).

Definition openapi_jsons {OpenAPI : Type} (version : option string)
    (self : HeaderBasedVersionHandler OpenAPI) : result OpenAPI :=
  match match version with
        | Some v => dict_get (swaggers self) v
        | None => None
        end
  with
  | Some openapi_of_a_version => Ok openapi_of_a_version
  | None =>
      Raise (HTTPException 404
               ("OpenApi file of with version `" ++ format_version version
                ++ "` not found"))
  end.

(** Every registered key has a document, and every document is the
    document of a registered key or of the unversioned routes. *)
Record handler_inv {OpenAPI : Type} (self : HeaderBasedVersionHandler OpenAPI)
  : Prop := mkHandlerInv {
  hv_router : reachable (router self);
  hv_docs : forall k, In k (keys (versioned_routers (router self))) ->
                      dict_get (swaggers self) k <> None;
  hv_keys : forall k, dict_get (swaggers self) k <> None ->
                      k = "unversioned"
                      \/ In k (keys (versioned_routers (router self)))
}.

(** Runs of the application, with its documents. *)
Definition run_action {OpenAPI : Type}
    (get_openapi : list BaseRoute -> string -> OpenAPI)
    (has_paths : OpenAPI -> bool) (a : action)
    (self : HeaderBasedVersionHandler OpenAPI)
  : HeaderBasedVersionHandler OpenAPI :=
  match a with
  | Include rr appended version =>
      snd (include_router get_openapi has_paths rr appended version self)
  | _ => mkHandler (run_action a (router self)) (swaggers self)
  end.

Definition run {OpenAPI : Type}
    (get_openapi : list BaseRoute -> string -> OpenAPI)
    (has_paths : OpenAPI -> bool) (l : list action)
    (self : HeaderBasedVersionHandler OpenAPI)
  : HeaderBasedVersionHandler OpenAPI :=
  fold_left (fun s a => run_action get_openapi has_paths a s) l self.

Definition reachable {OpenAPI : Type}
    (get_openapi : list BaseRoute -> string -> OpenAPI)
    (has_paths : OpenAPI -> bool)
    (self : HeaderBasedVersionHandler OpenAPI) : Prop :=
  exists requested returned l,
    self = run get_openapi has_paths l
             (__init__ get_openapi has_paths requested returned).

End handlers.

(** Documents for the examples: the version and the paths. *)
Definition paths_openapi (routes : list BaseRoute) (version : string)
  : string * list string :=
  (version, map route_path routes).

Definition paths_has_paths (openapi : string * list string) : bool :=
  match snd openapi with
  | [] => false
  | _ => true
  end.

(* ================================================================== *)
(** * handlers.py: [_get_dashboard_template] *)
(* ================================================================== *)

(** A key of [grouped_versions]: a string (a major version, ["versioned"],
    ["unversioned"]) or a year, which is an [int]. *)
Inductive group_key : Type :=
| GroupName (name : string)
| GroupYear (year : N).

Definition group_key_eqb (a b : group_key) : bool :=
  match a, b with
  | GroupName x, GroupName y => String.eqb x y
  | GroupYear x, GroupYear y => N.eqb x y
  | _, _ => false
  end.

(** [d.get(k)], [d[k] = v] and
    [if k not in d: d[k] = []] followed by [d[k].append(v)]. *)
Fixpoint group_get {V : Type} (d : list (group_key * V)) (k : group_key)
  : option V :=
  match d with
  | [] => None
  | (k', v) :: d' => if group_key_eqb k k' then Some v else group_get d' k
  end.

Fixpoint group_setitem {V : Type} (d : list (group_key * V)) (k : group_key)
    (v : V) : list (group_key * V) :=
  match d with
  | [] => [(k, v)]
  | (k', v') :: d' =>
      if group_key_eqb k k' then (k', v) :: d'
      else (k', v') :: group_setitem d' k v
  end.

Fixpoint group_append {V : Type} (d : list (group_key * list V))
    (k : group_key) (v : V) : list (group_key * list V) :=
  match d with
  | [] => [(k, [v])]
  | (k', vs) :: d' =>
      if group_key_eqb k k' then (k', (vs ++ [v])%list) :: d'
      else (k', vs) :: group_append d' k v
  end.

(** [version.split(".")[0]]. *)
Definition major_version (version : string) : string :=
  match Py.split "." version with
  | major :: _ => major
  | [] => EmptyString
  end.

(** [datetime.strptime(version, "%Y-%m-%d").year] for a string that
    [is_valid_date] accepts, which the keys of [sorted_date_routes] are:
    for them [strptime] returns, and the year is the first field. *)
Definition strptime_year (version : string) : N :=
  match Py.split "-" version with
  | year :: _ => Py.int year
  | [] => 0%N
  end.

(** An entry of the dashboard: the version and its link. *)
Definition dashboard_entry (base_url url version : string) : string * string :=
  (version, base_url ++ url ++ "?version=" ++ version).

(** [_get_dashboard_template(req, url)] up to the rendering: the value of
    [grouped_versions] that is handed to the template.  [base_url] is
    [str(req.base_url).rstrip("/")]. *)
Definition _get_dashboard_template (group_versions : bool)
    (base_url url : string) : M (list (group_key * list (string * string))) :=
  sorted_routes <- group_and_sort_routes ;;
  let grouped_versions :=
    if group_versions then [] else [(GroupName "versioned", [])] in
  let grouped_versions :=
    fold_left
      (fun grouped_versions version =>
         if group_versions then
           group_append grouped_versions (GroupName (major_version version))
             (dashboard_entry base_url url version)
         else
           group_append grouped_versions (GroupName "versioned")
             (dashboard_entry base_url url version))
      (keys (sorted_version_routes sorted_routes)) grouped_versions in
  let grouped_versions :=
    fold_left
      (fun grouped_versions version =>
         if group_versions then
           group_append grouped_versions (GroupYear (strptime_year version))
             (dashboard_entry base_url url version)
         else
           group_append grouped_versions (GroupName "versioned")
             (dashboard_entry base_url url version))
      (keys (sorted_date_routes sorted_routes)) grouped_versions in
  ret (group_setitem grouped_versions (GroupName "unversioned")
         [dashboard_entry base_url url "unversioned"]).

(** A group of the dashboard: absent when it would be empty. *)
Definition group_of {V : Type} (l : list V) : option (list V) :=
  match l with
  | [] => None
  | _ => Some l
  end.

(* ------------------------------------------------------------------ *)
(** ** The assertions of tests/test_utils.py *)
(* ------------------------------------------------------------------ *)

Module TestUtils.

Example test_is_valid_version_valid :
  map is_valid_version
    ["v1.0.0"; "v1.1.0"; "v1.1.1"; "v0.0.1"; "v0.1.1"; "v0.1.0";
     "1.0.0"; "1.1.0"; "1.1.1"; "0.0.1"; "0.1.1"; "0.1.0"]
  = repeat true 12.
Proof. reflexivity. Qed.

Example test_is_valid_version_invalid_format :
  map is_valid_version
    ["0.0.0"; "v0.0.0"; "g1.0.0"; "invalid"; ""; "v1.0.0.0"; "v1.0"; "v2."]
  = repeat false 8.
Proof. reflexivity. Qed.

Example test_is_valid_date_valid : is_valid_date "2024-04-29" = true.
Proof. reflexivity. Qed.

Example test_is_valid_date_invalid_format :
  map is_valid_date
    ["2024-04-29T12:00:00"; "2024-4-29"; "2024-4-3"; "2024-04"; "2024-4";
     "24-04-29"; "invalid"; ""; "2024-02-30"; "2023-02-29"; "0000-01-01";
     "2024-00-10"; "2024-13-10"; "2024-01-00"; "20244-03-16"]
  = repeat false 15.
Proof. reflexivity. Qed.

Example test_normalize_version :
  normalize_version "1.0.0" = "v1.0.0" /\ normalize_version "v1.0.0" = "v1.0.0".
Proof. split; reflexivity. Qed.

Example test_find_closest_version_within_versions :
  find_closest_version "v1.2.3" versions6 = Ok "v1.2.2"
  /\ find_closest_version "v1.1.5" versions6 = Ok "v1.1.0"
  /\ find_closest_version "v1.0.5" versions6 = Ok "v1.0.0".
Proof. repeat split; reflexivity. Qed.

Example test_find_closest_version_greater_than_available :
  find_closest_version "v2.0.0" ["v1.0.0"; "v1.1.0"; "v1.2.0"] = Ok "v1.2.0".
Proof. reflexivity. Qed.

Example test_find_closest_version_less_than_available :
  find_closest_version "v1.0.0" ["v1.1.0"; "v1.2.0"; "v1.3.0"] = Ok "v1.1.0".
Proof. reflexivity. Qed.

Example test_find_closest_version_equal_to_available :
  find_closest_version "v1.1.0" ["v1.0.0"; "v1.1.0"; "v1.2.0"] = Ok "v1.1.0".
Proof. reflexivity. Qed.

Example test_find_closest_version_no_available_versions :
  find_closest_version "v1.0.0" []
  = Raise (ValueError "No available versions found").
Proof. reflexivity. Qed.

Example test_find_closest_version_with_invalid_version :
  find_closest_version "invalid-version" ["v1.0.0"; "v1.1.0"; "v1.2.0"]
  = Raise (ValueError "Invalid version format").
Proof. reflexivity. Qed.

Example test_find_closest_date_exact_match :
  find_closest_date "2024-04-15" dates3 = Ok "2024-04-15".
Proof. reflexivity. Qed.

Example test_find_closest_date_between_dates :
  find_closest_date "2024-04-17" dates3 = Ok "2024-04-15"
  /\ find_closest_date "2024-04-12" dates3 = Ok "2024-04-10"
  /\ find_closest_date "2024-03-16" dates4 = Ok "2024-03-16"
  /\ find_closest_date "2024-03-15" dates4 = Ok "2024-02-10"
  /\ find_closest_date "2024-04-15" dates4 = Ok "2024-03-16"
  /\ find_closest_date "2024-01-12" dates4 = Ok "2024-01-05".
Proof. repeat split; reflexivity. Qed.

Example test_find_closest_date_before_first_date :
  find_closest_date "2024-04-05" dates3 = Ok "2024-04-10".
Proof. reflexivity. Qed.

Example test_find_closest_date_after_last_date :
  find_closest_date "2024-04-25" dates3 = Ok "2024-04-20"
  /\ find_closest_date "2024-04-03" dates3 = Ok "2024-04-10".
Proof. repeat split; reflexivity. Qed.

Example test_find_closest_date_with_invalid_date :
  find_closest_date "2024-4-3" dates3 = Raise (ValueError "Invalid date format").
Proof. reflexivity. Qed.

End TestUtils.

(* ================================================================== *)
(** * The order of strings *)
(* ================================================================== *)

Lemma str_compare_refl (s : string) : String.compare s s = Eq.
Proof.
  induction s as [|c s IH]; simpl; [reflexivity|].
  unfold Ascii.compare. now rewrite N.compare_refl.
Qed.

Lemma str_compare_lt_trans (a b c : string) :
  String.compare a b = Lt -> String.compare b c = Lt -> String.compare a c = Lt.
Proof.
  revert b c. induction a as [|x a IH]; intros [|y b] [|z c]; simpl;
    try discriminate; try reflexivity.
  destruct (Ascii.compare x y) eqn:Exy; try discriminate;
    destruct (Ascii.compare y z) eqn:Eyz; try discriminate; intros H1 H2.
  - apply Ascii.compare_eq_iff in Exy, Eyz. subst.
    rewrite (proj2 (N.compare_eq_iff _ _) eq_refl : Ascii.compare z z = Eq).
    eauto.
  - apply Ascii.compare_eq_iff in Exy. subst. now rewrite Eyz.
  - apply Ascii.compare_eq_iff in Eyz. subst. now rewrite Exy.
  - unfold Ascii.compare in *.
    rewrite N.compare_lt_iff in Exy, Eyz.
    now rewrite (proj2 (N.compare_lt_iff _ _) (N.lt_trans _ _ _ Exy Eyz)).
Qed.

Lemma str_ltb_lt (a b : string) : String.ltb a b = true <-> String.compare a b = Lt.
Proof. unfold String.ltb. destruct (String.compare a b); split; congruence. Qed.

Lemma str_lt_irrefl (a : string) : ~ StrOrder.lt a a.
Proof. unfold StrOrder.lt. rewrite str_ltb_lt, str_compare_refl. discriminate. Qed.

Lemma str_lt_trans (a b c : string) : StrOrder.lt a b -> StrOrder.lt b c -> StrOrder.lt a c.
Proof. unfold StrOrder.lt. rewrite !str_ltb_lt. apply str_compare_lt_trans. Qed.

Lemma str_lt_asym (a b : string) : StrOrder.lt a b -> ~ StrOrder.lt b a.
Proof. intros H1 H2. exact (str_lt_irrefl a (str_lt_trans _ _ _ H1 H2)). Qed.

Lemma str_lt_le (a b : string) : StrOrder.lt a b -> StrOrder.le a b.
Proof.
  intros H. unfold StrOrder.le. destruct (String.ltb b a) eqn:E; [|reflexivity].
  now destruct (str_lt_asym _ _ H).
Qed.

Lemma str_le_refl (a : string) : StrOrder.le a a.
Proof.
  unfold StrOrder.le. destruct (String.ltb a a) eqn:E; [|reflexivity].
  now destruct (str_lt_irrefl a).
Qed.

(** The order is total: two strings neither of which is below the other are
    the same string. *)
Lemma str_le_antisym (a b : string) : StrOrder.le a b -> StrOrder.le b a -> a = b.
Proof.
  unfold StrOrder.le, String.ltb. intros H1 H2.
  rewrite String.compare_antisym in H1.
  destruct (String.compare a b) eqn:E; simpl in *; try discriminate.
  now apply String.compare_eq_iff.
Qed.

Lemma str_not_lt_le (a b : string) : ~ StrOrder.lt a b -> StrOrder.le b a.
Proof. unfold StrOrder.lt, StrOrder.le. now destruct (String.ltb a b). Qed.

Lemma str_le_not_lt (a b : string) : StrOrder.le a b -> ~ StrOrder.lt b a.
Proof. unfold StrOrder.lt, StrOrder.le. intros H1 H2. congruence. Qed.

Lemma str_le_lt_trans (a b c : string) : StrOrder.le a b -> StrOrder.lt b c -> StrOrder.lt a c.
Proof.
  intros H1 H2. destruct (String.ltb a b) eqn:Eab.
  - exact (str_lt_trans _ _ _ Eab H2).
  - assert (a = b) by (apply str_le_antisym; [exact H1 | exact Eab]). now subst.
Qed.

Lemma str_lt_le_trans (a b c : string) : StrOrder.lt a b -> StrOrder.le b c -> StrOrder.lt a c.
Proof.
  intros H1 H2. destruct (String.ltb b c) eqn:Ebc.
  - exact (str_lt_trans _ _ _ H1 Ebc).
  - assert (b = c) by (apply str_le_antisym; [exact H2 | exact Ebc]). now subst.
Qed.

Lemma str_le_trans (a b c : string) : StrOrder.le a b -> StrOrder.le b c -> StrOrder.le a c.
Proof.
  intros H1 H2. apply str_not_lt_le. intros H.
  exact (str_le_not_lt _ _ H2 (str_lt_le_trans _ _ _ H H1)).
Qed.


(* ================================================================== *)
(** * [sorted] and [bisect_left] *)
(* ================================================================== *)

Section SortedBy.
Context {A : Type} (key : A -> string).

Lemma insort_perm (x : A) (l : list A) : Permutation (x :: l) (Py.insort key x l).
Proof.
  induction l as [|y l IH]; simpl; [reflexivity|].
  destruct (String.ltb (key y) (key x)); [|reflexivity].
  rewrite perm_swap. now constructor.
Qed.

Lemma sorted_by_perm (l : list A) : Permutation l (Py.sorted_by key l).
Proof.
  induction l as [|x l IH]; simpl; [constructor|].
  rewrite <- insort_perm. now constructor.
Qed.

Lemma insort_sorted (x : A) (l : list A) :
  StronglySorted (key_le key) l -> StronglySorted (key_le key) (Py.insort key x l).
Proof.
  induction 1 as [|y l Hs IH Hy]; simpl.
  - repeat constructor.
  - destruct (String.ltb (key y) (key x)) eqn:E.
    + constructor; [exact IH|].
      rewrite Forall_forall in *. intros z Hz.
      apply (Permutation_in _ (Permutation_sym (insort_perm x l))) in Hz.
      destruct Hz as [<-|Hz]; [|now apply Hy].
      now apply str_lt_le.
    + constructor; [now constructor|].
      constructor; [exact E|].
      rewrite Forall_forall in *. intros z Hz.
      apply (str_le_trans _ (key y)); [exact E | now apply Hy].
Qed.

Lemma sorted_by_sorted (l : list A) : StronglySorted (key_le key) (Py.sorted_by key l).
Proof.
  induction l as [|x l IH]; simpl; [constructor|]. now apply insort_sorted.
Qed.

Lemma sorted_by_In (x : A) (l : list A) : In x (Py.sorted_by key l) <-> In x l.
Proof.
  split; apply Permutation_in;
    [apply Permutation_sym|]; apply sorted_by_perm.
Qed.

Lemma sorted_by_length (l : list A) :
  List.length (Py.sorted_by key l) = List.length l.
Proof. symmetry. apply Permutation_length, sorted_by_perm. Qed.

Lemma insort_keys (x : A) (l : list A) :
  map key (Py.insort key x l) = Py.insort (fun s => s) (key x) (map key l).
Proof.
  induction l as [|y l IH]; simpl; [reflexivity|].
  destruct (String.ltb (key y) (key x)); simpl; [now rewrite IH | reflexivity].
Qed.

(** Sorting the items by key and taking the keys is sorting the keys. *)
Lemma sorted_by_keys (l : list A) :
  map key (Py.sorted_by key l) = Py.sorted (map key l).
Proof.
  induction l as [|x l IH]; simpl; [reflexivity|].
  rewrite insort_keys, IH. reflexivity.
Qed.
End SortedBy.

Lemma sorted_sorted (l : list string) : StronglySorted StrOrder.le (Py.sorted l).
Proof. exact (sorted_by_sorted (fun s => s) l). Qed.

Lemma sorted_perm (l : list string) : Permutation l (Py.sorted l).
Proof. exact (sorted_by_perm (fun s => s) l). Qed.

Lemma sorted_In (x : string) (l : list string) : In x (Py.sorted l) <-> In x l.
Proof. exact (sorted_by_In (fun s => s) x l). Qed.

Lemma sorted_length (l : list string) : List.length (Py.sorted l) = List.length l.
Proof. exact (sorted_by_length (fun s => s) l). Qed.

(** A sorted list, read by index. *)
Lemma StronglySorted_nth (a : list string) :
  StronglySorted StrOrder.le a ->
  forall i j, i <= j -> j < List.length a ->
    StrOrder.le (nth i a EmptyString) (nth j a EmptyString).
Proof.
  induction 1 as [|x a Hs IH Hx]; simpl; intros i j Hij Hj; [lia|].
  destruct i as [|i], j as [|j]; try lia.
  - apply str_le_refl.
  - rewrite Forall_forall in Hx. apply Hx, nth_In. lia.
  - apply IH; lia.
Qed.

Section Bisect.
Variables (a : list string) (x : string).
Hypothesis a_sorted : StronglySorted StrOrder.le a.

(** With fuel for [hi - lo] rounds the loop ends with [lo = hi]: the
    result splits the list. *)
Lemma bisect_loop_fuel (fuel lo hi : nat) :
  hi - lo <= fuel -> bisect_inv a x lo hi ->
  bisect_inv a x (Py.bisect_loop fuel a x lo hi)
    (Py.bisect_loop fuel a x lo hi).
Proof.
  revert lo hi.
  induction fuel as [|fuel IH]; intros lo hi Hf Hinv; cbn [Py.bisect_loop].
  - destruct Hinv as ((H1 & H2) & H3 & H4).
    assert (lo = hi) by lia. subst. repeat split; auto.
  - destruct (Nat.ltb_spec lo hi) as [Hlt|Hge].
    + assert (Hmid : lo <= (lo + hi) / 2 < hi).
      { split.
        - apply Nat.div_le_lower_bound; lia.
        - apply Nat.Div0.div_lt_upper_bound; lia. }
      destruct Hinv as ((H1 & H2) & H3 & H4).
      destruct (String.ltb (nth ((lo + hi) / 2) a EmptyString) x) eqn:E.
      * apply IH; [lia|]. repeat split; try lia.
        -- intros j Hj.
           apply (str_le_lt_trans _ (nth ((lo + hi) / 2) a EmptyString));
             [|exact E].
           apply StronglySorted_nth; [exact a_sorted | lia | lia].
        -- exact H4.
      * apply IH; [lia|]. repeat split; try lia.
        -- exact H3.
        -- intros j Hj Hlen Hlt'.
           assert (Hle : StrOrder.le (nth ((lo + hi) / 2) a EmptyString)
                                     (nth j a EmptyString))
             by (apply StronglySorted_nth; [exact a_sorted | lia | lia]).
           pose proof (str_le_lt_trans _ _ _ Hle Hlt') as Hc.
           unfold StrOrder.lt in Hc. congruence.
    + destruct Hinv as ((H1 & H2) & H3 & H4).
      assert (lo = hi) by lia. subst. repeat split; auto.
Qed.

(** [bisect_left] returns the insertion point: the index that has exactly
    the elements below [x] on its left. *)
Lemma bisect_left_spec :
  let r := Py.bisect_left a x in
  r <= List.length a
  /\ (forall j, j < r -> StrOrder.lt (nth j a EmptyString) x)
  /\ (forall j, r <= j -> j < List.length a ->
                ~ StrOrder.lt (nth j a EmptyString) x).
Proof.
  unfold Py.bisect_left.
  assert (H : bisect_inv a x 0 (List.length a)).
  { repeat split; try lia. }
  pose proof (bisect_loop_fuel (List.length a) 0 (List.length a)
                ltac:(lia) H) as (Hr & Hlo & Hhi).
  repeat split; [lia | exact Hlo | exact Hhi].
Qed.
End Bisect.

(* ================================================================== *)
(** * The classifier *)
(* ================================================================== *)

Section Classifier.

Local Ltac by_cases c :=
  destruct c as [[] [] [] [] [] [] [] []]; vm_compute; intuition congruence.

Lemma re_digit_other (c : ascii) :
  Py.re_digit c = true ->
  Py.re_space c = false /\ Ascii.eqb c "v" = false /\ Ascii.eqb c "V" = false.
Proof. by_cases c. Qed.

Lemma v_not_space (c : ascii) : Ascii.eqb c "v" = true -> Py.re_space c = false.
Proof. by_cases c. Qed.

Lemma hyphen_not_digit : Py.re_digit "-" = false.
Proof. reflexivity. Qed.

Lemma span_digits_app (d r : string) (c : ascii) :
  Py.forallb_str Py.re_digit d = true -> Py.re_digit c = false ->
  span_digits (d ++ String c r) = (d, String c r).
Proof.
  intros Hd Hc. induction d as [|x d IH]; simpl in *.
  - now rewrite Hc.
  - apply andb_prop in Hd as (Hx & Hd). rewrite Hx, (IH Hd). reflexivity.
Qed.

(** A release starts with a digit. *)
Lemma match_release_head (c : ascii) (s : string) r :
  match_release (String c s) = Some r -> Py.re_digit c = true.
Proof.
  unfold match_release. simpl.
  destruct (Py.re_digit c); [reflexivity|]. discriminate.
Qed.

(** [sep.join(s.split(sep)) == s]. *)
Lemma split_concat (sep : ascii) (s : string) :
  String.concat (String sep EmptyString) (Py.split sep s) = s.
Proof.
  induction s as [|c s IH]; simpl; [reflexivity|].
  destruct (Ascii.eqb_spec c sep) as [->|Hne].
  - simpl. destruct (Py.split sep s) eqn:E.
    + destruct s; simpl in E; [discriminate|].
      destruct (Ascii.eqb a sep); [discriminate|].
      destruct (Py.split sep s); discriminate.
    + simpl in *. now rewrite IH.
  - destruct (Py.split sep s) as [|w ws] eqn:E.
    + destruct s; simpl in E; [discriminate|].
      destruct (Ascii.eqb a sep); [discriminate|].
      destruct (Py.split sep s); discriminate.
    + simpl in *. destruct ws; simpl in *; now rewrite <- IH.
Qed.

(** The shape of a valid date: four digits, a hyphen and the rest. *)
Lemma is_valid_date_shape (s : string) :
  is_valid_date s = true ->
  exists year rest,
    s = year ++ String "-" rest
    /\ Py.forallb_str Py.re_digit year = true
    /\ String.length year = 4.
Proof.
  unfold is_valid_date. intros H.
  pose proof (split_concat "-" s) as Hs.
  destruct (Py.split "-" s) as [|year [|month [|day [|? ?]]]];
    try discriminate.
  destruct (Py.isdigit year && Nat.eqb (String.length year) 4
            && Py.isdigit month && Nat.eqb (String.length month) 2
            && Py.isdigit day && Nat.eqb (String.length day) 2) eqn:E;
    simpl in H; [|discriminate].
  repeat (apply andb_prop in E as (E & ?)).
  unfold Calendar.strptime_ok in H.
  repeat (apply andb_prop in H as (H & ?)).
  exists year, (month ++ String "-" day). simpl in Hs.
  split; [now rewrite <- Hs|]. split; [assumption|].
  now apply Nat.eqb_eq.
Qed.

Lemma is_valid_date_not_version (s : string) :
  is_valid_date s = true -> is_valid_version s = false.
Proof.
  intros H. destruct (is_valid_date_shape s H) as (year & rest & -> & Hd & Hl).
  unfold is_valid_version.
  destruct (_ || _); [reflexivity|].
  unfold re_match_version.
  destruct year as [|c year]; [discriminate|].
  simpl in Hd. apply andb_prop in Hd as (Hc & Hd).
  destruct (re_digit_other c Hc) as (_ & Hv & _).
  simpl Py.startswith_v. rewrite Hv.
  unfold match_release.
  change (String c year ++ String "-" rest)
    with (String c (year ++ String "-" rest)).
  cbn [span_digits]. rewrite Hc, (span_digits_app year rest "-" Hd eq_refl).
  reflexivity.
Qed.

Lemma is_valid_version_nonempty : is_valid_version "" = false.
Proof. reflexivity. Qed.

Lemma is_valid_date_nonempty : is_valid_date "" = false.
Proof. reflexivity. Qed.

(** A valid version parses. *)
Lemma parse_valid (s : string) :
  is_valid_version s = true -> exists t, versionpkg.parse s = Some t.
Proof.
  unfold is_valid_version. destruct (_ || _); [discriminate|].
  unfold re_match_version, versionpkg.parse.
  destruct s as [|c s]; [discriminate|].
  cbn [Py.startswith_v versionpkg.lstrip versionpkg.drop_v].
  destruct (Ascii.eqb c "v") eqn:Ev.
  - rewrite (v_not_space c Ev). cbn [versionpkg.drop_v]. rewrite Ev.
    cbn [orb].
    destruct (match_release s) as [[[[d1 d2] d3] rest]|]; [|discriminate].
    intros H. apply orb_prop in H as [H|H]; apply String.eqb_eq in H; subst;
      eexists; reflexivity.
  - destruct (match_release (String c s)) as [[[[d1 d2] d3] rest]|] eqn:E;
      [|discriminate].
    destruct (re_digit_other c (match_release_head _ _ _ E)) as (Hs & _ & HV).
    rewrite Hs. cbn [versionpkg.drop_v]. rewrite Ev, HV. cbn [orb].
    rewrite E.
    intros H. apply orb_prop in H as [H|H]; apply String.eqb_eq in H; subst;
      eexists; reflexivity.
Qed.

(** ** [normalize_version] *)

Lemma normalize_version_cases (s : string) :
  (is_valid_version s = true /\ Py.startswith_v s = false
   /\ normalize_version s = "v" ++ s)
  \/ ((is_valid_version s = false \/ Py.startswith_v s = true)
      /\ normalize_version s = s).
Proof.
  unfold normalize_version.
  destruct (is_valid_version s), (Py.startswith_v s); simpl; auto.
Qed.

Lemma normalize_version_idem (s : string) :
  normalize_version (normalize_version s) = normalize_version s.
Proof.
  destruct (normalize_version_cases s) as [(Hv & Hp & E)|(_ & E)]; rewrite E.
  - unfold normalize_version at 1.
    change (Py.startswith_v ("v" ++ s)) with true.
    now rewrite andb_false_r.
  - exact E.
Qed.

(** The normal form of a valid version is a valid version with the
    prefix. *)
Lemma normalize_version_valid (s : string) :
  is_valid_version s = true ->
  is_valid_version (normalize_version s) = true
  /\ Py.startswith_v (normalize_version s) = true.
Proof.
  intros Hv.
  destruct (normalize_version_cases s) as [(_ & Hp & E)|([H|H] & E)];
    rewrite E; try congruence; auto.
  split; [|reflexivity].
  revert Hv. unfold is_valid_version.
  change ("v" ++ s) with (String "v" s).
  destruct (String.eqb_spec s "0.0.0") as [->|Hne]; [discriminate|].
  rewrite orb_false_r.
  destruct (String.eqb_spec s "v0.0.0") as [->|_]; [discriminate|].
  replace (String.eqb (String "v" s) "v0.0.0") with false.
  2:{ symmetry. apply String.eqb_neq. intros H. inversion H. now subst. }
  replace (String.eqb (String "v" s) "0.0.0") with false by reflexivity.
  cbn [orb]. unfold re_match_version. rewrite Hp.
  change (Py.startswith_v (String "v" s)) with true. cbn iota. tauto.
Qed.

Lemma normalize_version_date (s : string) :
  is_valid_date s = true -> normalize_version s = s.
Proof.
  intros H. unfold normalize_version.
  now rewrite (is_valid_date_not_version s H).
Qed.

(** The normal form of a valid version denotes the same release. *)
Lemma parse_normalize_version (s : string) :
  is_valid_version s = true ->
  versionpkg.parse (normalize_version s) = versionpkg.parse s.
Proof.
  intros Hv.
  destruct (normalize_version_cases s) as [(_ & Hp & E)|(_ & E)];
    rewrite E; [|reflexivity].
  unfold versionpkg.parse. change ("v" ++ s) with (String "v" s).
  cbn [versionpkg.lstrip]. change (Py.re_space "v") with false. cbn iota.
  cbn [versionpkg.drop_v]. change (Ascii.eqb "v" "v") with true. cbn [orb].
  revert Hv. unfold is_valid_version. destruct (_ || _); [discriminate|].
  unfold re_match_version. rewrite Hp.
  destruct s as [|c s]; [discriminate|].
  destruct (match_release (String c s)) as [r|] eqn:Er; [|discriminate].
  intros _. destruct (re_digit_other c (match_release_head _ _ _ Er))
    as (Hs & Hv' & HV).
  unfold versionpkg.lstrip. rewrite Hs.
  unfold versionpkg.drop_v. rewrite Hv', HV. cbn [orb]. rewrite Er.
  reflexivity.
Qed.

End Classifier.

(* ================================================================== *)
(** * The resolvers *)
(* ================================================================== *)

Section Lists.
Context {A : Type}.

Lemma nth_error_middle (l l' : list A) (a : A) :
  nth_error (l ++ a :: l') (List.length l) = Some a.
Proof. induction l; simpl; auto. Qed.

Lemma getitem_In (l : list A) (i : nat) (x : A) :
  Py.getitem l i = Ok x -> In x l.
Proof.
  unfold Py.getitem. destruct (nth_error l i) eqn:E; [|discriminate].
  intros [= <-]. eapply nth_error_In; eauto.
Qed.

Lemma getitem_lt (l : list A) (i : nat) :
  i < List.length l -> exists x, Py.getitem l i = Ok x.
Proof.
  intros H. unfold Py.getitem. destruct (nth_error l i) eqn:E; eauto.
  apply nth_error_None in E. lia.
Qed.

Lemma getitem_last_app (l : list A) (a : A) : Py.getitem_last (l ++ [a]) = Ok a.
Proof.
  unfold Py.getitem_last. destruct (l ++ [a])%list eqn:E.
  - now destruct l.
  - rewrite <- E. unfold Py.getitem.
    rewrite length_app. simpl.
    replace (List.length l + 1 - 1) with (List.length l) by lia.
    now rewrite nth_error_middle.
Qed.
End Lists.

Lemma contains_In (x : string) (l : list string) :
  Py.contains x l = true <-> In x l.
Proof.
  unfold Py.contains. rewrite existsb_exists. split.
  - intros (y & Hy & E). apply String.eqb_eq in E. now subst.
  - intros H. exists x. split; [exact H | apply String.eqb_refl].
Qed.

Lemma max_str_In (x : string) (xs : list string) : In (Py.max_str x xs) (x :: xs).
Proof.
  unfold Py.max_str. revert x. induction xs as [|y xs IH]; intros x; simpl.
  - now left.
  - destruct (IH (if String.ltb x y then y else x)) as [H|H].
    + rewrite <- H. destruct (String.ltb x y); auto.
    + auto.
Qed.


(** The candidates that pass the filter. *)
Lemma not_exceeding_spec (target : string) (t : versionpkg.Version)
    (l r : list string) :
  versionpkg.parse target = Some t ->
  not_exceeding target l = Some r ->
  forall v, In v r <->
    In v l /\ exists p, versionpkg.parse v = Some p /\ versionpkg.le p t = true.
Proof.
  intros Ht. revert r. induction l as [|w l IH]; simpl; intros r H v.
  - injection H as <-. simpl. split; [tauto | intros ([] & _)].
  - rewrite Ht in H.
    destruct (versionpkg.parse w) as [p|] eqn:Ep; [|discriminate].
    destruct (not_exceeding target l) as [r'|]; [|discriminate].
    injection H as <-. specialize (IH r' eq_refl v).
    destruct (versionpkg.le p t) eqn:El; simpl; rewrite IH.
    + split.
      * intros [<-|(H1 & H2)]; eauto.
      * intros ([<-|H1] & H2); auto.
    + split.
      * intros (H1 & H2); auto.
      * intros ([<-|H1] & (q & Hq & Hle)); [congruence | eauto].
Qed.


Lemma find_closest_version_invalid (target : string) (l : list string) :
  is_valid_version target = false ->
  find_closest_version target l = Raise (ValueError "Invalid version format").
Proof. unfold find_closest_version. now intros ->. Qed.

Lemma find_closest_version_empty (target : string) :
  is_valid_version target = true ->
  find_closest_version target []
  = Raise (ValueError "No available versions found").
Proof. intros H. unfold find_closest_version. now rewrite H. Qed.

(** [find_closest_version] returns or raises [ValueError]; what it returns is
    the normal form of a candidate. *)
Lemma find_closest_version_outcome (target : string) (l : list string) :
  (exists v, find_closest_version target l = Ok v
             /\ In v (map normalize_version l))
  \/ (exists msg, find_closest_version target l = Raise (ValueError msg)).
Proof.
  unfold find_closest_version.
  destruct (is_valid_version target) eqn:Hv; simpl; [|eauto].
  destruct (parse_valid _ (proj1 (normalize_version_valid _ Hv))) as (t & Ht).
  destruct (not_exceeding (normalize_version target) (map normalize_version l))
    as [[|x xs]|] eqn:E.
  - destruct (map normalize_version l) as [|v0 ?]; [eauto|].
    left. exists v0. simpl; auto.
  - left. exists (Py.max_str x xs). split; [reflexivity|].
    apply (not_exceeding_spec _ _ _ _ Ht E), max_str_In.
  - destruct (map normalize_version l) as [|v0 ?]; [eauto|].
    left. exists v0. simpl; auto.
Qed.

Lemma find_closest_version_In (target : string) (l : list string) :
  is_valid_version target = true -> l <> [] ->
  exists v, find_closest_version target l = Ok v
            /\ In v (map normalize_version l).
Proof.
  intros Hv Hl.
  destruct (find_closest_version_outcome target l) as [H|(msg & H)]; [exact H|].
  exfalso. revert H. unfold find_closest_version. rewrite Hv. simpl.
  destruct l as [|w l]; [congruence|].
  destruct (not_exceeding _ (map normalize_version (w :: l))) as [[|? ?]|];
    discriminate.
Qed.

(** ** [find_closest_date] *)

Lemma find_closest_date_invalid (target : string) (l : list string) :
  is_valid_date target = false ->
  find_closest_date target l = Raise (ValueError "Invalid date format").
Proof. unfold find_closest_date. now intros ->. Qed.

Lemma find_closest_date_exact (target : string) (l : list string) :
  is_valid_date target = true -> In target l ->
  find_closest_date target l = Ok target.
Proof.
  intros Hv Hin. unfold find_closest_date. rewrite Hv. simpl.
  now rewrite (proj2 (contains_In target l) Hin).
Qed.

Lemma find_closest_date_search (target : string) (l : list string) :
  is_valid_date target = true -> ~ In target l ->
  find_closest_date target l =
    let s := Py.sorted l in
    let index := Py.bisect_left s target in
    if Nat.eqb index 0 then Py.getitem s 0
    else if Nat.eqb index (List.length s) then Py.getitem_last s
         else Py.getitem s (index - 1).
Proof.
  intros Hv Hin. unfold find_closest_date. rewrite Hv. simpl.
  destruct (Py.contains target l) eqn:E; [|reflexivity].
  now apply contains_In in E.
Qed.

Lemma find_closest_date_empty (target : string) :
  is_valid_date target = true ->
  find_closest_date target []
  = Raise (IndexError "list index out of range").
Proof.
  intros Hv. rewrite find_closest_date_search; [reflexivity | exact Hv | auto].
Qed.

(** [find_closest_date] returns a candidate, or raises [ValueError] or
    [IndexError]. *)
Lemma find_closest_date_outcome (target : string) (l : list string) :
  (exists d, find_closest_date target l = Ok d /\ In d l)
  \/ (exists msg, find_closest_date target l = Raise (ValueError msg))
  \/ (exists msg, find_closest_date target l = Raise (IndexError msg)).
Proof.
  destruct (is_valid_date target) eqn:Hv.
  2:{ right. left. rewrite find_closest_date_invalid; eauto. }
  destruct (in_dec string_dec target l) as [Hin|Hin].
  { left. exists target. split; [now apply find_closest_date_exact | exact Hin]. }
  rewrite (find_closest_date_search _ _ Hv Hin). cbv zeta.
  assert (Hres : forall r : result string,
             (r = Raise (IndexError "list index out of range")
              \/ exists d, r = Ok d /\ In d (Py.sorted l)) ->
             (exists d, r = Ok d /\ In d l)
             \/ (exists msg, r = Raise (ValueError msg))
             \/ (exists msg, r = Raise (IndexError msg))).
  { intros r [->|(d & -> & Hd)]; [eauto|].
    left. exists d. split; [reflexivity | now apply sorted_In]. }
  assert (Hget : forall i,
             Py.getitem (Py.sorted l) i
             = Raise (IndexError "list index out of range")
             \/ exists d, Py.getitem (Py.sorted l) i = Ok d
                          /\ In d (Py.sorted l)).
  { intros i. destruct (Py.getitem (Py.sorted l) i) as [d|e] eqn:E.
    - right. exists d. split; [reflexivity | eapply getitem_In; eauto].
    - left. revert E. unfold Py.getitem.
      destruct (nth_error (Py.sorted l) i); congruence. }
  destruct (Nat.eqb _ 0); [apply Hres, Hget|].
  destruct (Nat.eqb _ _); [|apply Hres, Hget].
  apply Hres. unfold Py.getitem_last.
  destruct (Py.sorted l) eqn:E; [auto|]. apply Hget.
Qed.

Lemma find_closest_date_In (target : string) (l : list string) :
  is_valid_date target = true -> l <> [] ->
  exists d, find_closest_date target l = Ok d /\ In d l.
Proof.
  intros Hv Hl.
  destruct (in_dec string_dec target l) as [Hin|Hin].
  { exists target. split; [now apply find_closest_date_exact | exact Hin]. }
  rewrite (find_closest_date_search _ _ Hv Hin). cbv zeta.
  pose proof (bisect_left_spec (Py.sorted l) target (sorted_sorted l))
    as (Hr & _). cbv zeta in Hr.
  assert (Hlen : 0 < List.length (Py.sorted l)).
  { rewrite sorted_length. destruct l; [congruence | simpl; lia]. }
  assert (Hget : forall i, i < List.length (Py.sorted l) ->
             exists d, Py.getitem (Py.sorted l) i = Ok d /\ In d l).
  { intros i Hi. destruct (getitem_lt _ _ Hi) as (d & Hd).
    exists d. split; [exact Hd|]. apply sorted_In. eapply getitem_In; eauto. }
  destruct (Nat.eqb_spec (Py.bisect_left (Py.sorted l) target) 0) as [E0|N0];
    [now apply Hget|].
  destruct (Nat.eqb_spec (Py.bisect_left (Py.sorted l) target)
              (List.length (Py.sorted l))) as [El|Nl].
  - unfold Py.getitem_last. destruct (Py.sorted l) eqn:E; [simpl in Hlen; lia|].
    rewrite <- E in *. apply Hget. lia.
  - apply Hget. lia.
Qed.

(* ================================================================== *)
(** * Statements about utils.py *)
(* ================================================================== *)

Lemma string_cons_neq (c : ascii) (s : string) : s <> String c s.
Proof.
  intros H. apply (f_equal String.length) in H. simpl in H. lia.
Qed.

(** C9.  [normalize_version] is idempotent on every valid semantic version;
    it prepends [v] to a valid semantic version that lacks the prefix, it
    changes no other string, and it leaves a calendar date as it is. *)
Theorem normalize_version_idempotent :
  (forall s, is_valid_version s = true ->
             normalize_version (normalize_version s) = normalize_version s)
  /\ (forall s, is_valid_version s = true -> Py.startswith_v s = false ->
                normalize_version s = "v" ++ s)
  /\ (forall s, normalize_version s <> s ->
                is_valid_version s = true /\ Py.startswith_v s = false)
  /\ (forall s, is_valid_date s = true -> normalize_version s = s).
Proof.
  repeat split.
  - intros s _. apply normalize_version_idem.
  - intros s Hv Hp. unfold normalize_version. now rewrite Hv, Hp.
  - destruct (normalize_version_cases s) as [(Hv & _)|(_ & E)];
      [exact Hv | congruence].
  - destruct (normalize_version_cases s) as [(_ & Hp & _)|(_ & E)];
      [exact Hp | congruence].
  - apply normalize_version_date.
Qed.

Lemma normalize_version_idempotent_witness :
  normalize_version (normalize_version "1.0.0") = normalize_version "1.0.0"
  /\ normalize_version "2.2.5" = "v2.2.5"
  /\ (is_valid_version "7.1.0" = true /\ Py.startswith_v "7.1.0" = false)
  /\ normalize_version "2024-04-29" = "2024-04-29".
Proof.
  destruct normalize_version_idempotent as (H1 & H2 & H3 & H4).
  split; [exact (H1 "1.0.0" eq_refl)|].
  split; [exact (H2 "2.2.5" eq_refl eq_refl)|].
  split; [apply (H3 "7.1.0"); vm_compute; discriminate|].
  exact (H4 "2024-04-29" eq_refl).
Defined.

(** C5.  For a valid date [target] and a list [l] of candidates that is not
    empty, [find_closest_date] returns a candidate: [target] itself when it
    is in [l]; otherwise, with the candidates sorted ascending as strings,
    the first one when [target] is below it, the last one when [target] is
    above it, and the one just before the insertion point when [target]
    falls between two neighbours (the earlier of the two, never the
    later). *)
Theorem find_closest_date_floor (target : string) (l : list string) :
  is_valid_date target = true -> l <> [] ->
  (exists d, find_closest_date target l = Ok d /\ In d l)
  /\ (In target l -> find_closest_date target l = Ok target)
  /\ (~ In target l ->
      (forall first rest,
          Py.sorted l = first :: rest -> StrOrder.lt target first ->
          find_closest_date target l = Ok first)
      /\ (forall init last,
             Py.sorted l = (init ++ [last])%list -> StrOrder.lt last target ->
             find_closest_date target l = Ok last)
      /\ (forall before a b after,
             Py.sorted l = (before ++ a :: b :: after)%list ->
             StrOrder.lt a target -> StrOrder.lt target b ->
             find_closest_date target l = Ok a
             /\ Py.bisect_left (Py.sorted l) target = S (List.length before))).
Proof.
  intros Hv Hl.
  split; [now apply find_closest_date_In|].
  split; [now apply find_closest_date_exact|].
  intros Hin. rewrite (find_closest_date_search _ _ Hv Hin). cbv zeta.
  pose proof (bisect_left_spec (Py.sorted l) target (sorted_sorted l))
    as (Hr & Hlo & Hhi). cbv zeta in Hr, Hlo, Hhi.
  set (s := Py.sorted l) in *. set (r := Py.bisect_left s target) in *.
  split; [|split].
  - intros first rest E Hlt.
    destruct (Nat.eqb_spec r 0) as [_|Hr0]; [now rewrite E|].
    exfalso. apply (str_lt_asym _ _ Hlt).
    specialize (Hlo 0 ltac:(lia)). now rewrite E in Hlo.
  - intros init last E Hlt.
    assert (Hlen : List.length s = S (List.length init))
      by (rewrite E, length_app; simpl; lia).
    assert (r = List.length s).
    { destruct (Nat.eq_dec r (List.length s)) as [|Hne]; [assumption|].
      exfalso. apply (Hhi (List.length init)); [lia | lia |].
      now rewrite E, nth_middle. }
    destruct (Nat.eqb_spec r 0); [lia|].
    destruct (Nat.eqb_spec r (List.length s)); [|lia].
    rewrite E. apply getitem_last_app.
  - intros before a b after E Ha Hb.
    assert (Hlen : List.length s = S (S (List.length before + List.length after)))
      by (rewrite E, length_app; simpl; lia).
    assert (Er : r = S (List.length before)).
    { destruct (Nat.lt_trichotomy r (S (List.length before))) as [Hc|[Hc|Hc]];
        [|assumption|]; exfalso.
      - apply (Hhi (List.length before)); [lia | lia |].
        now rewrite E, nth_middle.
      - apply (str_lt_asym _ _ Hb). specialize (Hlo (S (List.length before)) Hc).
        rewrite E in Hlo.
        replace (before ++ a :: b :: after)%list
          with ((before ++ [a]) ++ b :: after)%list in Hlo
          by (now rewrite <- app_assoc).
        replace (S (List.length before)) with (List.length (before ++ [a])%list)
          in Hlo by (rewrite length_app; simpl; lia).
        now rewrite nth_middle in Hlo. }
    split; [|exact Er].
    rewrite Er.
    destruct (Nat.eqb_spec (S (List.length before)) 0); [lia|].
    destruct (Nat.eqb_spec (S (List.length before)) (List.length s)); [lia|].
    replace (S (List.length before) - 1) with (List.length before) by lia.
    unfold Py.getitem. now rewrite E, nth_error_middle.
Qed.

Lemma find_closest_date_floor_witness :
  find_closest_date "2024-04-17" dates3 = Ok "2024-04-15"
  /\ Py.bisect_left (Py.sorted dates3) "2024-04-17" = 2.
Proof.
  destruct (find_closest_date_floor "2024-04-17" dates3 eq_refl
              ltac:(discriminate)) as (_ & _ & H).
  assert (Hnot : ~ In "2024-04-17" dates3).
  { intros [H0|[H0|[H0|[]]]]; discriminate H0. }
  destruct (H Hnot) as (_ & _ & H3).
  exact (H3 ["2024-04-10"] "2024-04-15" "2024-04-20" [] eq_refl eq_refl eq_refl).
Defined.

(** C6.  With no candidates [find_closest_version] raises its own
    "No available versions found"; [find_closest_date] reads element 0 of
    the empty list and raises [IndexError]. *)
Theorem find_closest_date_no_candidates :
  find_closest_version "v1.0.0" []
  = Raise (ValueError "No available versions found")
  /\ find_closest_date "2024-04-29" []
     = Raise (IndexError "list index out of range").
Proof. split; reflexivity. Qed.

(** ** Precedence *)

Lemma versionpkg_le_refl (p : versionpkg.Version) : versionpkg.le p p = true.
Proof.
  destruct p as [[a b] c]. unfold versionpkg.le.
  now rewrite !N.eqb_refl, N.leb_refl, !orb_true_r.
Qed.

Lemma versionpkg_le_trans (p q r : versionpkg.Version) :
  versionpkg.le p q = true -> versionpkg.le q r = true ->
  versionpkg.le p r = true.
Proof.
  destruct p as [[p1 p2] p3], q as [[q1 q2] q3], r as [[r1 r2] r3].
  unfold versionpkg.le.
  rewrite !orb_true_iff, !andb_true_iff, !orb_true_iff, !andb_true_iff,
    !N.ltb_lt, !N.eqb_eq, !N.leb_le. lia.
Qed.

Lemma versionpkg_le_total (p q : versionpkg.Version) :
  versionpkg.le p q = true \/ versionpkg.le q p = true.
Proof.
  destruct p as [[p1 p2] p3], q as [[q1 q2] q3]. unfold versionpkg.le.
  rewrite !orb_true_iff, !andb_true_iff, !orb_true_iff, !andb_true_iff,
    !N.ltb_lt, !N.eqb_eq, !N.leb_le. lia.
Qed.

Lemma precedence_normalize_version (v : string) :
  precedence (normalize_version v) = precedence v.
Proof. unfold precedence. now rewrite normalize_version_idem. Qed.

Lemma precedence_valid (v : string) :
  is_valid_version v = true -> exists p, precedence v = Some p.
Proof.
  intros H. unfold precedence.
  apply parse_valid. now apply normalize_version_valid.
Qed.

Lemma not_exceeding_none (target : string) (t : versionpkg.Version)
    (l : list string) :
  versionpkg.parse target = Some t ->
  Forall (fun v => exists p, versionpkg.parse v = Some p
                             /\ versionpkg.le p t = false) l ->
  not_exceeding target l = Some [].
Proof.
  intros Ht. induction 1 as [|v l (p & Hp & Hle) _ IH]; simpl; [reflexivity|].
  now rewrite Hp, Ht, IH, Hle.
Qed.

(** C1.  [find_closest_version] filters the candidates by precedence and
    then takes [max] of the strings that are left: for the target v1.10.0
    over v1.9.0 and v1.10.0 it returns v1.9.0, although v1.10.0 is the
    greatest candidate that does not exceed the target. *)
Theorem find_closest_version_string_max :
  find_closest_version "v1.10.0" ["v1.9.0"; "v1.10.0"] = Ok "v1.9.0"
  /\ floor_of "v1.10.0" "v1.10.0" ["v1.9.0"; "v1.10.0"]
  /\ ~ floor_of "v1.10.0" "v1.9.0" ["v1.9.0"; "v1.10.0"].
Proof.
  split; [reflexivity|]. split.
  - split; [simpl; auto|]. split; [reflexivity|].
    intros w [<-|[<-|[]]] _; reflexivity.
  - intros (_ & _ & H).
    specialize (H "v1.10.0" (or_intror (or_introl eq_refl)) eq_refl).
    discriminate H.
Qed.


(** C4.  When every candidate strictly exceeds the target,
    [find_closest_version] returns the normal form of the first candidate of
    the list, which is the smallest candidate when the list comes in
    ascending precedence. *)
Theorem find_closest_version_fallback (target : string) (l : list string) :
  is_valid_version target = true -> l <> [] ->
  (forall w, In w l -> exceeds target w) ->
  find_closest_version target l = Ok (normalize_version (hd EmptyString l))
  /\ (ascending l -> smallest_of (normalize_version (hd EmptyString l)) l).
Proof.
  intros Hv Hl Hex. destruct l as [|h l]; [congruence|]. cbn [hd]. split.
  - destruct (precedence_valid _ Hv) as (t & Ht).
    unfold find_closest_version. rewrite Hv. cbn [negb].
    unfold precedence in Ht.
    rewrite (not_exceeding_none _ t (map normalize_version (h :: l)) Ht).
    + reflexivity.
    + rewrite Forall_forall. intros v Hin.
      apply in_map_iff in Hin as (w & <- & Hw).
      specialize (Hex w Hw). unfold exceeds, precedence in Hex.
      rewrite Ht in Hex.
      destruct (versionpkg.parse (normalize_version w)) as [q|]; [|tauto].
      exists q. split; [reflexivity|].
      unfold versionpkg.lt in Hex. now destruct (versionpkg.le q t).
  - intros Hasc. split; [simpl; auto|].
    assert (Hh : prec_le h h).
    { specialize (Hex h (or_introl eq_refl)). unfold exceeds in Hex.
      unfold prec_le. destruct (precedence target); [|tauto].
      destruct (precedence h); [|tauto]. apply versionpkg_le_refl. }
    inversion Hasc as [|? ? _ Hfa]; subst. rewrite Forall_forall in Hfa.
    intros w [<-|Hw]; unfold prec_le; rewrite precedence_normalize_version.
    + exact Hh.
    + exact (Hfa w Hw).
Qed.

Lemma find_closest_version_fallback_witness :
  find_closest_version "v1.0.0" ["v1.1.0"; "v1.2.0"] = Ok "v1.1.0"
  /\ smallest_of "v1.1.0" ["v1.1.0"; "v1.2.0"].
Proof.
  assert (Hex : forall w, In w ["v1.1.0"; "v1.2.0"] -> exceeds "v1.0.0" w).
  { intros w [<-|[<-|[]]]; reflexivity. }
  assert (Hasc : ascending ["v1.1.0"; "v1.2.0"]).
  { repeat constructor. }
  destruct (find_closest_version_fallback "v1.0.0" ["v1.1.0"; "v1.2.0"]
              eq_refl ltac:(discriminate) Hex) as (H1 & H2).
  split; [exact H1 | exact (H2 Hasc)].
Defined.

(** C4, as stated, fails on a list that is not in ascending order: the
    first candidate is returned, not the smallest. *)
Lemma find_closest_version_fallback_unsorted :
  is_valid_version "v1.0.0" = true
  /\ (forall w, In w ["v1.2.0"; "v1.1.0"] -> exceeds "v1.0.0" w)
  /\ find_closest_version "v1.0.0" ["v1.2.0"; "v1.1.0"] = Ok "v1.2.0"
  /\ smallest_of "v1.1.0" ["v1.2.0"; "v1.1.0"]
  /\ ~ smallest_of "v1.2.0" ["v1.2.0"; "v1.1.0"].
Proof.
  split; [reflexivity|].
  split; [intros w [<-|[<-|[]]]; reflexivity|].
  split; [reflexivity|]. split.
  - split; [simpl; auto|]. intros w [<-|[<-|[]]]; reflexivity.
  - intros (_ & H). specialize (H "v1.1.0" (or_intror (or_introl eq_refl))).
    discriminate H.
Qed.

(* ================================================================== *)
(** * The router *)
(* ================================================================== *)

(** ** Dictionaries *)

Section Dict.
Context {V : Type}.

Lemma dict_get_In (d : list (string * V)) (k : string) (v : V) :
  dict_get d k = Some v -> In (k, v) d.
Proof.
  induction d as [|[k' v'] d IH]; simpl; [discriminate|].
  destruct (String.eqb_spec k k') as [->|_]; [intros [= ->]; auto | auto].
Qed.

Lemma dict_get_None (d : list (string * V)) (k : string) :
  dict_get d k = None <-> ~ In k (keys d).
Proof.
  induction d as [|[k' v'] d IH]; simpl; [tauto|].
  destruct (String.eqb_spec k k') as [->|Hne].
  - split; [discriminate | tauto].
  - rewrite IH. split; [intros H [E|H']; [congruence | tauto] | tauto].
Qed.

Lemma dict_get_key (d : list (string * V)) (k : string) :
  In k (keys d) -> exists v, dict_get d k = Some v.
Proof.
  intros H. destruct (dict_get d k) eqn:E; [eauto|].
  now apply dict_get_None in E.
Qed.

Lemma dict_get_NoDup (d : list (string * V)) (k : string) (v : V) :
  NoDup (keys d) -> In (k, v) d -> dict_get d k = Some v.
Proof.
  induction d as [|[k' v'] d IH]; simpl; [tauto|].
  intros Hnd [E|Hin]; inversion Hnd as [|? ? Hk Hnd']; subst.
  - injection E as -> ->. now rewrite String.eqb_refl.
  - destruct (String.eqb_spec k k') as [->|_]; [|auto].
    exfalso. apply Hk. apply (in_map fst) in Hin. exact Hin.
Qed.

Lemma keys_app (d d' : list (string * V)) : keys (d ++ d') = (keys d ++ keys d')%list.
Proof. apply map_app. Qed.

Lemma keys_filter (p : string -> bool) (d : list (string * V)) :
  keys (filter (fun kv => p (fst kv)) d) = filter p (keys d).
Proof.
  induction d as [|[k v] d IH]; simpl; [reflexivity|].
  destruct (p k); simpl; now rewrite IH.
Qed.

Lemma keys_sorted_by (d : list (string * V)) :
  keys (Py.sorted_by fst d) = Py.sorted (keys d).
Proof. apply sorted_by_keys. Qed.
End Dict.

(** ** [group_and_sort_routes] *)

Lemma group_routes_ok (items dates versions : list (string * loc)) :
  Forall key_ok (keys items) ->
  group_routes items dates versions
  = Ok ((dates ++ filter (fun kv => is_valid_date (fst kv)) items)%list,
        (versions ++ filter (fun kv => is_valid_version (fst kv)) items)%list).
Proof.
  revert dates versions.
  induction items as [|[k v] items IH]; intros dates versions H; simpl.
  - now rewrite !app_nil_r.
  - inversion H as [|? ? Hk Hrest]; subst. cbn [fst].
    destruct (is_valid_date k) eqn:Ed.
    + rewrite (is_valid_date_not_version k Ed), (IH _ _ Hrest).
      now rewrite <- app_assoc.
    + destruct Hk as [Hk|(Hk & _)]; [simpl in Hk; congruence|].
      simpl in Hk. rewrite Hk, (IH _ _ Hrest). now rewrite <- app_assoc.
Qed.

Lemma group_routes_raises (items dates versions : list (string * loc)) e :
  group_routes items dates versions = Raise e -> exists msg, e = ValueError msg.
Proof.
  revert dates versions.
  induction items as [|[k v] items IH]; intros dates versions; simpl;
    [discriminate|].
  destruct (is_valid_date k); [apply IH|].
  destruct (is_valid_version k); [apply IH|].
  intros [= <-]. eauto.
Qed.

Lemma group_and_sort_routes_body_ok (self : VersionAwareAPIRouter) :
  Forall key_ok (keys (versioned_routers self)) ->
  group_and_sort_routes_body self
  = Ok {| sorted_date_routes :=
            Py.sorted_by fst
              (filter (fun kv => is_valid_date (fst kv)) (versioned_routers self));
          sorted_version_routes :=
            Py.sorted_by fst
              (filter (fun kv => is_valid_version (fst kv))
                 (versioned_routers self)) |}.
Proof.
  intros H. unfold group_and_sort_routes_body.
  now rewrite (group_routes_ok _ [] [] H).
Qed.

Lemma group_and_sort_routes_body_raises (self : VersionAwareAPIRouter) e :
  group_and_sort_routes_body self = Raise e -> exists msg, e = ValueError msg.
Proof.
  unfold group_and_sort_routes_body.
  destruct (group_routes _ _ _) as [[d v]|e'] eqn:E; [discriminate|].
  intros [= <-]. eapply group_routes_raises; eauto.
Qed.

(** The index that the body computes is the grouping of the current keys,
    each partition sorted as strings. *)
Lemma group_and_sort_routes_body_reflects (self : VersionAwareAPIRouter) g :
  Forall key_ok (keys (versioned_routers self)) ->
  group_and_sort_routes_body self = Ok g ->
  reflects g self /\ index_ok g self.
Proof.
  intros H. rewrite (group_and_sort_routes_body_ok self H). intros [= <-].
  split; [split|]; cbn [sorted_date_routes sorted_version_routes].
  - unfold date_keys. now rewrite keys_sorted_by, keys_filter.
  - unfold version_keys. now rewrite keys_sorted_by, keys_filter.
  - repeat split; cbn [sorted_date_routes sorted_version_routes].
    + intros kv Hin. apply sorted_by_In, filter_In in Hin. tauto.
    + intros kv Hin. apply sorted_by_In, filter_In in Hin. tauto.
    + rewrite Forall_forall. intros kv Hin.
      apply sorted_by_In, filter_In in Hin. tauto.
    + rewrite Forall_forall. intros kv Hin.
      apply sorted_by_In, filter_In in Hin. tauto.
Qed.

(** The method, by cases on the memo. *)
Lemma group_and_sort_routes_hit (self : VersionAwareAPIRouter) g :
  lru self = Some g -> group_and_sort_routes self = (Ok g, self).
Proof. unfold group_and_sort_routes. now intros ->. Qed.

Lemma group_and_sort_routes_miss (self : VersionAwareAPIRouter) g :
  lru self = None -> group_and_sort_routes_body self = Ok g ->
  group_and_sort_routes self = (Ok g, with_lru (Some g) self).
Proof. unfold group_and_sort_routes. now intros -> ->. Qed.

(** In a state that satisfies the invariant the method returns an index,
    leaves the table alone and keeps the invariant. *)
Lemma group_and_sort_routes_inv (self : VersionAwareAPIRouter) :
  router_inv self ->
  exists g self',
    group_and_sort_routes self = (Ok g, self')
    /\ versioned_routers self' = versioned_routers self
    /\ unversioned_routers self' = unversioned_routers self
    /\ lru self' = Some g
    /\ index_ok g self
    /\ (lru self = None -> reflects g self)
    /\ router_inv self'.
Proof.
  intros Hinv. destruct (lru self) as [g|] eqn:El.
  - exists g, self. rewrite (group_and_sort_routes_hit _ _ El).
    split; [reflexivity|]. split; [reflexivity|]. split; [reflexivity|].
    split; [exact El|]. split; [exact (inv_lru _ Hinv g El)|].
    split; [congruence | exact Hinv].
  - destruct (group_and_sort_routes_body self) as [g|e] eqn:Eb.
    2:{ rewrite (group_and_sort_routes_body_ok self (inv_keys_ok _ Hinv)) in Eb.
        discriminate. }
    destruct (group_and_sort_routes_body_reflects self g
                (inv_keys_ok _ Hinv) Eb) as (Hrefl & Hok).
    exists g, (with_lru (Some g) self).
    rewrite (group_and_sort_routes_miss _ _ El Eb).
    split; [reflexivity|]. split; [reflexivity|]. split; [reflexivity|].
    split; [reflexivity|]. split; [exact Hok|]. split; [intros _; exact Hrefl|].
    constructor; [apply Hinv | apply Hinv |].
    intros g' [= <-]. exact Hok.
Qed.

(** ** [_pick_version] and [_get_routes_for_version] *)

(** The method, step by step. *)
Lemma _pick_version_eq (h : string) (self : VersionAwareAPIRouter) :
  _pick_version h self =
    match group_and_sort_routes self with
    | (Raise e, s1) => (Raise e, s1)
    | (Ok g, s1) =>
        match (if is_valid_date h
               then find_closest_date h (keys (sorted_date_routes g))
               else find_closest_version h (keys (sorted_version_routes g)))
        with
        | Raise e => (Raise e, s1)
        | Ok closest =>
            let s2 := with_requested_version
                        (set_context_var (requested_version s1) h) s1 in
            let s3 := with_returned_version
                        (set_context_var (returned_version s2) closest) s2 in
            (dict_getitem (versioned_routers s3) closest, s3)
        end
    end.
Proof.
  unfold _pick_version, bind, lift, get, put.
  destruct (is_valid_date h);
    destruct (group_and_sort_routes self) as [[g|e] s1]; reflexivity.
Qed.

Lemma _get_routes_for_version_empty (self : VersionAwareAPIRouter) :
  _get_routes_for_version "" self = (Ok (unversioned_routers self), self).
Proof. reflexivity. Qed.

Lemma _get_routes_for_version_eq (h : string) (self : VersionAwareAPIRouter) :
  h <> "" ->
  _get_routes_for_version h self =
    match _pick_version h self with
    | (Raise e, s1) => (Raise e, s1)
    | (Ok default, s1) =>
        (Ok (match dict_get (versioned_routers s1) h with
             | Some l => l
             | None => default
             end), s1)
    end.
Proof.
  intros Hh. unfold _get_routes_for_version.
  destruct (String.eqb_spec h ""); [congruence|].
  unfold bind, get, ret. destruct (_pick_version h self) as [[d|e] s1];
    reflexivity.
Qed.

(** The resolver that [_pick_version] runs returns a key of the partition it
    was given, or raises [ValueError] or [IndexError]. *)
Lemma resolver_outcome (h : string) (g : GroupedIndex)
    (self : VersionAwareAPIRouter) :
  router_inv self -> index_ok g self ->
  let r := if is_valid_date h
           then find_closest_date h (keys (sorted_date_routes g))
           else find_closest_version h (keys (sorted_version_routes g)) in
  (exists c, r = Ok c /\ In c (keys (partition_for h g))
             /\ In c (keys (versioned_routers self)))
  \/ (exists msg, r = Raise (ValueError msg))
  \/ (exists msg, r = Raise (IndexError msg)).
Proof.
  intros Hinv (Hd & Hv & Hfd & Hfv). cbv zeta. unfold partition_for.
  destruct (is_valid_date h).
  - destruct (find_closest_date_outcome h (keys (sorted_date_routes g)))
      as [(d & E & Hin)|H]; [|now right].
    left. exists d. split; [exact E|]. split; [exact Hin|].
    apply in_map_iff in Hin as ([k l] & <- & Hin). apply in_map. now apply Hd.
  - destruct (find_closest_version_outcome h (keys (sorted_version_routes g)))
      as [(v & E & Hin)|H]; [|now (right; left)].
    left. exists v. split; [exact E|].
    apply in_map_iff in Hin as (k & <- & Hin).
    assert (Hk : normalize_version k = k).
    { apply in_map_iff in Hin as ([k' l] & <- & Hin). cbn [fst].
      rewrite Forall_forall in Hfv. specialize (Hfv _ Hin). cbn [fst] in Hfv.
      pose proof (inv_keys_ok _ Hinv) as Hok. rewrite Forall_forall in Hok.
      specialize (Hok k' (in_map fst _ _ (Hv _ Hin))).
      destruct Hok as [Hdate|(_ & Hp)].
      - rewrite (is_valid_date_not_version _ Hdate) in Hfv. discriminate.
      - unfold normalize_version. now rewrite Hp, andb_false_r. }
    rewrite Hk. split; [exact Hin|].
    apply in_map_iff in Hin as ([k' l] & <- & Hin). apply in_map. now apply Hv.
Qed.

(** What [_pick_version] does in a state that satisfies the invariant. *)
Lemma _pick_version_inv (h : string) (self : VersionAwareAPIRouter) :
  router_inv self ->
  exists g s1,
    group_and_sort_routes self = (Ok g, s1)
    /\ ((exists c l self',
            _pick_version h self = (Ok l, self')
            /\ In c (keys (partition_for h g))
            /\ In (c, l) (versioned_routers self)
            /\ versioned_routers self' = versioned_routers self
            /\ unversioned_routers self' = unversioned_routers self
            /\ lru self' = Some g)
        \/ ((exists msg, _pick_version h self = (Raise (ValueError msg), s1))
            \/ (exists msg, _pick_version h self = (Raise (IndexError msg), s1)))).
Proof.
  intros Hinv.
  destruct (group_and_sort_routes_inv self Hinv)
    as (g & s1 & Eg & Et & Eu & El & Hok & _ & Hinv1).
  exists g, s1. split; [exact Eg|].
  rewrite _pick_version_eq, Eg.
  destruct (resolver_outcome h g self Hinv Hok)
    as [(c & -> & Hp & Hc)|[(msg & ->)|(msg & ->)]];
    [|right; left; eauto|right; right; eauto].
  left. cbv zeta.
  destruct (dict_get_key _ _ Hc) as (l & Hl).
  exists c, l. eexists. split.
  - unfold dict_getitem. cbn [versioned_routers with_returned_version
                               with_requested_version].
    rewrite Et, Hl. reflexivity.
  - split; [exact Hp|]. split; [now apply dict_get_In|].
    cbn [versioned_routers unversioned_routers lru with_returned_version
         with_requested_version]. auto.
Qed.

(** ** Registration *)

Lemma dict_get_app_new {V : Type} (d : list (string * V)) (k : string) (v : V) :
  dict_get d k = None -> dict_get (d ++ [(k, v)]) k = Some v.
Proof.
  induction d as [|[k' v'] d IH]; simpl.
  - now rewrite String.eqb_refl.
  - destruct (String.eqb k k'); [discriminate | exact IH].
Qed.

Lemma table_grows_refl (k : string) (self : VersionAwareAPIRouter) :
  table_grows k self self.
Proof. split; auto. Qed.

Lemma versioned_routers_setdefault_grows (k : string)
    (self : VersionAwareAPIRouter) :
  exists l self',
    versioned_routers_setdefault k self = (Ok l, self')
    /\ table_grows k self self'
    /\ dict_get (versioned_routers self') k = Some l.
Proof.
  unfold versioned_routers_setdefault, bind, get, put, ret, alloc.
  destruct (dict_get (versioned_routers self) k) as [l|] eqn:E.
  - exists l, self. split; [reflexivity|]. split; [apply table_grows_refl | exact E].
  - eexists. eexists. split; [reflexivity|].
    split; [split; [reflexivity|]|].
    + right. split; [exact E|]. eexists. reflexivity.
    + cbn [versioned_routers with_versioned_routers with_heap].
      now apply dict_get_app_new.
Qed.

(** The loop of [include_router] over the added routes. *)
Lemma register_routes_grows (k : string) (added : list BaseRoute)
    (self : VersionAwareAPIRouter) :
  exists self',
    for_each (fun route => l <- versioned_routers_setdefault k ;; extend l [route])
      added self = (Ok tt, self')
    /\ table_grows k self self'.
Proof.
  revert self. induction added as [|route added IH]; intros self.
  - exists self. split; [reflexivity | apply table_grows_refl].
  - destruct (versioned_routers_setdefault_grows k self)
      as (l & s1 & E1 & (Hl1 & Ht1) & Hget).
    set (s2 := with_heap (update_nth l (fun old => (old ++ [route])%list)
                            (heap s1)) s1).
    destruct (IH s2) as (s3 & E3 & (Hl3 & Ht3)).
    exists s3. split.
    + cbn [for_each]. unfold bind at 1. unfold bind at 1. rewrite E1.
      unfold extend at 1. fold s2. exact E3.
    + split; [now rewrite Hl3|].
      destruct Ht3 as [Ht3|(Hnone & _)].
      * rewrite Ht3. exact Ht1.
      * cbn [versioned_routers s2 with_heap] in Hnone. congruence.
Qed.

Lemma validate_version_ok (version : string) :
  validate_version version = Ok tt -> key_ok (normalize_version version).
Proof.
  unfold validate_version.
  destruct (String.eqb version ""); [discriminate|].
  destruct (is_valid_version version) eqn:Ev.
  - intros _. right. now apply normalize_version_valid.
  - cbn [orb]. destruct (is_valid_date version) eqn:Ed; [|discriminate].
    intros _. left. now rewrite (normalize_version_date _ Ed).
Qed.

(** What [include_router] does to the table and the memo. *)
Lemma include_router_run (rr appended : list BaseRoute)
    (version : option string) (self : VersionAwareAPIRouter) :
  exists r self',
    include_router rr appended version self = (r, self')
    /\ exists k,
         table_grows k self self'
         /\ (versioned_routers self' <> versioned_routers self ->
             key_ok k /\ exists v, version = Some v /\ k = normalize_version v).
Proof.
  destruct version as [version|]; cbn [include_router].
  - unfold bind at 1, lift at 1.
    destruct (validate_version version) as [[]|e] eqn:Ev.
    + unfold bind at 1, get at 1. unfold bind at 1, extend at 1.
      unfold bind at 1, get at 1.
      match goal with
      | |- context [for_each ?f ?l ?s] =>
          destruct (register_routes_grows (normalize_version version) l s)
            as (s' & E & Hg)
      end.
      exists (Ok tt), s'. split; [exact E|].
      exists (normalize_version version). split.
      * exact Hg.
      * intros _. split; [now apply validate_version_ok | eauto].
    + exists (Raise e), self. split; [reflexivity|].
      exists "". split; [apply table_grows_refl | congruence].
  - eexists. eexists. split; [reflexivity|].
    exists "". split; [split; [reflexivity | left; reflexivity]|].
    cbn. congruence.
Qed.

Lemma include_router_grows (rr appended : list BaseRoute)
    (version : option string) (self : VersionAwareAPIRouter) :
  exists k,
    table_grows k self (exec (include_router rr appended version) self)
    /\ (versioned_routers (exec (include_router rr appended version) self)
        <> versioned_routers self ->
        key_ok k /\ exists v, version = Some v /\ k = normalize_version v).
Proof.
  destruct (include_router_run rr appended version self) as (r & s' & E & H).
  unfold exec. now rewrite E.
Qed.

Lemma table_grows_inv (k : string) (self self' : VersionAwareAPIRouter) :
  router_inv self -> table_grows k self self' ->
  (versioned_routers self' <> versioned_routers self -> key_ok k) ->
  router_inv self'.
Proof.
  intros [Hok Hnd Hlru] (El & [Et|(Hnone & l & Et)]) Hk.
  - constructor; rewrite ?Et, ?El; auto.
    intros g Hg. destruct (Hlru g Hg) as (H1 & H2 & H3 & H4).
    unfold index_ok. now rewrite Et.
  - assert (Hkey : key_ok k).
    { apply Hk. rewrite Et. intros H.
      apply (f_equal (@List.length _)) in H. rewrite length_app in H.
      simpl in H. lia. }
    constructor; rewrite ?Et, ?El, ?keys_app.
    + apply Forall_app. split; [exact Hok|].
      constructor; [exact Hkey | constructor].
    + apply NoDup_app; [exact Hnd | |].
      { constructor; [simpl; tauto | constructor]. }
      intros x Hx [<-|[]]. now apply dict_get_None in Hnone.
    + intros g Hg. destruct (Hlru g Hg) as (H1 & H2 & H3 & H4).
      unfold index_ok. rewrite Et.
      repeat split; try assumption; intros kv Hin; apply in_or_app; left; auto.
Qed.

(** ** Requests *)

Lemma with_routes_inv (r : loc) (self : VersionAwareAPIRouter) :
  router_inv self -> router_inv (with_routes r self).
Proof. intros [H1 H2 H3]. constructor; [exact H1 | exact H2 | exact H3]. Qed.

Lemma with_context_inv (rq rt : option (option string))
    (self : VersionAwareAPIRouter) :
  router_inv self ->
  router_inv (with_returned_version rt (with_requested_version rq self)).
Proof. intros [H1 H2 H3]. constructor; [exact H1 | exact H2 | exact H3]. Qed.

(** What [_get_routes_for_version] does to the table and the memo. *)
Lemma _get_routes_for_version_inv (h : string) (self : VersionAwareAPIRouter) :
  router_inv self ->
  exists r self',
    _get_routes_for_version h self = (r, self')
    /\ router_inv self'
    /\ versioned_routers self' = versioned_routers self
    /\ (forall g, lru self = Some g -> lru self' = Some g)
    /\ (lru self' = lru self
        \/ lru self' = lru (exec group_and_sort_routes self)).
Proof.
  intros Hinv. destruct (String.eqb_spec h "") as [->|Hne].
  - rewrite _get_routes_for_version_empty. eexists. eexists.
    split; [reflexivity|]. auto.
  - rewrite (_get_routes_for_version_eq h self Hne), _pick_version_eq.
    destruct (group_and_sort_routes_inv self Hinv)
      as (g0 & s0 & Eg0 & Et0 & _ & El0 & Hok0 & _ & Hinv0).
    unfold exec. rewrite Eg0. cbn [snd].
    assert (Hhit : forall g, lru self = Some g -> lru s0 = Some g).
    { intros g Hg. rewrite (group_and_sort_routes_hit _ _ Hg) in Eg0.
      now injection Eg0 as <- <-. }
    destruct (if is_valid_date h
              then find_closest_date h (keys (sorted_date_routes g0))
              else find_closest_version h (keys (sorted_version_routes g0)))
      as [c|e].
    + cbv zeta.
      set (s3 := with_returned_version _ (with_requested_version _ s0)).
      assert (Hinv3 : router_inv s3) by now apply with_context_inv.
      destruct (dict_getitem (versioned_routers s3) c) as [l|e];
        eexists; eexists; (split; [reflexivity|]);
        (split; [exact Hinv3|]); (split; [exact Et0|]);
        (split; [exact Hhit | right; reflexivity]).
    + eexists. eexists. split; [reflexivity|].
      split; [exact Hinv0|]. split; [exact Et0|].
      split; [exact Hhit | right; reflexivity].
Qed.

Lemma call_eq (h : string) (self : VersionAwareAPIRouter) :
  __call__ h self =
    match _get_routes_for_version h self with
    | (Ok l, s) => (Ok tt, with_routes l s)
    | (Raise e, s) => (Raise e, s)
    end.
Proof.
  unfold __call__, bind, get, put.
  destruct (_get_routes_for_version h self) as [[l|e] s]; reflexivity.
Qed.

(** What [__call__] does to the table and the memo. *)
Lemma call_inv (h : string) (self : VersionAwareAPIRouter) :
  router_inv self ->
  router_inv (exec (__call__ h) self)
  /\ versioned_routers (exec (__call__ h) self) = versioned_routers self
  /\ (forall g, lru self = Some g -> lru (exec (__call__ h) self) = Some g).
Proof.
  intros Hinv. unfold exec. rewrite call_eq.
  destruct (_get_routes_for_version_inv h self Hinv)
    as (r & s' & -> & Hinv' & Et & Hhit & _).
  destruct r as [l|e]; cbn [snd].
  - split; [now apply with_routes_inv|]. split; [exact Et | exact Hhit].
  - split; [exact Hinv'|]. split; [exact Et | exact Hhit].
Qed.

Lemma call_lru (h : string) (self : VersionAwareAPIRouter) :
  router_inv self ->
  lru (exec (__call__ h) self) = lru self
  \/ lru (exec (__call__ h) self) = lru (exec group_and_sort_routes self).
Proof.
  intros Hinv.
  assert (E : lru (exec (__call__ h) self)
              = lru (exec (_get_routes_for_version h) self)).
  { unfold exec. rewrite call_eq.
    now destruct (_get_routes_for_version h self) as [[l|e] s]. }
  rewrite E. unfold exec at 1 2.
  destruct (_get_routes_for_version_inv h self Hinv)
    as (r & s' & -> & _ & _ & _ & H).
  exact H.
Qed.

(** ** Runs *)

Lemma init_inv (requested returned : option (option string)) :
  router_inv (__init__ requested returned).
Proof. constructor; cbn; [constructor | constructor | discriminate]. Qed.

Lemma run_action_inv (a : action) (self : VersionAwareAPIRouter) :
  router_inv self -> router_inv (run_action a self).
Proof.
  intros Hinv. destruct a as [rr appended version|h|]; cbn [run_action].
  - destruct (include_router_grows rr appended version self) as (k & Hg & Hk).
    apply (table_grows_inv k self _ Hinv Hg). intros H. now apply Hk.
  - now apply call_inv.
  - destruct (group_and_sort_routes_inv self Hinv)
      as (g & s & E & _ & _ & _ & _ & _ & H).
    unfold exec. now rewrite E.
Qed.

Lemma run_inv (l : list action) (self : VersionAwareAPIRouter) :
  router_inv self -> router_inv (run l self).
Proof.
  revert self. induction l as [|a l IH]; intros self H; [exact H|].
  apply IH, run_action_inv, H.
Qed.

Lemma reachable_inv (self : VersionAwareAPIRouter) :
  reachable self -> router_inv self.
Proof. intros (rq & rt & l & ->). apply run_inv, init_inv. Qed.

Lemma reachable_run (l : list action) (self : VersionAwareAPIRouter) :
  reachable self -> reachable (run l self).
Proof.
  intros (rq & rt & l0 & ->). exists rq, rt, (l0 ++ l)%list.
  unfold run. now rewrite fold_left_app.
Qed.

(** Nothing replaces a memoised index. *)
Lemma run_action_lru (a : action) (self : VersionAwareAPIRouter) g :
  router_inv self -> lru self = Some g -> lru (run_action a self) = Some g.
Proof.
  intros Hinv Hg. destruct a as [rr appended version|h|]; cbn [run_action].
  - destruct (include_router_grows rr appended version self) as (k & (El & _) & _).
    congruence.
  - now apply call_inv.
  - unfold exec. now rewrite (group_and_sort_routes_hit _ _ Hg).
Qed.

Lemma run_lru (l : list action) (self : VersionAwareAPIRouter) g :
  router_inv self -> lru self = Some g -> lru (run l self) = Some g.
Proof.
  revert self. induction l as [|a l IH]; intros self Hinv Hg; [exact Hg|].
  apply IH; [now apply run_action_inv | now apply run_action_lru].
Qed.

(** ** Registration before serving *)

Lemma group_and_sort_routes_body_table (self self' : VersionAwareAPIRouter) :
  versioned_routers self' = versioned_routers self ->
  group_and_sort_routes_body self' = group_and_sort_routes_body self.
Proof. unfold group_and_sort_routes_body. now intros ->. Qed.

Lemma group_and_sort_routes_fresh (self : VersionAwareAPIRouter) :
  index_fresh self -> index_fresh (exec group_and_sort_routes self).
Proof.
  intros Hf. unfold exec, group_and_sort_routes.
  destruct (lru self) as [g|] eqn:El; [exact Hf|].
  destruct (group_and_sort_routes_body self) as [g|e] eqn:Eb; [|exact Hf].
  intros g' [= <-]. exact Eb.
Qed.

Lemma serving_fresh (a : action) (self : VersionAwareAPIRouter) :
  serving a -> router_inv self -> index_fresh self ->
  index_fresh (run_action a self).
Proof.
  intros Ha Hinv Hf. destruct a as [? ? ?|h|]; cbn [run_action]; [destruct Ha| |].
  - destruct (call_inv h self Hinv) as (_ & Et & _).
    intros g Hg. rewrite (group_and_sort_routes_body_table _ _ Et).
    destruct (call_lru h self Hinv) as [El|El]; rewrite El in Hg.
    + now apply Hf.
    + pose proof (group_and_sort_routes_fresh self Hf g Hg) as H.
      rewrite <- H. symmetry. apply group_and_sort_routes_body_table.
      destruct (group_and_sort_routes_inv self Hinv) as (? & ? & E & Et' & _).
      unfold exec. now rewrite E.
  - now apply group_and_sort_routes_fresh.
Qed.

Lemma registering_lru (l : list action) (self : VersionAwareAPIRouter) :
  Forall registering l -> lru (run l self) = lru self.
Proof.
  intros H. revert self. induction H as [|a l Ha _ IH]; intros self;
    [reflexivity|].
  cbn [run fold_left]. fold (run l (run_action a self)). rewrite IH.
  destruct a as [rr appended version|?|]; try destruct Ha. cbn [run_action].
  now destruct (include_router_grows rr appended version self) as (k & (El & _) & _).
Qed.

(** As long as registration comes before serving, the memoised index is
    up to date. *)
Lemma registration_then_serving_fresh (requested returned : option (option string))
    (regs serves : list action) :
  Forall registering regs -> Forall serving serves ->
  index_fresh (run (regs ++ serves) (__init__ requested returned)).
Proof.
  intros Hregs Hserves. unfold run. rewrite fold_left_app.
  fold (run regs (__init__ requested returned)).
  set (s0 := run regs (__init__ requested returned)).
  assert (Hinv0 : router_inv s0) by apply run_inv, init_inv.
  assert (Hf0 : index_fresh s0).
  { intros g Hg. unfold s0 in Hg. rewrite (registering_lru _ _ Hregs) in Hg.
    discriminate Hg. }
  clearbody s0. revert s0 Hinv0 Hf0.
  induction Hserves as [|a l Ha _ IH]; intros s0 Hinv0 Hf0; [exact Hf0|].
  cbn [fold_left]. apply IH; [now apply run_action_inv | now apply serving_fresh].
Qed.

(* ================================================================== *)
(** * Statements about the router *)
(* ================================================================== *)

Lemma app_v1_reachable : reachable app_v1.
Proof. exists None, None, setup_v1. reflexivity. Qed.

(** A state is reachable by the run that is given. *)
Ltac reached_by l := exists None, None, l; reflexivity.

Lemma group_and_sort_routes_raises (self s : VersionAwareAPIRouter) e :
  group_and_sort_routes self = (Raise e, s) -> exists msg, e = ValueError msg.
Proof.
  unfold group_and_sort_routes. destruct (lru self); [discriminate|].
  destruct (group_and_sort_routes_body self) as [g|e'] eqn:E; [discriminate|].
  intros [= <- _]. eapply group_and_sort_routes_body_raises; eauto.
Qed.

(** The partitions of a computed index are in the order of strings. *)
Lemma group_and_sort_routes_body_sorted (self : VersionAwareAPIRouter) g :
  group_and_sort_routes_body self = Ok g ->
  StronglySorted (key_le fst) (sorted_date_routes g)
  /\ StronglySorted (key_le fst) (sorted_version_routes g).
Proof.
  unfold group_and_sort_routes_body.
  destruct (group_routes _ _ _) as [[d v]|]; [|discriminate].
  intros [= <-]. split; apply sorted_by_sorted.
Qed.

(** C3.  [group_and_sort_routes] sorts the version partition with [sorted]
    on the keys, that is, as strings: with the buckets v1.9.0 and v1.10.0
    registered, v1.10.0 comes first, although v1.9.0 precedes it as a
    version. *)
Theorem group_and_sort_routes_string_order :
  exists g,
    outcome group_and_sort_routes app_v1_9_and_v1_10 = Ok g
    /\ keys (sorted_version_routes g) = ["v1.10.0"; "v1.9.0"]
    /\ exceeds "v1.9.0" "v1.10.0".
Proof. eexists. repeat split. Qed.

(** C2.  [group_and_sort_routes] computes the index from the keys of the
    table on its first call for a router and memoises it for that router:
    a first call returns the grouping of the current keys, and every later
    call returns the index of the first call, whatever was registered in
    between. *)
Theorem group_and_sort_routes_memoised (self : VersionAwareAPIRouter) :
  reachable self ->
  (lru self = None ->
   exists g, group_and_sort_routes self = (Ok g, with_lru (Some g) self)
             /\ reflects g self)
  /\ (forall g, outcome group_and_sort_routes self = Ok g ->
      forall actions,
        outcome group_and_sort_routes
          (run actions (exec group_and_sort_routes self)) = Ok g)
  /\ (lru self = None ->
      forall g actions,
        outcome group_and_sort_routes self = Ok g ->
        keys (versioned_routers (run actions (exec group_and_sort_routes self)))
        = keys (versioned_routers self) ->
        reflects g (run actions (exec group_and_sort_routes self))).
Proof.
  intros Hr. pose proof (reachable_inv _ Hr) as Hinv.
  destruct (group_and_sort_routes_inv self Hinv)
    as (g & s & E & _ & _ & El & _ & Hrefl & Hinv').
  split; [|split].
  - intros Hnone. exists g. split; [|now apply Hrefl].
    revert E. unfold group_and_sort_routes. rewrite Hnone.
    destruct (group_and_sort_routes_body self); [|discriminate].
    now intros [= -> <-].
  - intros g' Hg' actions. unfold outcome, exec in *. rewrite E in *.
    cbn [fst snd] in *. injection Hg' as <-.
    now rewrite (group_and_sort_routes_hit _ _ (run_lru actions s g Hinv' El)).
  - intros Hnone g' actions Hg' Hkeys. unfold outcome in Hg'.
    rewrite E in Hg'. injection Hg' as <-.
    destruct (Hrefl Hnone) as (Hd & Hv).
    unfold reflects, date_keys, version_keys. now rewrite Hkeys.
Qed.

Lemma group_and_sort_routes_memoised_witness :
  (exists g, group_and_sort_routes app_v1 = (Ok g, with_lru (Some g) app_v1)
             /\ reflects g app_v1)
  /\ outcome group_and_sort_routes
       (run [Include heroes heroes (Some "2.0.0"); Request "v2.0.0"]
          (exec group_and_sort_routes app_v1))
     = Ok {| sorted_date_routes := [];
             sorted_version_routes := [("v1.0.0", 2)] |}.
Proof.
  assert (R : reachable app_v1) by reached_by setup_v1.
  destruct (group_and_sort_routes_memoised app_v1 R) as (H1 & H2 & _).
  split; [exact (H1 eq_refl)|].
  exact (H2 _ eq_refl [Include heroes heroes (Some "2.0.0"); Request "v2.0.0"]).
Defined.

(** C2, as stated, fails: a bucket registered after the index was computed
    is missing from the index that the next call returns. *)
Lemma group_and_sort_routes_stale :
  reachable app_late_version
  /\ keys (versioned_routers app_v1) = ["v1.0.0"]
  /\ keys (versioned_routers app_late_version) = ["v1.0.0"; "v2.0.0"]
  /\ exists g,
       outcome group_and_sort_routes app_late_version = Ok g
       /\ keys (sorted_version_routes g) = ["v1.0.0"]
       /\ ~ reflects g app_late_version.
Proof.
  split; [apply reachable_run, app_v1_reachable|].
  split; [reflexivity|]. split; [reflexivity|].
  eexists. split; [reflexivity|]. split; [reflexivity|].
  intros (_ & H). discriminate H.
Qed.

(** ** Dispatch *)

Lemma key_ok_valid (k : string) :
  key_ok k -> is_valid_date k = true \/ is_valid_version k = true.
Proof. intros [H|(H & _)]; auto. Qed.

Lemma valid_nonempty (h : string) :
  is_valid_date h = true \/ is_valid_version h = true -> h <> "".
Proof. intros [H|H] ->; discriminate H. Qed.

(** With a valid header and a partition that is not empty [_pick_version]
    returns the bucket of a key of that partition. *)
Lemma _pick_version_ok (h : string) (self : VersionAwareAPIRouter) g :
  router_inv self ->
  is_valid_date h = true \/ is_valid_version h = true ->
  outcome group_and_sort_routes self = Ok g ->
  partition_for h g <> [] ->
  exists c l self',
    _pick_version h self = (Ok l, self')
    /\ In c (keys (partition_for h g))
    /\ In (c, l) (versioned_routers self)
    /\ versioned_routers self' = versioned_routers self.
Proof.
  intros Hinv Hvalid Hg Hne.
  destruct (_pick_version_inv h self Hinv)
    as (g' & s1 & Eg & [(c & l & s' & E & Hc & Hl & Et & _)|Hraise]).
  - unfold outcome in Hg. rewrite Eg in Hg. injection Hg as ->.
    exists c, l, s'. auto.
  - exfalso. unfold outcome in Hg. rewrite Eg in Hg. injection Hg as ->.
    rewrite _pick_version_eq, Eg in Hraise.
    assert (Hres : exists c,
               (if is_valid_date h
                then find_closest_date h (keys (sorted_date_routes g))
                else find_closest_version h (keys (sorted_version_routes g)))
               = Ok c).
    { unfold partition_for in Hne. destruct (is_valid_date h) eqn:Ed.
      - destruct (find_closest_date_In h (keys (sorted_date_routes g)) Ed)
          as (d & E & _); [|eauto].
        destruct (sorted_date_routes g); [congruence | discriminate].
      - destruct Hvalid as [Hv|Hv]; [discriminate|].
        destruct (find_closest_version_In h (keys (sorted_version_routes g)) Hv)
          as (v & E & _); [|eauto].
        destruct (sorted_version_routes g); [congruence | discriminate]. }
    destruct Hres as (c & Hres). rewrite Hres in Hraise.
    cbv zeta in Hraise. unfold dict_getitem in Hraise.
    destruct (dict_get _ c);
      destruct Hraise as [(msg & H)|(msg & H)]; discriminate H.
Qed.

(** C7.  [_get_routes_for_version] returns the unversioned routes for the
    empty header; for a header that is a registered key it returns the
    bucket of that key whenever the grouped index that is served holds a key
    of the header's kind, which is the case as long as no bucket was
    registered after the index was computed, and so in every run where
    registration comes before serving. *)
Theorem _get_routes_for_version_exact :
  (forall self,
      outcome (_get_routes_for_version "") self = Ok (unversioned_routers self))
  /\ (forall self k l g,
         reachable self -> In (k, l) (versioned_routers self) ->
         outcome group_and_sort_routes self = Ok g ->
         partition_for k g <> [] ->
         outcome (_get_routes_for_version k) self = Ok l)
  /\ (forall self k l,
         reachable self -> index_fresh self ->
         In (k, l) (versioned_routers self) ->
         outcome (_get_routes_for_version k) self = Ok l)
  /\ (forall requested returned regs serves k l,
         Forall registering regs -> Forall serving serves ->
         let self := run (regs ++ serves) (__init__ requested returned) in
         In (k, l) (versioned_routers self) ->
         outcome (_get_routes_for_version k) self = Ok l).
Proof.
  assert (Hserved : forall self k l g,
             reachable self -> In (k, l) (versioned_routers self) ->
             outcome group_and_sort_routes self = Ok g ->
             partition_for k g <> [] ->
             outcome (_get_routes_for_version k) self = Ok l).
  { intros self k l g Hr Hin Hg Hne.
    pose proof (reachable_inv _ Hr) as Hinv.
    assert (Hk : key_ok k).
    { pose proof (inv_keys_ok _ Hinv) as H. rewrite Forall_forall in H.
      apply H. exact (in_map fst _ _ Hin). }
    pose proof (key_ok_valid _ Hk) as Hvalid.
    destruct (_pick_version_ok k self g Hinv Hvalid Hg Hne)
      as (c & l' & s' & E & _ & _ & Et).
    unfold outcome.
    rewrite (_get_routes_for_version_eq k self (valid_nonempty _ Hvalid)), E.
    cbn [fst]. rewrite Et.
    now rewrite (dict_get_NoDup _ _ _ (inv_keys_nodup _ Hinv) Hin). }
  assert (Hfresh : forall self k l,
             reachable self -> index_fresh self ->
             In (k, l) (versioned_routers self) ->
             outcome (_get_routes_for_version k) self = Ok l);
    [|split; [reflexivity|]; split; [exact Hserved|]; split; [exact Hfresh|];
      intros requested returned regs serves k l Hregs Hserves self Hin;
      apply Hfresh;
      [eexists; eexists; eexists; reflexivity
      |now apply registration_then_serving_fresh
      |exact Hin]].
  intros self k l Hr Hfresh Hin.
  pose proof (reachable_inv _ Hr) as Hinv.
  pose proof (group_and_sort_routes_body_ok self (inv_keys_ok _ Hinv)) as Hbody.
  set (g := {| sorted_date_routes := _; sorted_version_routes := _ |}) in Hbody.
  assert (Hg : outcome group_and_sort_routes self = Ok g).
  { unfold outcome. destruct (lru self) as [g'|] eqn:El.
    - rewrite (group_and_sort_routes_hit _ _ El). cbn [fst].
      specialize (Hfresh g' El). congruence.
    - now rewrite (group_and_sort_routes_miss _ _ El Hbody). }
  apply (Hserved self k l g Hr Hin Hg).
  assert (Hk : key_ok k).
  { pose proof (inv_keys_ok _ Hinv) as H. rewrite Forall_forall in H.
    apply H. exact (in_map fst _ _ Hin). }
  unfold partition_for. destruct (is_valid_date k) eqn:Ed.
  - assert (H : In (k, l) (sorted_date_routes g)).
    { apply sorted_by_In, filter_In. auto. }
    intros E. now rewrite E in H.
  - assert (H : In (k, l) (sorted_version_routes g)).
    { apply sorted_by_In, filter_In. split; [exact Hin|].
      destruct Hk as [Hk|(Hk & _)]; [congruence | exact Hk]. }
    intros E. now rewrite E in H.
Qed.

Lemma _get_routes_for_version_exact_witness :
  outcome (_get_routes_for_version "") app_v1 = Ok 1
  /\ outcome (_get_routes_for_version "v2.0.0") app_late_version = Ok 3
  /\ outcome (_get_routes_for_version "v1.0.0") app_v1 = Ok 2
  /\ outcome (_get_routes_for_version "2024-01-05")
       (run [Include docs docs None; Include heroes heroes (Some "v1.0.0");
             Include heroes heroes (Some "2024-01-05");
             Request "v1.0.0"; Dashboard] (__init__ None None))
     = Ok 3.
Proof.
  destruct _get_routes_for_version_exact as (H1 & H2 & H3 & H4).
  split; [exact (H1 app_v1)|]. split; [|split].
  - apply (H2 app_late_version "v2.0.0" 3
             {| sorted_date_routes := [];
                sorted_version_routes := [("v1.0.0", 2)] |}).
    + reached_by (setup_v1 ++ late_version)%list.
    + right. left. reflexivity.
    + reflexivity.
    + discriminate.
  - apply (H3 app_v1 "v1.0.0" 2).
    + reached_by setup_v1.
    + intros g Hg. discriminate Hg.
    + left. reflexivity.
  - apply (H4 None None
             [Include docs docs None; Include heroes heroes (Some "v1.0.0");
              Include heroes heroes (Some "2024-01-05")]
             [Request "v1.0.0"; Dashboard] "2024-01-05" 3).
    + repeat constructor.
    + repeat constructor.
    + right. left. reflexivity.
Defined.

(** C7, as stated, fails: after a request has computed the index, a date
    bucket is registered; a request for exactly that date raises
    [IndexError], because the fallback is computed before the table is
    consulted and finds no date in the memoised index. *)
Lemma _get_routes_for_version_exact_stale :
  reachable app_late_date
  /\ In ("2024-01-05", 3) (versioned_routers app_late_date)
  /\ outcome (_get_routes_for_version "2024-01-05") app_late_date
     = Raise (IndexError "list index out of range")
  /\ outcome (_get_routes_for_version "2024-01-05") app_late_date <> Ok 3.
Proof.
  split; [apply reachable_run, app_v1_reachable|].
  split; [right; left; reflexivity|].
  split; [reflexivity | discriminate].
Qed.

(** C8.  For a header that is not empty and is neither a valid date nor a
    valid version, [_get_routes_for_version] raises [ValueError] ("Invalid
    version format" in every state of a running application); no route set
    is returned. *)
Theorem _get_routes_for_version_invalid (self : VersionAwareAPIRouter)
    (h : string) :
  h <> "" -> is_valid_date h = false -> is_valid_version h = false ->
  (exists msg, outcome (_get_routes_for_version h) self = Raise (ValueError msg))
  /\ (reachable self ->
      outcome (_get_routes_for_version h) self
      = Raise (ValueError "Invalid version format")).
Proof.
  intros Hne Hd Hv. unfold outcome.
  rewrite (_get_routes_for_version_eq h self Hne), _pick_version_eq, Hd.
  split.
  - destruct (group_and_sort_routes self) as [[g|e] s1] eqn:E.
    + rewrite (find_closest_version_invalid _ _ Hv). eexists. reflexivity.
    + destruct (group_and_sort_routes_raises _ _ _ E) as (msg & ->).
      eexists. reflexivity.
  - intros Hr.
    destruct (group_and_sort_routes_inv self (reachable_inv _ Hr))
      as (g & s & -> & _).
    now rewrite (find_closest_version_invalid _ _ Hv).
Qed.

Lemma _get_routes_for_version_invalid_witness :
  outcome (_get_routes_for_version "v1.4.5.1") app_v1
  = Raise (ValueError "Invalid version format").
Proof.
  refine (proj2 (_get_routes_for_version_invalid app_v1 "v1.4.5.1" _ eq_refl
                   eq_refl) _).
  - discriminate.
  - reached_by setup_v1.
Defined.

(** C8, as stated, fails: with a version bucket and the unversioned routes
    at hand, an invalid header makes [_get_routes_for_version], and with it
    [__call__], raise; neither default is returned. *)
Lemma _get_routes_for_version_invalid_no_fallback :
  is_valid_date "invalid" = false /\ is_valid_version "invalid" = false
  /\ reachable app_v1
  /\ versioned_routers app_v1 = [("v1.0.0", 2)]
  /\ deref app_v1 (unversioned_routers app_v1) = docs
  /\ outcome (_get_routes_for_version "invalid") app_v1
     = Raise (ValueError "Invalid version format")
  /\ outcome (__call__ "invalid") app_v1
     = Raise (ValueError "Invalid version format")
  /\ forall l, outcome (_get_routes_for_version "invalid") app_v1 <> Ok l.
Proof.
  repeat split; try reflexivity; [apply app_v1_reachable | discriminate].
Qed.

(** C10.  Each resolver returns a member of its candidates (a candidate for
    dates, the normal form of a candidate for versions) when the list is not
    empty; registration files a bucket under the normal form of its version;
    so [_pick_version] never raises [KeyError], and it returns the bucket of
    a registered key when the header is valid and the partition that is
    searched is not empty. *)
Theorem _pick_version_lookup :
  (forall target l d, find_closest_date target l = Ok d -> In d l)
  /\ (forall target l v,
         find_closest_version target l = Ok v ->
         In v (map normalize_version l))
  /\ (forall target l,
         is_valid_date target = true -> l <> [] ->
         exists d, find_closest_date target l = Ok d /\ In d l)
  /\ (forall target l,
         is_valid_version target = true -> l <> [] ->
         exists v, find_closest_version target l = Ok v
                   /\ In v (map normalize_version l))
  /\ (forall self rr appended version,
         let self' := exec (include_router rr appended (Some version)) self in
         versioned_routers self' = versioned_routers self
         \/ exists l, versioned_routers self'
                      = (versioned_routers self
                         ++ [(normalize_version version, l)])%list)
  /\ (forall self, reachable self ->
         Forall (fun k => normalize_version k = k)
           (keys (versioned_routers self)))
  /\ (forall self h k, reachable self ->
         outcome (_pick_version h) self <> Raise (KeyError k))
  /\ (forall self h g,
         reachable self ->
         is_valid_date h = true \/ is_valid_version h = true ->
         outcome group_and_sort_routes self = Ok g ->
         partition_for h g <> [] ->
         exists c l, In (c, l) (versioned_routers self)
                     /\ outcome (_pick_version h) self = Ok l).
Proof.
  split.
  { intros target l d E.
    destruct (find_closest_date_outcome target l)
      as [(d' & E' & H)|[(msg & E')|(msg & E')]]; congruence. }
  split.
  { intros target l v E.
    destruct (find_closest_version_outcome target l)
      as [(v' & E' & H)|(msg & E')]; congruence. }
  split; [exact find_closest_date_In|].
  split; [exact find_closest_version_In|].
  split; [|split; [|split]].
  - intros self rr appended version self'. subst self'.
    destruct (include_router_grows rr appended (Some version) self)
      as (k & (_ & [Hsame|(_ & l & Hnew)]) & Hk); [now left|].
    right. exists l.
    destruct Hk as (_ & v & [= <-] & ->); [|exact Hnew].
    rewrite Hnew. intros H. apply (f_equal (@List.length _)) in H.
    rewrite length_app in H. simpl in H. lia.
  - intros self Hr. pose proof (inv_keys_ok _ (reachable_inv _ Hr)) as H.
    rewrite Forall_forall in *. intros k Hk.
    destruct (H k Hk) as [Hd|(_ & Hp)].
    + now apply normalize_version_date.
    + unfold normalize_version. now rewrite Hp, andb_false_r.
  - intros self h k Hr. unfold outcome.
    destruct (_pick_version_inv h self (reachable_inv _ Hr))
      as (g & s1 & _ & [(c & l & s' & -> & _)|[(msg & ->)|(msg & ->)]]);
      discriminate.
  - intros self h g Hr Hvalid Hg Hne.
    destruct (_pick_version_ok h self g (reachable_inv _ Hr) Hvalid Hg Hne)
      as (c & l & s' & E & _ & Hin & _).
    exists c, l. split; [exact Hin|]. unfold outcome. now rewrite E.
Qed.

Lemma _pick_version_lookup_witness :
  In "2024-04-15" dates3
  /\ In "v1.2.2" (map normalize_version versions6)
  /\ (exists d, find_closest_date "2024-04-17" dates3 = Ok d /\ In d dates3)
  /\ (exists v, find_closest_version "1.2.3" versions6 = Ok v
                /\ In v (map normalize_version versions6))
  /\ Forall (fun k => normalize_version k = k) (keys (versioned_routers app_v1))
  /\ outcome (_pick_version "2024-04-17") app_v1 <> Raise (KeyError "2024-04-17")
  /\ (exists c l, In (c, l) (versioned_routers app_late_version)
                  /\ outcome (_pick_version "v3.1.0") app_late_version = Ok l).
Proof.
  destruct _pick_version_lookup as (Hd & Hv & H1 & H2 & _ & H4 & H5 & H6).
  split; [exact (Hd "2024-04-17" dates3 "2024-04-15" eq_refl)|].
  split; [exact (Hv "v1.2.3" versions6 "v1.2.2" eq_refl)|].
  split; [apply (H1 "2024-04-17" dates3 eq_refl); discriminate|].
  split; [apply (H2 "1.2.3" versions6 eq_refl); discriminate|].
  assert (R : reachable app_v1) by reached_by setup_v1.
  split; [exact (H4 app_v1 R)|].
  split; [exact (H5 app_v1 "2024-04-17" "2024-04-17" R)|].
  apply (H6 app_late_version "v3.1.0"
           {| sorted_date_routes := [];
              sorted_version_routes := [("v1.0.0", 2)] |}).
  - reached_by (setup_v1 ++ late_version)%list.
  - right. reflexivity.
  - reflexivity.
  - discriminate.
Defined.

(* ================================================================== *)
(** * Further statements about utils.py *)
(* ================================================================== *)

(** ** The tokens that [is_valid_version] accepts *)

Lemma forallb_str_app (p : ascii -> bool) (a b : string) :
  Py.forallb_str p (a ++ b) = Py.forallb_str p a && Py.forallb_str p b.
Proof.
  induction a as [|c a IH]; simpl; [reflexivity|].
  now rewrite IH, andb_assoc.
Qed.

Lemma string_app_assoc (a b c : string) : ((a ++ b) ++ c = a ++ (b ++ c))%string.
Proof. induction a as [|x a IH]; simpl; [reflexivity | now rewrite IH]. Qed.


Lemma string_length_app (a b : string) :
  String.length (a ++ b) = String.length a + String.length b.
Proof. induction a as [|x a IH]; simpl; [reflexivity | now rewrite IH]. Qed.







(** ** The tokens that [is_valid_date] accepts *)










(** ** [validate_version] *)

Lemma validate_version_accepts_aux (version : string) :
  (validate_version version = Ok tt <->
   (is_valid_version version = true /\ is_valid_date version = false)
   \/ (is_valid_date version = true /\ is_valid_version version = false))
  /\ (validate_version version = Ok tt ->
      validate_version (normalize_version version) = Ok tt)
  /\ (version = "" ->
      validate_version version
      = Raise (HTTPException 422 "Version header is missing"))
  /\ (version <> "" ->
      is_valid_version version = false -> is_valid_date version = false ->
      validate_version version
      = Raise (HTTPException 422 "Invalid version format")).
Proof.
  assert (Hiff : validate_version version = Ok tt <->
                 (is_valid_version version = true
                  /\ is_valid_date version = false)
                 \/ (is_valid_date version = true
                     /\ is_valid_version version = false)).
  { unfold validate_version.
    destruct (String.eqb_spec version "") as [->|Hne].
    - split; [discriminate | intros [(H & _)|(H & _)]; discriminate H].
    - destruct (is_valid_version version) eqn:Ev.
      + cbn [orb negb]. split; [intros _; left | reflexivity].
        split; [reflexivity|].
        destruct (is_valid_date version) eqn:Ed; [|reflexivity].
        rewrite (is_valid_date_not_version _ Ed) in Ev. discriminate.
      + cbn [orb]. destruct (is_valid_date version); cbn [negb].
        * split; [intros _; right; auto | reflexivity].
        * split; [discriminate | intros [(H & _)|(H & _)]; discriminate H]. }
  split; [exact Hiff|]. split; [|split].
  - intros H. apply Hiff in H as [(Hv & Hd)|(Hd & Hv)].
    + destruct (normalize_version_valid _ Hv) as (Hv' & _).
      revert Hv'. generalize (normalize_version version). intros k Hk.
      unfold validate_version.
      destruct (String.eqb_spec k "") as [->|_]; [discriminate|].
      now rewrite Hk.
    + rewrite (normalize_version_date _ Hd). unfold validate_version.
      destruct (String.eqb_spec version "") as [->|_]; [discriminate|].
      now rewrite Hd, orb_true_r.
  - now intros ->.
  - intros Hne Hv Hd. unfold validate_version.
    destruct (String.eqb_spec version "") as [->|_]; [congruence|].
    now rewrite Hv, Hd.
Qed.

(** X3.  [validate_version] returns for exactly the tokens that are a valid
    version or a valid date, and no token is both; the normal form of a
    token that passes passes too.  The empty token is rejected as missing,
    every other token that fails as badly formed, both with status 422. *)
Theorem validate_version_accepts (version : string) :
  (validate_version version = Ok tt <->
   (is_valid_version version = true /\ is_valid_date version = false)
   \/ (is_valid_date version = true /\ is_valid_version version = false))
  /\ (validate_version version = Ok tt ->
      validate_version (normalize_version version) = Ok tt)
  /\ (version = "" ->
      validate_version version
      = Raise (HTTPException 422 "Version header is missing"))
  /\ (version <> "" ->
      is_valid_version version = false -> is_valid_date version = false ->
      validate_version version
      = Raise (HTTPException 422 "Invalid version format")).
Proof. exact (validate_version_accepts_aux version). Qed.

Lemma validate_version_accepts_witness :
  validate_version (normalize_version "1.0.0") = Ok tt
  /\ validate_version "" = Raise (HTTPException 422 "Version header is missing")
  /\ validate_version "2024-4-25"
     = Raise (HTTPException 422 "Invalid version format").
Proof.
  split; [|split].
  - exact (proj1 (proj2 (validate_version_accepts "1.0.0")) eq_refl).
  - exact (proj1 (proj2 (proj2 (validate_version_accepts ""))) eq_refl).
  - apply (proj2 (proj2 (proj2 (validate_version_accepts "2024-4-25"))));
      [discriminate | reflexivity | reflexivity].
Defined.

(** ** Which tokens share a bucket *)

Lemma valid_v_tail (s : string) :
  is_valid_version (String "v" s) = true -> Py.startswith_v s = false.
Proof.
  unfold is_valid_version. destruct (_ || _); [discriminate|].
  unfold re_match_version. cbn [Py.startswith_v].
  change (Ascii.eqb "v" "v") with true. cbn iota.
  destruct s as [|c s]; [reflexivity|].
  destruct (match_release (String c s)) as [r|] eqn:E; [|discriminate].
  intros _. cbn [Py.startswith_v].
  now destruct (re_digit_other c (match_release_head _ _ _ E)) as (_ & Hv & _).
Qed.

Lemma startswith_v_cons (s : string) :
  Py.startswith_v s = true -> exists t, s = String "v" t.
Proof.
  destruct s as [|c s]; [discriminate|]. simpl. intros H.
  apply Ascii.eqb_eq in H as ->. eauto.
Qed.

(** X4.  Normalization keeps a valid version valid and keeps its release;
    two valid versions have the same normal form, and so share a bucket,
    exactly when they are the same string up to the prefix [v]. *)
Theorem normalize_version_collision (a b : string) :
  is_valid_version a = true -> is_valid_version b = true ->
  is_valid_version (normalize_version a) = true
  /\ versionpkg.parse (normalize_version a) = versionpkg.parse a
  /\ (normalize_version a = normalize_version b <->
      a = b \/ a = "v" ++ b \/ b = "v" ++ a).
Proof.
  intros Ha Hb.
  split; [now apply normalize_version_valid|].
  split; [now apply parse_normalize_version|].
  destruct (normalize_version_cases a) as [(_ & Pa & Ea)|([Fa|Pa] & Ea)];
    destruct (normalize_version_cases b) as [(_ & Pb & Eb)|([Fb|Pb] & Eb)];
    try congruence; rewrite Ea, Eb.
  - split; [intros [= ->]; auto|].
    intros [->|[->| ->]]; [reflexivity|discriminate Pa|discriminate Pb].
  - split; [intros <-; auto|].
    intros [->|[->| ->]]; [congruence|discriminate Pa|reflexivity].
  - split; [intros ->; auto|].
    intros [->|[->| ->]]; [congruence|reflexivity|discriminate Pb].
  - split; [auto|]. intros [->|[->| ->]]; [reflexivity| |].
    + change ("v" ++ b)%string with (String "v" b) in Ha.
      rewrite (valid_v_tail _ Ha) in Pb. discriminate.
    + change ("v" ++ a)%string with (String "v" a) in Hb.
      rewrite (valid_v_tail _ Hb) in Pa. discriminate.
Qed.

Lemma normalize_version_collision_witness :
  is_valid_version (normalize_version "2.2.5") = true
  /\ versionpkg.parse (normalize_version "2.2.5") = versionpkg.parse "2.2.5"
  /\ normalize_version "v2.2.5" = normalize_version "2.2.5".
Proof.
  destruct (normalize_version_collision "v2.2.5" "2.2.5" eq_refl eq_refl)
    as (_ & _ & H3).
  destruct (normalize_version_collision "2.2.5" "2.2.5" eq_refl eq_refl)
    as (H1 & H2 & _).
  split; [exact H1|]. split; [exact H2|].
  apply (proj2 H3). right. left. reflexivity.
Defined.

(** ** Dates in the order of strings *)










(** ** The floor that [find_closest_date] returns *)

Lemma str_lt_total (a b : string) :
  a <> b -> StrOrder.lt a b \/ StrOrder.lt b a.
Proof.
  intros Hne. destruct (String.ltb a b) eqn:E1; [now left|].
  destruct (String.ltb b a) eqn:E2; [now right|].
  destruct Hne. apply str_le_antisym; [exact E2 | exact E1].
Qed.

Lemma getitem_nth (l : list string) (i : nat) (x : string) :
  Py.getitem l i = Ok x -> i < List.length l /\ nth i l EmptyString = x.
Proof.
  unfold Py.getitem. destruct (nth_error l i) as [y|] eqn:E; [|discriminate].
  intros [= <-]. split.
  - apply nth_error_Some. congruence.
  - now apply nth_error_nth.
Qed.

Lemma getitem_last_nth (l : list string) (x : string) :
  Py.getitem_last l = Ok x ->
  0 < List.length l /\ nth (List.length l - 1) l EmptyString = x.
Proof.
  unfold Py.getitem_last. destruct l as [|y l]; [discriminate|].
  intros H. apply getitem_nth in H as (H1 & H2). split; [simpl; lia | exact H2].
Qed.

(** What [find_closest_date] returns, in the order of strings: the greatest
    candidate that is not above the target when there is one, else the
    smallest candidate. *)
Lemma find_closest_date_floor_str (target d : string) (l : list string) :
  is_valid_date target = true ->
  find_closest_date target l = Ok d ->
  In d l
  /\ ((exists c, In c l /\ StrOrder.le c target) ->
      StrOrder.le d target
      /\ forall c, In c l -> StrOrder.le c target -> StrOrder.le c d)
  /\ ((forall c, In c l -> StrOrder.lt target c) ->
      forall c, In c l -> StrOrder.le d c).
Proof.
  intros Hv E.
  destruct (in_dec string_dec target l) as [Hin|Hin].
  { rewrite (find_closest_date_exact _ _ Hv Hin) in E. injection E as <-.
    split; [exact Hin|]. split.
    - intros _. split; [apply str_le_refl | auto].
    - intros H. destruct (str_lt_irrefl _ (H _ Hin)). }
  rewrite (find_closest_date_search _ _ Hv Hin) in E. cbv zeta in E.
  pose proof (bisect_left_spec (Py.sorted l) target (sorted_sorted l))
    as (Hr & Hlo & Hhi). cbv zeta in Hr, Hlo, Hhi.
  pose proof (StronglySorted_nth _ (sorted_sorted l)) as Hs.
  set (s := Py.sorted l) in *. set (r := Py.bisect_left s target) in *.
  assert (Hidx : forall c, In c l ->
             exists j, j < List.length s /\ nth j s EmptyString = c).
  { intros c Hc. apply sorted_In in Hc. fold s in Hc.
    destruct (In_nth _ _ EmptyString Hc) as (j & Hj & Ej). eauto. }
  assert (Hup : forall j, r <= j -> j < List.length s ->
             StrOrder.lt target (nth j s EmptyString)).
  { intros j H1 H2.
    destruct (str_lt_total target (nth j s EmptyString)) as [H|H];
      [|exact H|destruct (Hhi j H1 H2 H)].
    intros ->. apply Hin, sorted_In. fold s. now apply nth_In. }
  assert (Hmem : forall i, i < List.length s -> In (nth i s EmptyString) l).
  { intros i Hi. apply sorted_In. fold s. now apply nth_In. }
  assert (Hbelow : forall i, i < r -> nth i s EmptyString = d ->
             (forall j, j < List.length s -> j < r -> j <= i) ->
             In d l
             /\ ((exists c, In c l /\ StrOrder.le c target) ->
                 StrOrder.le d target
                 /\ forall c, In c l -> StrOrder.le c target -> StrOrder.le c d)
             /\ ((forall c, In c l -> StrOrder.lt target c) ->
                 forall c, In c l -> StrOrder.le d c)).
  { intros i Hi Ed Hmax. pose proof (Hlo i Hi) as Hlt. rewrite Ed in Hlt.
    split; [rewrite <- Ed; apply Hmem; lia|]. split.
    - intros _. split; [now apply str_lt_le|].
      intros c Hc Hle. destruct (Hidx c Hc) as (j & Hj & <-).
      destruct (Nat.lt_ge_cases j r) as [Hjr|Hjr].
      + rewrite <- Ed. apply Hs; [apply Hmax; assumption | lia].
      + destruct (str_le_not_lt _ _ Hle (Hup j Hjr Hj)).
    - intros H. assert (Hd : In d l) by (rewrite <- Ed; apply Hmem; lia).
      destruct (str_lt_asym _ _ Hlt (H d Hd)). }
  destruct (Nat.eqb_spec r 0) as [E0|N0].
  - apply getitem_nth in E as (Hlen & Ed).
    split; [rewrite <- Ed; now apply Hmem|]. split.
    + intros (c & Hc & Hle). destruct (Hidx c Hc) as (j & Hj & <-).
      destruct (str_le_not_lt _ _ Hle (Hup j ltac:(lia) Hj)).
    + intros _ c Hc. destruct (Hidx c Hc) as (j & Hj & <-).
      rewrite <- Ed. apply Hs; lia.
  - destruct (Nat.eqb_spec r (List.length s)) as [El|Nl].
    + apply getitem_last_nth in E as (Hlen & Ed).
      apply (Hbelow (List.length s - 1)); [lia | exact Ed | lia].
    + apply getitem_nth in E as (Hlen & Ed).
      apply (Hbelow (r - 1)); [lia | exact Ed | lia].
Qed.

(** X6.  Whatever the candidates are, [find_closest_date] returns one of
    them: the greatest candidate, as a string, that is not above the target
    when there is one, and the smallest candidate otherwise. *)
Theorem find_closest_date_greatest_not_above (target d : string)
    (l : list string) :
  is_valid_date target = true ->
  find_closest_date target l = Ok d ->
  In d l
  /\ ((exists c, In c l /\ String.ltb target c = false) ->
      String.ltb target d = false
      /\ forall c, In c l -> String.ltb target c = false ->
                   String.ltb d c = false)
  /\ ((forall c, In c l -> String.ltb target c = true) ->
      forall c, In c l -> String.ltb c d = false).
Proof. exact (find_closest_date_floor_str target d l). Qed.

Lemma find_closest_date_greatest_not_above_witness :
  In "2024-02-10" dates4
  /\ String.ltb "2024-03-15" "2024-02-10" = false
  /\ forall c, In c dates4 -> String.ltb "2024-03-15" c = false ->
               String.ltb "2024-02-10" c = false.
Proof.
  destruct (find_closest_date_greatest_not_above "2024-03-15" "2024-02-10"
              dates4 eq_refl eq_refl) as (H1 & H2 & _).
  split; [exact H1|]. apply H2.
  exists "2024-01-05". split; [simpl; auto | reflexivity].
Defined.




(** ** What [find_closest_version] guarantees *)






(* ================================================================== *)
(** * Further statements about routers.py *)
(* ================================================================== *)

(** ** The grouping *)

Lemma filter_split_perm {A : Type} (p q : A -> bool) (l : list A) :
  (forall x, In x l -> q x = negb (p x)) ->
  Permutation (filter p l ++ filter q l) l.
Proof.
  induction l as [|x l IH]; intros H; simpl; [constructor|].
  rewrite (H x (or_introl eq_refl)).
  assert (IH' : Permutation (filter p l ++ filter q l) l)
    by (apply IH; intros y Hy; apply H; now right).
  destruct (p x); simpl.
  - now constructor.
  - rewrite <- Permutation_middle. now constructor.
Qed.

(** X10.  In every state of a running application [group_and_sort_routes]
    returns an index (its [ValueError] branch is never taken) whose entries
    are entries of the route table; an index that is computed afresh holds
    every registered key exactly once, the valid dates in one partition and
    the versions in the other, each partition in the order of strings. *)
Theorem group_and_sort_routes_partition (self : VersionAwareAPIRouter) :
  reachable self ->
  exists g,
    outcome group_and_sort_routes self = Ok g
    /\ incl (sorted_date_routes g ++ sorted_version_routes g)
         (versioned_routers self)
    /\ Forall (fun kv => is_valid_date (fst kv) = true) (sorted_date_routes g)
    /\ Forall (fun kv => is_valid_version (fst kv) = true)
         (sorted_version_routes g)
    /\ (lru self = None ->
        Permutation (sorted_date_routes g ++ sorted_version_routes g)
          (versioned_routers self)
        /\ StronglySorted (key_le fst) (sorted_date_routes g)
        /\ StronglySorted (key_le fst) (sorted_version_routes g)).
Proof.
  intros Hr. pose proof (reachable_inv _ Hr) as Hinv.
  destruct (group_and_sort_routes_inv self Hinv)
    as (g & s & E & _ & _ & _ & (H1 & H2 & H3 & H4) & _ & _).
  exists g. unfold outcome. rewrite E. split; [reflexivity|].
  split; [now apply incl_app|]. split; [exact H3|]. split; [exact H4|].
  intros Hnone.
  pose proof (group_and_sort_routes_body_ok self (inv_keys_ok _ Hinv)) as Hb.
  rewrite (group_and_sort_routes_miss _ _ Hnone Hb) in E.
  injection E as <- _. cbn [sorted_date_routes sorted_version_routes].
  split; [|split; apply sorted_by_sorted].
  rewrite <- !sorted_by_perm. apply filter_split_perm.
  intros [k l] Hin. cbn [fst].
  pose proof (inv_keys_ok _ Hinv) as Hok. rewrite Forall_forall in Hok.
  destruct (Hok k (in_map fst _ _ Hin)) as [Hd|(Hv & _)].
  - now rewrite Hd, (is_valid_date_not_version _ Hd).
  - rewrite Hv. destruct (is_valid_date k) eqn:Ed; [|reflexivity].
    rewrite (is_valid_date_not_version _ Ed) in Hv. discriminate.
Qed.

Lemma group_and_sort_routes_partition_witness :
  exists g,
    outcome group_and_sort_routes app_v1_9_and_v1_10 = Ok g
    /\ incl (sorted_date_routes g ++ sorted_version_routes g)
         (versioned_routers app_v1_9_and_v1_10)
    /\ Forall (fun kv => is_valid_date (fst kv) = true) (sorted_date_routes g)
    /\ Forall (fun kv => is_valid_version (fst kv) = true)
         (sorted_version_routes g)
    /\ (lru app_v1_9_and_v1_10 = None ->
        Permutation (sorted_date_routes g ++ sorted_version_routes g)
          (versioned_routers app_v1_9_and_v1_10)
        /\ StronglySorted (key_le fst) (sorted_date_routes g)
        /\ StronglySorted (key_le fst) (sorted_version_routes g)).
Proof.
  apply group_and_sort_routes_partition.
  exists None, None,
    [Include heroes heroes (Some "v1.9.0");
     Include heroes heroes (Some "v1.10.0")].
  reflexivity.
Defined.

(** ** Requests leave the tables alone *)

Lemma same_tables_refl (self : VersionAwareAPIRouter) : same_tables self self.
Proof. repeat split. Qed.

Lemma group_and_sort_routes_same_tables (self : VersionAwareAPIRouter) :
  same_tables self (exec group_and_sort_routes self)
  /\ requested_version (exec group_and_sort_routes self)
     = requested_version self
  /\ returned_version (exec group_and_sort_routes self)
     = returned_version self.
Proof.
  unfold exec, group_and_sort_routes. destruct (lru self).
  - repeat split.
  - destruct (group_and_sort_routes_body self); repeat split.
Qed.

Lemma _pick_version_same_tables (h : string) (self : VersionAwareAPIRouter) :
  same_tables self (exec (_pick_version h) self).
Proof.
  unfold exec. rewrite _pick_version_eq.
  pose proof (group_and_sort_routes_same_tables self) as (Hs & _).
  unfold exec in Hs.
  destruct (group_and_sort_routes self) as [[g|e] s1]; cbn [snd] in *;
    [|exact Hs].
  destruct (if is_valid_date h then _ else _) as [c|e]; cbn [snd];
    [|exact Hs].
  exact Hs.
Qed.

Lemma _get_routes_for_version_same_tables (h : string)
    (self : VersionAwareAPIRouter) :
  same_tables self (exec (_get_routes_for_version h) self)
  /\ routes (exec (_get_routes_for_version h) self) = routes self.
Proof.
  unfold exec. destruct (String.eqb_spec h "") as [->|Hne].
  - rewrite _get_routes_for_version_empty. split; [apply same_tables_refl|].
    reflexivity.
  - rewrite (_get_routes_for_version_eq h self Hne).
    pose proof (_pick_version_same_tables h self) as Hs.
    assert (Hroutes : routes (exec (_pick_version h) self) = routes self).
    { unfold exec. rewrite _pick_version_eq.
      unfold group_and_sort_routes.
      destruct (lru self); [|destruct (group_and_sort_routes_body self)];
        cbn [snd]; try reflexivity;
        destruct (if is_valid_date h then _ else _); reflexivity. }
    unfold exec in Hs, Hroutes.
    destruct (_pick_version h self) as [[l|e] s1]; cbn [snd] in *; auto.
Qed.

(** X11.  Serving a request changes neither the route table, nor the
    unversioned routes, nor the content of any route list, whatever the
    header is and whether the selection returns or raises; only the
    selected list, the memoised index and the context variables can
    change. *)
Theorem requests_leave_tables_alone (h : string)
    (self : VersionAwareAPIRouter) :
  same_tables self (exec (_get_routes_for_version h) self)
  /\ same_tables self (exec (__call__ h) self)
  /\ routes (exec (_get_routes_for_version h) self) = routes self
  /\ (forall l, outcome (_get_routes_for_version h) self = Ok l ->
                routes (exec (__call__ h) self) = l)
  /\ (forall e, outcome (_get_routes_for_version h) self = Raise e ->
                routes (exec (__call__ h) self) = routes self).
Proof.
  destruct (_get_routes_for_version_same_tables h self) as (H1 & H2).
  split; [exact H1|]. unfold exec, outcome in *. rewrite call_eq.
  destruct (_get_routes_for_version h self) as [[l|e] s]; cbn [snd fst] in *.
  - split; [exact H1|]. split; [exact H2|].
    split; [now intros l' [= ->] | discriminate].
  - split; [exact H1|]. split; [exact H2|].
    split; [discriminate | intros _ _; exact H2].
Qed.

Lemma requests_leave_tables_alone_witness :
  same_tables app_v1 (exec (__call__ "v1.5.0") app_v1)
  /\ routes (exec (__call__ "v1.5.0") app_v1) = 2
  /\ routes (exec (__call__ "v0.5") app_v1) = routes app_v1.
Proof.
  destruct (requests_leave_tables_alone "v1.5.0" app_v1) as (_ & H1 & _ & H2 & _).
  destruct (requests_leave_tables_alone "v0.5" app_v1) as (_ & _ & _ & _ & H3).
  split; [exact H1|]. split; [exact (H2 2 eq_refl)|].
  exact (H3 (ValueError "Invalid version format") eq_refl).
Defined.

(** ** The context variables *)

(** X12.  When [_pick_version] returns, a context variable that the router
    was built with holds the header ([requested_version]) or the key that
    was resolved ([returned_version]), and the list returned is the bucket
    of that key; a variable the router was built without stays absent.
    When [_pick_version] raises, both variables are what they were. *)
Theorem _pick_version_context (h : string) (self : VersionAwareAPIRouter) :
  (forall l, outcome (_pick_version h) self = Ok l ->
     requested_version (exec (_pick_version h) self)
     = set_context_var (requested_version self) h
     /\ exists c,
          returned_version (exec (_pick_version h) self)
          = set_context_var (returned_version self) c
          /\ dict_get (versioned_routers self) c = Some l)
  /\ (forall e, outcome (_pick_version h) self = Raise e ->
        (forall k, e <> KeyError k) ->
        requested_version (exec (_pick_version h) self)
        = requested_version self
        /\ returned_version (exec (_pick_version h) self)
           = returned_version self).
Proof.
  unfold outcome, exec. rewrite _pick_version_eq.
  pose proof (group_and_sort_routes_same_tables self) as ((_ & Ht & _) & Hq & Hr).
  unfold exec in Ht, Hq, Hr.
  destruct (group_and_sort_routes self) as [[g|e0] s1]; cbn [snd fst] in *.
  - destruct (if is_valid_date h then _ else _) as [c|e1]; cbn [snd fst].
    + split.
      * intros l Hl. cbn [requested_version returned_version
                           with_returned_version with_requested_version].
        rewrite Hq, Hr. split; [reflexivity|]. exists c. split; [reflexivity|].
        revert Hl. unfold dict_getitem.
        cbn [versioned_routers with_returned_version with_requested_version].
        rewrite Ht. destruct (dict_get (versioned_routers self) c);
          [now intros [= ->] | discriminate].
      * intros e He Hk. exfalso. revert He. unfold dict_getitem.
        destruct (dict_get _ c); [discriminate|]. intros [= <-].
        now apply (Hk c).
    + split; [discriminate|]. intros e _ _. auto.
  - split; [discriminate|]. intros e _ _. auto.
Qed.

Lemma _pick_version_context_witness :
  requested_version (exec (_pick_version "v1.10.0")
                       (run [Include heroes heroes (Some "v1.9.0");
                             Include heroes heroes (Some "v1.10.0")]
                          (__init__ (Some None) (Some None))))
  = Some (Some "v1.10.0")
  /\ exists c,
       returned_version (exec (_pick_version "v1.10.0")
                           (run [Include heroes heroes (Some "v1.9.0");
                                 Include heroes heroes (Some "v1.10.0")]
                              (__init__ (Some None) (Some None))))
       = Some (Some c)
       /\ dict_get [("v1.9.0", 2); ("v1.10.0", 3)] c = Some 2.
Proof.
  exact (proj1 (_pick_version_context "v1.10.0"
                  (run [Include heroes heroes (Some "v1.9.0");
                        Include heroes heroes (Some "v1.10.0")]
                     (__init__ (Some None) (Some None)))) 2 eq_refl).
Defined.

(** ** Dispatch, end to end *)

Lemma date_keys_In (c : string) (d : list (string * loc)) :
  In c (date_keys d) <-> In c (keys d) /\ is_valid_date c = true.
Proof. unfold date_keys. apply filter_In. Qed.

Lemma version_keys_In (c : string) (d : list (string * loc)) :
  In c (version_keys d) <-> In c (keys d) /\ is_valid_version c = true.
Proof. unfold version_keys. apply filter_In. Qed.

(** The index that is served when the memo is up to date. *)
Lemma fresh_served (self : VersionAwareAPIRouter) :
  router_inv self -> index_fresh self ->
  exists g s1,
    group_and_sort_routes self = (Ok g, s1)
    /\ versioned_routers s1 = versioned_routers self
    /\ reflects g self.
Proof.
  intros Hinv Hf.
  destruct (group_and_sort_routes_inv self Hinv)
    as (g & s1 & E & Et & _ & _ & _ & Hrefl & _).
  exists g, s1. split; [exact E|]. split; [exact Et|].
  destruct (lru self) as [g'|] eqn:El; [|now apply Hrefl].
  rewrite (group_and_sort_routes_hit _ _ El) in E. injection E as <- <-.
  exact (proj1 (group_and_sort_routes_body_reflects self g'
                  (inv_keys_ok _ Hinv) (Hf g' El))).
Qed.








(* ================================================================== *)
(** * Further statements about handlers.py *)
(* ================================================================== *)


(** ** The heap of route lists *)

Section UpdateNth.
Context {A : Type}.

Lemma update_nth_length (n : nat) (f : A -> A) (l : list A) :
  List.length (update_nth n f l) = List.length l.
Proof.
  revert n. induction l as [|x l IH]; intros [|n]; simpl; auto.
Qed.

Lemma update_nth_same (n : nat) (f : A -> A) (l : list A) (d : A) :
  n < List.length l -> nth n (update_nth n f l) d = f (nth n l d).
Proof.
  revert n. induction l as [|x l IH]; intros [|n] H; simpl in *; try lia.
  - reflexivity.
  - apply IH. lia.
Qed.

Lemma update_nth_other (n m : nat) (f : A -> A) (l : list A) (d : A) :
  n <> m -> nth m (update_nth n f l) d = nth m l d.
Proof.
  revert n m. induction l as [|x l IH]; intros [|n] [|m] H; simpl; auto.
  congruence.
Qed.

Lemma update_nth_id (n : nat) (f : A -> A) (l : list A) :
  (forall x, f x = x) -> update_nth n f l = l.
Proof.
  intros Hf. revert n. induction l as [|x l IH]; intros [|n]; simpl; auto.
  - now rewrite Hf.
  - now rewrite IH.
Qed.
End UpdateNth.

Lemma dict_get_app_other {V : Type} (d : list (string * V)) (k k' : string)
    (v : V) :
  k' <> k -> dict_get (d ++ [(k, v)]) k' = dict_get d k'.
Proof.
  intros Hne. induction d as [|[k0 v0] d IH]; simpl.
  - destruct (String.eqb_spec k' k); [congruence | reflexivity].
  - destruct (String.eqb k' k0); [reflexivity | exact IH].
Qed.

Lemma dict_get_loc (self : VersionAwareAPIRouter) (k : string) (l : loc) :
  heap_inv self -> dict_get (versioned_routers self) k = Some l ->
  2 <= l < List.length (heap self).
Proof.
  intros Hh H. apply dict_get_In in H.
  pose proof (hi_locs _ Hh) as Hl. rewrite Forall_forall in Hl.
  exact (Hl _ H).
Qed.

Lemma init_heap_inv (requested returned : option (option string)) :
  heap_inv (__init__ requested returned).
Proof. constructor; cbn; auto; constructor. Qed.

(** [extend] keeps the shape and changes one list. *)
Lemma extend_spec (l : loc) (rs : list BaseRoute)
    (self : VersionAwareAPIRouter) :
  heap_inv self -> l < List.length (heap self) ->
  exists s,
    extend l rs self = (Ok tt, s)
    /\ heap_inv s
    /\ List.length (heap s) = List.length (heap self)
    /\ routes s = routes self
    /\ unversioned_routers s = unversioned_routers self
    /\ versioned_routers s = versioned_routers self
    /\ lru s = lru self
    /\ deref s l = (deref self l ++ rs)%list
    /\ (forall l', l' <> l -> deref s l' = deref self l').
Proof.
  intros [H1 H2 H3 H4 H5] Hl. eexists. split; [reflexivity|].
  assert (Hlen : List.length (heap (with_heap
                   (update_nth l (fun old => (old ++ rs)%list) (heap self)) self))
                 = List.length (heap self))
    by (cbn [heap with_heap]; apply update_nth_length).
  split; [|split; [exact Hlen|]].
  - constructor; rewrite ?Hlen; assumption.
  - repeat split; try reflexivity.
    + unfold deref. cbn [heap with_heap].
      exact (update_nth_same l (fun old => (old ++ rs)%list) _ [] Hl).
    + intros l' Hne. unfold deref. cbn [heap with_heap].
      apply update_nth_other. congruence.
Qed.

(** One round of the loop: the route goes to the end of the bucket of [k],
    which is created when it is missing; nothing else changes. *)
Lemma register_one_spec (k : string) (route : BaseRoute)
    (self : VersionAwareAPIRouter) :
  heap_inv self ->
  exists l s,
    register_one k route self = (Ok tt, s)
    /\ heap_inv s
    /\ List.length (heap self) <= List.length (heap s)
    /\ routes s = routes self
    /\ unversioned_routers s = unversioned_routers self
    /\ lru s = lru self
    /\ dict_get (versioned_routers s) k = Some l
    /\ (dict_get (versioned_routers self) k = Some l
        \/ (dict_get (versioned_routers self) k = None
            /\ l = List.length (heap self)))
    /\ deref s l = (bucket self k ++ [route])%list
    /\ (forall k' l', k' <> k ->
          dict_get (versioned_routers self) k' = Some l' ->
          dict_get (versioned_routers s) k' = Some l')
    /\ (forall l', l' < List.length (heap self) ->
          dict_get (versioned_routers self) k <> Some l' ->
          deref s l' = deref self l')
    /\ (versioned_routers s = versioned_routers self
        \/ (dict_get (versioned_routers self) k = None
            /\ versioned_routers s
               = (versioned_routers self
                  ++ [(k, List.length (heap self))])%list)).
Proof.
  intros Hh. unfold register_one, bind at 1.
  unfold versioned_routers_setdefault, bind at 1, get at 1.
  destruct (dict_get (versioned_routers self) k) as [l|] eqn:Ek.
  - unfold ret. pose proof (dict_get_loc _ _ _ Hh Ek) as Hl.
    destruct (extend_spec l [route] self Hh (proj2 Hl))
      as (s & E & Hs & Hlen & Hr & Hu & Ht & Hc & Hd & Ho).
    exists l, s. rewrite E. split; [reflexivity|]. split; [exact Hs|].
    split; [lia|]. split; [exact Hr|]. split; [exact Hu|]. split; [exact Hc|].
    split; [now rewrite Ht|]. split; [now left|]. split.
    + unfold bucket. now rewrite Ek.
    + split; [|split].
      * intros k' l' _ H. now rewrite Ht.
      * intros l' _ Hne. apply Ho. intros ->. now apply Hne.
      * now left.
  - unfold bind at 1, alloc at 1. unfold bind at 1, get at 1.
    unfold bind at 1, put at 1. unfold ret.
    cbn [versioned_routers with_heap].
    set (l := List.length (heap self)).
    match goal with |- context [extend l [route] ?st] => set (s1 := st) end.
    assert (Hs1 : heap_inv s1).
    { destruct Hh as [H1 H2 H3 H4 H5].
      constructor; cbn [heap routes unversioned_routers versioned_routers s1
                          with_versioned_routers with_heap];
        rewrite ?length_app; cbn [List.length]; try lia; try assumption.
      - apply Forall_app. split.
        + eapply Forall_impl; [|exact H4]. cbn. intros; lia.
        + constructor; [cbn; unfold l; lia | constructor].
      - rewrite map_app. apply NoDup_app; [exact H5 | |].
        { constructor; [simpl; tauto | constructor]. }
        intros x Hx [<-|[]]. cbn in Hx.
        apply in_map_iff in Hx as (kv & E & Hin).
        rewrite Forall_forall in H4. specialize (H4 kv Hin).
        destruct kv as [k' l']. cbn [snd] in H4, E. unfold l in E. lia. }
    assert (Hl : l < List.length (heap s1)).
    { cbn [heap s1 with_versioned_routers with_heap]. rewrite length_app.
      cbn. unfold l. lia. }
    destruct (extend_spec l [route] s1 Hs1 Hl)
      as (s & E & Hs & Hlen & Hr & Hu & Ht & Hc & Hd & Ho).
    exists l, s. rewrite E. split; [reflexivity|]. split; [exact Hs|].
    split.
    { rewrite Hlen. cbn [heap s1 with_versioned_routers with_heap].
      rewrite length_app. lia. }
    split; [exact Hr|]. split; [exact Hu|]. split; [exact Hc|].
    split.
    { rewrite Ht. cbn [versioned_routers s1 with_versioned_routers].
      now apply dict_get_app_new. }
    split; [right; split; reflexivity|].
    split.
    { rewrite Hd. unfold bucket. rewrite Ek. f_equal.
      unfold deref. cbn [heap s1 with_versioned_routers with_heap].
      rewrite app_nth2 by (unfold l; lia).
      unfold l. now rewrite Nat.sub_diag. }
    split; [|split].
    + intros k' l' Hne H. rewrite Ht.
      cbn [versioned_routers s1 with_versioned_routers].
      now rewrite dict_get_app_other.
    + intros l' Hl' _. rewrite Ho by (unfold l; lia).
      unfold deref. cbn [heap s1 with_versioned_routers with_heap].
      now apply app_nth1.
    + right. split; [reflexivity|]. rewrite Ht. reflexivity.
Qed.

(** The loop of [include_router]: the added routes go to the end of the
    bucket of [k], in order; nothing else changes. *)
Lemma register_routes_spec (k : string) (added : list BaseRoute)
    (self : VersionAwareAPIRouter) :
  heap_inv self ->
  exists s,
    for_each (register_one k) added self = (Ok tt, s)
    /\ heap_inv s
    /\ List.length (heap self) <= List.length (heap s)
    /\ routes s = routes self
    /\ unversioned_routers s = unversioned_routers self
    /\ lru s = lru self
    /\ (added = [] -> s = self)
    /\ bucket s k = (bucket self k ++ added)%list
    /\ (added <> [] -> exists l, dict_get (versioned_routers s) k = Some l)
    /\ (forall k' l', k' <> k ->
          dict_get (versioned_routers self) k' = Some l' ->
          dict_get (versioned_routers s) k' = Some l')
    /\ (forall l', l' < List.length (heap self) ->
          dict_get (versioned_routers self) k <> Some l' ->
          deref s l' = deref self l')
    /\ (versioned_routers s = versioned_routers self
        \/ (dict_get (versioned_routers self) k = None
            /\ versioned_routers s
               = (versioned_routers self
                  ++ [(k, List.length (heap self))])%list)).
Proof.
  revert self. induction added as [|route added IH]; intros self Hh.
  - exists self. split; [reflexivity|]. split; [exact Hh|].
    rewrite app_nil_r. repeat split; auto; congruence.
  - destruct (register_one_spec k route self Hh)
      as (l & s1 & E1 & Hs1 & Hlen1 & Hr1 & Hu1 & Hc1 & Hk1 & Hor & Hb1
          & Hot1 & Hol1 & Htab1).
    destruct (IH s1 Hs1)
      as (s & E & Hs & Hlen & Hr & Hu & Hc & _ & Hb & _ & Hot & Hol & Htab).
    exists s. split.
    { cbn [for_each]. unfold bind at 1. now rewrite E1. }
    split; [exact Hs|]. split; [lia|]. split; [congruence|].
    split; [congruence|]. split; [congruence|]. split; [discriminate|].
    split.
    { rewrite Hb. unfold bucket at 1. rewrite Hk1, Hb1.
      now rewrite <- app_assoc. }
    split.
    { intros _. unfold bucket in Hb.
      destruct (dict_get (versioned_routers s) k) as [l0|] eqn:E0; [eauto|].
      exfalso. rewrite Hk1, Hb1 in Hb.
      apply (f_equal (@List.length _)) in Hb. rewrite !length_app in Hb.
      simpl in Hb. lia. }
    split; [|split].
    + intros k' l' Hne H. apply (Hot k' l' Hne), (Hot1 k' l' Hne), H.
    + intros l' Hl' Hne. rewrite Hol.
      * now apply Hol1.
      * lia.
      * rewrite Hk1. intros [= <-].
        destruct Hor as [Hor|(_ & Hor)]; [exact (Hne Hor) | lia].
    + destruct Htab as [Htab|(Hnone & _)]; [|rewrite Hk1 in Hnone; discriminate].
      rewrite Htab. exact Htab1.
Qed.

(** The slice of [include_router] when the framework has added one route
    for each route of the router. *)
Lemma slice_from_len_minus_app {A : Type} (x a : list A) :
  slice_from_len_minus (x ++ a) (List.length a) = a.
Proof.
  unfold slice_from_len_minus. cbv zeta. rewrite length_app.
  replace (Nat.leb (List.length a) (List.length x + List.length a)) with true
    by (symmetry; apply Nat.leb_le; lia).
  replace (List.length x + List.length a - List.length a)
    with (List.length x) by lia.
  rewrite skipn_app, skipn_all, Nat.sub_diag. reflexivity.
Qed.

Lemma include_router_versioned_eq (rr appended : list BaseRoute)
    (version : string) (self : VersionAwareAPIRouter) :
  validate_version version = Ok tt ->
  include_router rr appended (Some version) self
  = for_each (register_one (normalize_version version))
      (slice_from_len_minus
         (deref (snd (extend (routes self) appended self)) (routes self))
         (List.length rr))
      (snd (extend (routes self) appended self)).
Proof.
  intros Ev. cbn [include_router]. unfold bind at 1, lift at 1.
  rewrite Ev. reflexivity.
Qed.

Lemma include_router_rejects (rr appended : list BaseRoute)
    (version : string) (self : VersionAwareAPIRouter) (e : exn) :
  validate_version version = Raise e ->
  include_router rr appended (Some version) self = (Raise e, self).
Proof.
  intros Ev. cbn [include_router]. unfold bind at 1, lift at 1.
  now rewrite Ev.
Qed.

Lemma include_router_unversioned_eq (rr appended : list BaseRoute)
    (self : VersionAwareAPIRouter) :
  include_router rr appended None self
  = extend (unversioned_routers self) rr
      (snd (extend (routes self) appended self)).
Proof. reflexivity. Qed.

Lemma include_router_heap_inv (rr appended : list BaseRoute)
    (version : option string) (self : VersionAwareAPIRouter) :
  heap_inv self -> heap_inv (exec (include_router rr appended version) self).
Proof.
  intros Hh. unfold exec.
  destruct (extend_spec (routes self) appended self Hh (hi_routes _ Hh))
    as (s0 & E0 & Hs0 & Hlen0 & Hr0 & Hu0 & _).
  destruct version as [version|].
  - destruct (validate_version version) as [[]|e] eqn:Ev.
    + rewrite (include_router_versioned_eq _ _ _ _ Ev), E0. cbn [snd].
      match goal with
      | |- context [for_each _ ?l s0] =>
          destruct (register_routes_spec (normalize_version version) l s0 Hs0)
            as (s & E & Hs & _)
      end.
      rewrite E. exact Hs.
    + now rewrite (include_router_rejects _ _ _ _ _ Ev).
  - rewrite include_router_unversioned_eq, E0. cbn [snd].
    assert (Hl : unversioned_routers self < List.length (heap s0)).
    { rewrite Hlen0, (hi_unversioned _ Hh). pose proof (hi_len _ Hh). lia. }
    destruct (extend_spec (unversioned_routers self) rr s0 Hs0 Hl)
      as (s & E & Hs & _).
    rewrite E. exact Hs.
Qed.

Lemma heap_inv_same_tables (self s : VersionAwareAPIRouter) :
  heap_inv self -> same_tables self s ->
  routes s < List.length (heap self) -> heap_inv s.
Proof.
  intros [H1 H2 H3 H4 H5] (Eh & Et & Eu) Hr.
  constructor; rewrite ?Eh, ?Et, ?Eu; assumption.
Qed.

(** The list that [_pick_version] returns is the list of a key. *)
Lemma _pick_version_bucket (h : string) (self : VersionAwareAPIRouter)
    (l : loc) :
  outcome (_pick_version h) self = Ok l ->
  exists c, dict_get (versioned_routers self) c = Some l.
Proof.
  unfold outcome. rewrite _pick_version_eq.
  pose proof (group_and_sort_routes_same_tables self) as ((_ & Ht & _) & _).
  unfold exec in Ht.
  destruct (group_and_sort_routes self) as [[g|e0] s1]; cbn [snd fst] in *;
    [|discriminate].
  destruct (if is_valid_date h then _ else _) as [c|e1]; cbn [snd fst];
    [|discriminate].
  unfold dict_getitem.
  cbn [versioned_routers with_returned_version with_requested_version].
  rewrite Ht. destruct (dict_get (versioned_routers self) c) as [l0|] eqn:E;
    [|discriminate].
  intros [= <-]. now exists c.
Qed.

(** The list that is selected is the unversioned list or the list of a
    key. *)
Lemma _get_routes_for_version_selects (h : string)
    (self : VersionAwareAPIRouter) (l : loc) :
  outcome (_get_routes_for_version h) self = Ok l ->
  l = unversioned_routers self
  \/ exists c, dict_get (versioned_routers self) c = Some l.
Proof.
  unfold outcome. destruct (String.eqb_spec h "") as [->|Hne].
  - rewrite _get_routes_for_version_empty. cbn [fst]. intros [= <-]. now left.
  - rewrite (_get_routes_for_version_eq h self Hne).
    pose proof (_pick_version_bucket h self) as Hb.
    pose proof (_pick_version_same_tables h self) as (_ & Ht & _).
    unfold outcome in Hb. unfold exec in Ht.
    destruct (_pick_version h self) as [[l0|e] s1]; cbn [fst snd] in *;
      [|discriminate].
    rewrite Ht. intros [= <-]. right.
    destruct (dict_get (versioned_routers self) h) as [l1|] eqn:E;
      [now exists h | now apply Hb].
Qed.

Lemma call_heap_inv (h : string) (self : VersionAwareAPIRouter) :
  heap_inv self -> heap_inv (exec (__call__ h) self).
Proof.
  intros Hh.
  destruct (_get_routes_for_version_same_tables h self) as (Hs & Hr).
  pose proof (_get_routes_for_version_selects h self) as Hsel.
  unfold exec, outcome in *. rewrite call_eq.
  destruct (_get_routes_for_version h self) as [[l|e] s]; cbn [snd fst] in *.
  - apply (heap_inv_same_tables self); [exact Hh | exact Hs |].
    cbn [routes with_routes].
    destruct (Hsel l eq_refl) as [->|(c & Hc)].
    + rewrite (hi_unversioned _ Hh). pose proof (hi_len _ Hh). lia.
    + exact (proj2 (dict_get_loc _ _ _ Hh Hc)).
  - apply (heap_inv_same_tables self); [exact Hh | exact Hs |].
    rewrite Hr. exact (hi_routes _ Hh).
Qed.

Lemma run_action_heap_inv (a : action) (self : VersionAwareAPIRouter) :
  heap_inv self -> heap_inv (run_action a self).
Proof.
  intros Hh. destruct a as [rr appended version|h|]; cbn [run_action].
  - now apply include_router_heap_inv.
  - now apply call_heap_inv.
  - destruct (group_and_sort_routes_same_tables self) as (Hs & _).
    apply (heap_inv_same_tables self); [exact Hh | exact Hs |].
    replace (routes (exec group_and_sort_routes self)) with (routes self);
      [exact (hi_routes _ Hh)|].
    unfold exec, group_and_sort_routes.
    destruct (lru self); [|destruct (group_and_sort_routes_body self)];
      reflexivity.
Qed.

Lemma run_heap_inv (l : list action) (self : VersionAwareAPIRouter) :
  heap_inv self -> heap_inv (run l self).
Proof.
  revert self. induction l as [|a l IH]; intros self Hh; [exact Hh|].
  apply IH. now apply run_action_heap_inv.
Qed.

Lemma reachable_heap_inv (self : VersionAwareAPIRouter) :
  reachable self -> heap_inv self.
Proof.
  intros (requested & returned & l & ->).
  apply run_heap_inv, init_heap_inv.
Qed.

Lemma NoDup_snd_inj {K V : Type} (d : list (K * V)) (k k' : K) (v : V) :
  NoDup (map snd d) -> In (k, v) d -> In (k', v) d -> k = k'.
Proof.
  induction d as [|[k0 v0] d IH]; intros Hnd H1 H2; [destruct H1|].
  cbn [map snd] in Hnd. apply NoDup_cons_iff in Hnd as (Hnin & Hnd).
  destruct H1 as [H1|H1], H2 as [H2|H2].
  - congruence.
  - exfalso. apply Hnin. injection H1 as _ ->. exact (in_map snd _ _ H2).
  - exfalso. apply Hnin. injection H2 as _ ->. exact (in_map snd _ _ H1).
  - now apply IH.
Qed.

(** ** Where the routes of a router go *)

(** X16.  In every state of a running application each registered key has
    a list object of its own: two keys never share a list, no key's list is
    the unversioned list or the list the router was built with, and
    [self.routes] is one of the lists that exist. *)
Theorem route_lists_are_separate (self : VersionAwareAPIRouter) :
  reachable self ->
  routes self < List.length (heap self)
  /\ unversioned_routers self < List.length (heap self)
  /\ (forall k l, dict_get (versioned_routers self) k = Some l ->
        l < List.length (heap self)
        /\ l <> unversioned_routers self
        /\ l <> routes (__init__ None None))
  /\ (forall k k' l, dict_get (versioned_routers self) k = Some l ->
        dict_get (versioned_routers self) k' = Some l -> k = k').
Proof.
  intros Hr. pose proof (reachable_heap_inv _ Hr) as Hh.
  pose proof (hi_len _ Hh) as Hlen.
  split; [exact (hi_routes _ Hh)|].
  split; [rewrite (hi_unversioned _ Hh); lia|]. split.
  - intros k l Hk. pose proof (dict_get_loc _ _ _ Hh Hk) as Hl.
    rewrite (hi_unversioned _ Hh). cbn [routes __init__]. lia.
  - intros k k' l Hk Hk'.
    exact (NoDup_snd_inj _ k k' l (hi_nodup _ Hh)
             (dict_get_In _ _ _ Hk) (dict_get_In _ _ _ Hk')).
Qed.

Lemma route_lists_are_separate_witness :
  routes app_late_date < List.length (heap app_late_date)
  /\ unversioned_routers app_late_date < List.length (heap app_late_date)
  /\ (forall k l, dict_get (versioned_routers app_late_date) k = Some l ->
        l < List.length (heap app_late_date)
        /\ l <> unversioned_routers app_late_date
        /\ l <> routes (__init__ None None))
  /\ (forall k k' l, dict_get (versioned_routers app_late_date) k = Some l ->
        dict_get (versioned_routers app_late_date) k' = Some l -> k = k').
Proof.
  apply (route_lists_are_separate app_late_date).
  reached_by (setup_v1 ++ late_date)%list.
Defined.

(** What [include_router] does with a version that passes, in terms of the
    routes [added] that the slice yields. *)
Lemma include_router_versioned_spec (rr appended added : list BaseRoute)
    (version k : string) (self : VersionAwareAPIRouter) :
  heap_inv self ->
  validate_version version = Ok tt ->
  k = normalize_version version ->
  added = slice_from_len_minus (deref self (routes self) ++ appended)%list
            (List.length rr) ->
  exists s,
    include_router rr appended (Some version) self = (Ok tt, s)
    /\ routes s = routes self
    /\ unversioned_routers s = unversioned_routers self
    /\ lru s = lru self
    /\ (forall l, l < List.length (heap self) ->
          dict_get (versioned_routers self) k <> Some l ->
          deref s l
          = (deref self l
             ++ (if Nat.eqb l (routes self) then appended else []))%list)
    /\ (forall l, dict_get (versioned_routers self) k = Some l ->
          versioned_routers s = versioned_routers self
          /\ deref s l
             = (deref self l
                ++ (if Nat.eqb l (routes self) then appended else [])
                ++ added)%list)
    /\ (dict_get (versioned_routers self) k = None -> added <> [] ->
          versioned_routers s
          = (versioned_routers self ++ [(k, List.length (heap self))])%list
          /\ deref s (List.length (heap self)) = added)
    /\ (dict_get (versioned_routers self) k = None -> added = [] ->
          versioned_routers s = versioned_routers self).
Proof.
  intros Hh Ev -> ->.
  destruct (extend_spec (routes self) appended self Hh (hi_routes _ Hh))
    as (s0 & E0 & Hs0 & Hlen0 & Hr0 & Hu0 & Ht0 & Hc0 & Hd0 & Ho0).
  rewrite (include_router_versioned_eq _ _ _ _ Ev), E0. cbn [snd].
  rewrite Hd0.
  set (k := normalize_version version).
  set (added := slice_from_len_minus _ _).
  destruct (register_routes_spec k added s0 Hs0)
    as (s & E & Hs & Hlen & Hr & Hu & Hc & Hnil & Hb & Hex & Hot & Hol & Htab).
  assert (Hs0l : forall l, deref s0 l
                 = (deref self l
                    ++ (if Nat.eqb l (routes self) then appended else []))%list).
  { intros l. destruct (Nat.eqb_spec l (routes self)) as [->|Hne].
    - exact Hd0.
    - rewrite app_nil_r. now apply Ho0. }
  exists s. split; [exact E|]. split; [congruence|]. split; [congruence|].
  split; [congruence|]. split; [|split; [|split]].
  - intros l Hl Hne. rewrite <- Hs0l. apply Hol; [lia|]. now rewrite Ht0.
  - intros l Hk.
    assert (Et : versioned_routers s = versioned_routers self).
    { destruct Htab as [Htab|(Hnone & _)]; [congruence|].
      rewrite Ht0, Hk in Hnone. discriminate. }
    split; [exact Et|]. unfold bucket in Hb. rewrite Et, Ht0, Hk in Hb.
    now rewrite Hb, Hs0l, <- app_assoc.
  - intros Hk Hne. destruct (Hex Hne) as (l & Hl).
    destruct Htab as [Htab|(_ & Htab)].
    + rewrite Htab, Ht0, Hk in Hl. discriminate.
    + rewrite Ht0, Hlen0 in Htab. split; [exact Htab|].
      unfold bucket in Hb. rewrite Ht0, Hk, Htab in Hb.
      now rewrite (dict_get_app_new _ _ _ Hk) in Hb.
  - intros _ Hnil'. rewrite (Hnil Hnil'). exact Ht0.
Qed.

(** X17.  A router that is included under a version that passes, and of
    which the framework has added one route for each of its routes, goes to
    the end of the bucket of the normal form of the version, which is
    created when it is missing and the router has routes.  The framework's
    own copy goes to [self.routes]; when [self.routes] is that bucket (a
    request has selected it) the bucket receives the routes twice.  Every
    other list and key, and the memoised index, are what they were. *)
Theorem include_router_registers (rr appended : list BaseRoute)
    (version : string) (self : VersionAwareAPIRouter) :
  reachable self ->
  validate_version version = Ok tt ->
  List.length appended = List.length rr ->
  exists s,
    include_router rr appended (Some version) self = (Ok tt, s)
    /\ routes s = routes self
    /\ unversioned_routers s = unversioned_routers self
    /\ lru s = lru self
    /\ (forall l, l < List.length (heap self) ->
          dict_get (versioned_routers self) (normalize_version version)
          <> Some l ->
          deref s l
          = (deref self l
             ++ (if Nat.eqb l (routes self) then appended else []))%list)
    /\ (forall l,
          dict_get (versioned_routers self) (normalize_version version)
          = Some l ->
          versioned_routers s = versioned_routers self
          /\ deref s l
             = (deref self l
                ++ (if Nat.eqb l (routes self) then appended else [])
                ++ appended)%list)
    /\ (dict_get (versioned_routers self) (normalize_version version) = None ->
        appended <> [] ->
        versioned_routers s
        = (versioned_routers self
           ++ [(normalize_version version, List.length (heap self))])%list
        /\ deref s (List.length (heap self)) = appended)
    /\ (dict_get (versioned_routers self) (normalize_version version) = None ->
        appended = [] ->
        versioned_routers s = versioned_routers self).
Proof.
  intros Hr Ev Hlen.
  apply (include_router_versioned_spec rr appended appended version
           (normalize_version version) self
           (reachable_heap_inv _ Hr) Ev eq_refl).
  now rewrite <- Hlen, slice_from_len_minus_app.
Qed.

Lemma include_router_registers_witness :
  exists s,
    include_router heroes heroes (Some "1.0.0")
      (run [Request "v1.0.0"] app_v1) = (Ok tt, s)
    /\ versioned_routers s = [("v1.0.0", 2)]
    /\ deref s 2 = (heroes ++ heroes ++ heroes)%list
    /\ deref s 1 = docs.
Proof.
  destruct (include_router_registers heroes heroes "1.0.0"
              (run [Request "v1.0.0"] app_v1))
    as (s & E & _ & _ & _ & Ho & Hk & _).
  - reached_by (setup_v1 ++ [Request "v1.0.0"])%list.
  - reflexivity.
  - reflexivity.
  - exists s. split; [exact E|].
    destruct (Hk 2 eq_refl) as (Et & Hd).
    split; [exact Et|]. split; [exact Hd|].
    exact (Ho 1 (le_n_S _ _ (le_n_S _ _ (Nat.le_0_l _))) ltac:(discriminate)).
Defined.



(** X19.  A router that is included without a version goes to the
    unversioned routes as it is ([router.routes]) and the framework's copy
    goes to [self.routes]; when [self.routes] is the unversioned list (a
    request without a version has selected it) that list receives both.
    The route table, every other list and the memoised index are what they
    were. *)
Theorem include_router_unversioned (rr appended : list BaseRoute)
    (self : VersionAwareAPIRouter) :
  reachable self ->
  exists s,
    include_router rr appended None self = (Ok tt, s)
    /\ versioned_routers s = versioned_routers self
    /\ routes s = routes self
    /\ unversioned_routers s = unversioned_routers self
    /\ lru s = lru self
    /\ forall l,
         deref s l
         = (deref self l
            ++ (if Nat.eqb l (routes self) then appended else [])
            ++ (if Nat.eqb l (unversioned_routers self) then rr else []))%list.
Proof.
  intros Hr. pose proof (reachable_heap_inv _ Hr) as Hh.
  destruct (extend_spec (routes self) appended self Hh (hi_routes _ Hh))
    as (s0 & E0 & Hs0 & Hlen0 & Hr0 & Hu0 & Ht0 & Hc0 & Hd0 & Ho0).
  assert (Hl : unversioned_routers self < List.length (heap s0)).
  { rewrite Hlen0, (hi_unversioned _ Hh). pose proof (hi_len _ Hh). lia. }
  destruct (extend_spec (unversioned_routers self) rr s0 Hs0 Hl)
    as (s & E & Hs & Hlen & Hr1 & Hu1 & Ht1 & Hc1 & Hd1 & Ho1).
  exists s. rewrite include_router_unversioned_eq, E0. cbn [snd].
  split; [exact E|]. split; [congruence|]. split; [congruence|].
  split; [congruence|]. split; [congruence|].
  intros l.
  assert (Hs0l : deref s0 l
                 = (deref self l
                    ++ (if Nat.eqb l (routes self) then appended else []))%list).
  { destruct (Nat.eqb_spec l (routes self)) as [->|Hne].
    - exact Hd0.
    - rewrite app_nil_r. now apply Ho0. }
  destruct (Nat.eqb_spec l (unversioned_routers self)) as [->|Hne].
  - now rewrite Hd1, Hs0l, <- app_assoc.
  - now rewrite (Ho1 l Hne), Hs0l, app_nil_r.
Qed.

Lemma include_router_unversioned_witness :
  exists s,
    include_router docs docs None (run [Request ""] (__init__ None None))
    = (Ok tt, s)
    /\ deref s 1 = (docs ++ docs)%list
    /\ deref s 0 = [].
Proof.
  destruct (include_router_unversioned docs docs
              (run [Request ""] (__init__ None None)))
    as (s & E & _ & _ & _ & _ & Hd).
  - reached_by [Request ""].
  - exists s. split; [exact E|]. split; [exact (Hd 1) | exact (Hd 0)].
Defined.

(** X20.  Including, under a version that passes, a router that has no
    routes changes nothing: no bucket is made for the version. *)
Theorem include_router_without_routes (version : string)
    (self : VersionAwareAPIRouter) :
  validate_version version = Ok tt ->
  include_router [] [] (Some version) self = (Ok tt, self).
Proof.
  intros Ev. rewrite (include_router_versioned_eq _ _ _ _ Ev).
  unfold extend. cbn [snd].
  rewrite update_nth_id by (intros x; apply app_nil_r).
  replace (with_heap (heap self) self) with self by (now destruct self).
  unfold slice_from_len_minus. cbv zeta. cbn [List.length Nat.leb].
  rewrite Nat.sub_0_r, skipn_all. reflexivity.
Qed.

Lemma include_router_without_routes_witness :
  include_router [] [] (Some "2.0.0") app_v1 = (Ok tt, app_v1).
Proof.
  apply (include_router_without_routes "2.0.0" app_v1). reflexivity.
Defined.

(* ================================================================== *)
(** * Statements about middleware.py *)
(* ================================================================== *)

(** ** The table of the routes that are skipped *)

Lemma dict_get_setitem {V : Type} (d : list (string * V)) (k k' : string)
    (v : V) :
  dict_get (dict_setitem d k v) k'
  = if String.eqb k' k then Some v else dict_get d k'.
Proof.
  induction d as [|[k0 v0] d IH]; cbn [dict_setitem dict_get].
  - reflexivity.
  - destruct (String.eqb_spec k k0) as [->|Hne]; cbn [dict_get].
    + destruct (String.eqb_spec k' k0); reflexivity.
    + rewrite IH. destruct (String.eqb_spec k' k0) as [->|Hne'];
        [|reflexivity].
      destruct (String.eqb_spec k0 k); [congruence | reflexivity].
Qed.

(** The last route of a path decides. *)
Lemma _build_skipped_routes_lookup (app_routes : list AppRoute) (k : string) :
  dict_get (_build_skipped_routes app_routes) k
  = match find (fun route => String.eqb (path route) k) (rev app_routes) with
    | Some route => Some (negb (getattr_include_in_schema route))
    | None => None
    end.
Proof.
  unfold _build_skipped_routes. rewrite <- fold_left_rev_right.
  induction (rev app_routes) as [|route l IH]; cbn [fold_right find];
    [reflexivity|].
  rewrite dict_get_setitem, IH, String.eqb_sym.
  destruct (String.eqb (path route) k); reflexivity.
Qed.

Lemma find_rev_last {A : Type} (f : A -> bool) (l : list A) (x : A) :
  find f (rev l) = Some x <->
  exists pre post, l = (pre ++ x :: post)%list /\ f x = true
                   /\ Forall (fun y => f y = false) post.
Proof.
  induction l as [|a l IH] using rev_ind.
  - split; [discriminate|]. intros (pre & post & E & _).
    destruct pre; discriminate.
  - rewrite rev_app_distr. cbn [rev app find].
    destruct (f a) eqn:Ea.
    + split.
      * intros [= ->]. exists l, []. auto.
      * intros (pre & post & E & Hx & Hpost).
        destruct post as [|b post] using rev_ind.
        -- apply app_inj_tail in E as (_ & ->). reflexivity.
        -- clear IHpost. rewrite app_comm_cons, app_assoc in E.
           apply app_inj_tail in E as (_ & ->).
           apply Forall_app in Hpost as (_ & Hb).
           inversion Hb; congruence.
    + rewrite IH. split.
      * intros (pre & post & -> & Hx & Hpost).
        exists pre, (post ++ [a])%list. rewrite <- app_assoc.
        split; [reflexivity|]. split; [exact Hx|].
        apply Forall_app. auto.
      * intros (pre & post & E & Hx & Hpost).
        destruct post as [|b post] using rev_ind.
        -- apply app_inj_tail in E as (_ & ->). congruence.
        -- clear IHpost. rewrite app_comm_cons, app_assoc in E.
           apply app_inj_tail in E as (-> & ->).
           exists pre, post. split; [reflexivity|]. split; [exact Hx|].
           now apply Forall_app in Hpost as (Hpost & _).
Qed.

(** X21.  The middleware skips the validation of a request exactly when
    the last route of the application whose path is the request's path
    without its final slashes is excluded from the schema
    ([include_in_schema=False]); earlier routes of that path and routes
    that lack the attribute do not count. *)
Theorem _should_skip_validation_last_route (app_routes : list AppRoute)
    (url_path : string) :
  _should_skip_validation (_build_skipped_routes app_routes) url_path = true
  <->
  exists pre route post,
    app_routes = (pre ++ route :: post)%list
    /\ path route = rstrip "/" url_path
    /\ include_in_schema route = Some false
    /\ Forall (fun later => path later <> rstrip "/" url_path) post.
Proof.
  unfold _should_skip_validation. rewrite _build_skipped_routes_lookup.
  destruct (find _ (rev app_routes)) as [route|] eqn:E.
  - apply find_rev_last in E as (pre & post & -> & Hp & Hpost).
    apply String.eqb_eq in Hp.
    assert (Hpost' : Forall (fun later => path later <> rstrip "/" url_path)
                       post).
    { eapply Forall_impl; [|exact Hpost]. cbn beta. intros later H.
      now apply String.eqb_neq. }
    split.
    + intros Hs. exists pre, route, post. split; [reflexivity|].
      split; [exact Hp|]. split; [|exact Hpost'].
      unfold getattr_include_in_schema in Hs.
      destruct (include_in_schema route) as [[|]|]; try discriminate.
      reflexivity.
    + intros (pre' & route' & post' & E & Hp' & Hs' & Hpost'').
      assert (Hfind : find (fun r => String.eqb (path r) (rstrip "/" url_path))
                        (rev (pre ++ route :: post))
                      = Some route').
      { apply find_rev_last. exists pre', post'. split; [exact E|].
        split; [now apply String.eqb_eq|].
        eapply Forall_impl; [|exact Hpost'']. cbn beta. intros later H.
        now apply String.eqb_neq. }
      assert (Hfind0 : find (fun r => String.eqb (path r) (rstrip "/" url_path))
                         (rev (pre ++ route :: post))
                       = Some route).
      { apply find_rev_last. exists pre, post. split; [reflexivity|].
        split; [now apply String.eqb_eq | exact Hpost]. }
      rewrite Hfind0 in Hfind. injection Hfind as ->.
      unfold getattr_include_in_schema. now rewrite Hs'.
  - split; [discriminate|].
    intros (pre & route & post & -> & Hp & _).
    assert (Hin : In route (rev (pre ++ route :: post))).
    { apply in_rev. rewrite rev_involutive. apply in_elt. }
    pose proof (find_none _ _ E route Hin) as Hf. cbn beta in Hf.
    apply String.eqb_neq in Hf. exfalso. now apply Hf.
Qed.

Lemma _should_skip_validation_last_route_witness :
  _should_skip_validation
    (_build_skipped_routes
       [mkAppRoute "/docs" (Some true); mkAppRoute "/docs" (Some false);
        mkAppRoute "/heroes" None])
    "/docs//" = true.
Proof.
  apply (proj2 (_should_skip_validation_last_route _ "/docs//")).
  exists [mkAppRoute "/docs" (Some true)], (mkAppRoute "/docs" (Some false)),
    [mkAppRoute "/heroes" None].
  split; [reflexivity|]. split; [reflexivity|]. split; [reflexivity|].
  constructor; [discriminate | constructor].
Defined.

Lemma rstrip_not_ends (c : ascii) (s : string) : ~ ends_in c (rstrip c s).
Proof.
  induction s as [|a s IH]; cbn [rstrip].
  - intros ([|b q] & E); discriminate.
  - destruct (rstrip c s) as [|b r] eqn:Er.
    + destruct (Ascii.eqb_spec a c) as [->|Hne].
      * intros ([|b q] & E); discriminate.
      * intros ([|b q] & E); cbn in E.
        -- injection E as ->. now apply Hne.
        -- injection E as _ E. destruct q; discriminate.
    + intros ([|b' q] & E); cbn in E.
      * discriminate.
      * injection E as _ E. apply IH. now exists q.
Qed.

Lemma rstrip_app (c : ascii) (s : string) :
  rstrip c (s ++ String c EmptyString) = rstrip c s.
Proof.
  induction s as [|a s IH].
  - cbn. now rewrite Ascii.eqb_refl.
  - cbn [append rstrip]. now rewrite IH.
Qed.

(** X22.  Final slashes of the request's path do not count, and the paths
    of the routes are looked up as they are: when every route that is
    excluded from the schema has a path that ends in a slash (the root path
    [/] is one), the middleware skips no request at all. *)
Theorem _should_skip_validation_trailing_slash
    (skipped_routes : list (string * bool)) (app_routes : list AppRoute)
    (url_path : string) :
  _should_skip_validation skipped_routes (url_path ++ "/")
  = _should_skip_validation skipped_routes url_path
  /\ (Forall (fun route => include_in_schema route = Some false ->
                           ends_in "/" (path route)) app_routes ->
      _should_skip_validation (_build_skipped_routes app_routes) url_path
      = false).
Proof.
  split.
  - unfold _should_skip_validation. now rewrite rstrip_app.
  - intros H. unfold _should_skip_validation.
    rewrite _build_skipped_routes_lookup.
    destruct (find _ (rev app_routes)) as [route|] eqn:E; [|reflexivity].
    apply find_some in E as (Hin & Hp). apply String.eqb_eq in Hp.
    apply in_rev in Hin. rewrite Forall_forall in H. specialize (H route Hin).
    unfold getattr_include_in_schema.
    destruct (include_in_schema route) as [[|]|]; try reflexivity.
    exfalso. apply (rstrip_not_ends "/" url_path). rewrite <- Hp. now apply H.
Qed.

Lemma _should_skip_validation_trailing_slash_witness :
  _should_skip_validation (_build_skipped_routes [mkAppRoute "/" (Some false)])
    "/" = false.
Proof.
  apply (_should_skip_validation_trailing_slash [] [mkAppRoute "/" (Some false)]
           "/").
  constructor; [|constructor]. intros _. now exists "".
Defined.

(** ** [dispatch] *)

Lemma validate_header_raises (header : option string) :
  validate_header header <> Ok tt ->
  exists detail,
    validate_header header = Raise (HTTPException 422 detail)
    /\ ((header = None \/ header = Some "") ->
        detail = "Version header is missing")
    /\ (header <> None -> header <> Some "" ->
        detail = "Invalid version format").
Proof.
  destruct header as [v|]; cbn [validate_header].
  - intros Hne.
    destruct (validate_version_accepts_aux v) as (Hiff & _ & Hempty & Hbad).
    destruct (String.eqb_spec v "") as [->|Hv].
    + exists "Version header is missing". split; [now apply Hempty|].
      split; [reflexivity|]. intros _ H. now contradiction H.
    + exists "Invalid version format".
      assert (Hv1 : is_valid_version v = false).
      { destruct (is_valid_version v) eqn:E1; [|reflexivity].
        exfalso. apply Hne, Hiff. left. split; [reflexivity|].
        destruct (is_valid_date v) eqn:E2; [|reflexivity].
        rewrite (is_valid_date_not_version _ E2) in E1. discriminate. }
      assert (Hv2 : is_valid_date v = false).
      { destruct (is_valid_date v) eqn:E2; [|reflexivity].
        exfalso. apply Hne, Hiff. right. now split. }
      split; [now apply Hbad|]. split; [|reflexivity].
      intros [H|[= H]]; [discriminate | now contradiction Hv].
  - intros _. exists "Version header is missing".
    split; [reflexivity|]. split; [reflexivity|]. intros H. now contradiction H.
Qed.

(** X23.  [dispatch] lets no [HTTPException] out.  A request on a path that
    is not skipped, whose version header is absent, empty or badly formed,
    is answered with status 422 and the detail of [validate_version]
    whatever the application would do: it is not reached.  A response of
    the application is passed on only when the path is skipped or the
    header is a valid version or date. *)
Theorem dispatch_answers {R : Type} (skipped_routes : list (string * bool))
    (url_path : string) (header : option string) (call_next : result R) :
  (forall status_code detail,
     dispatch skipped_routes url_path header call_next
     <> Raise (HTTPException status_code detail))
  /\ (_should_skip_validation skipped_routes url_path = false ->
      validate_header header <> Ok tt ->
      exists detail,
        (forall call_next' : result R,
           dispatch skipped_routes url_path header call_next'
           = Ok (JSONResponse detail 422))
        /\ ((header = None \/ header = Some "") ->
            detail = "Version header is missing")
        /\ (header <> None -> header <> Some "" ->
            detail = "Invalid version format"))
  /\ (forall r,
        dispatch skipped_routes url_path header call_next = Ok (Next r) ->
        call_next = Ok r
        /\ (_should_skip_validation skipped_routes url_path = true
            \/ exists v, header = Some v
                         /\ (is_valid_version v = true
                             \/ is_valid_date v = true)))
  /\ (_should_skip_validation skipped_routes url_path = true
      \/ validate_header header = Ok tt ->
      dispatch skipped_routes url_path header call_next
      = match call_next with
        | Ok r => Ok (Next r)
        | Raise (HTTPException status_code detail) =>
            Ok (JSONResponse detail status_code)
        | Raise e => Raise e
        end).
Proof.
  unfold dispatch. cbv zeta.
  destruct (_should_skip_validation skipped_routes url_path) eqn:Es.
  - split; [|split; [|split]].
    + intros sc d. destruct call_next as [r|[]]; discriminate.
    + discriminate.
    + intros r. destruct call_next as [r'|[]]; try discriminate.
      intros [= ->]. auto.
    + intros _. destruct call_next as [r|[]]; reflexivity.
  - destruct (validate_header header) as [[]|e] eqn:Ev.
    + split; [|split; [|split]].
      * intros sc d. destruct call_next as [r|[]]; discriminate.
      * intros _ H. now contradiction H.
      * intros r. destruct call_next as [r'|[]]; try discriminate.
        intros [= ->]. split; [reflexivity|]. right.
        destruct header as [v|]; [|discriminate]. exists v.
        split; [reflexivity|]. cbn [validate_header] in Ev.
        destruct (proj1 (proj1 (validate_version_accepts_aux v)) Ev)
          as [(H & _)|(H & _)]; auto.
      * intros _. destruct call_next as [r|[]]; reflexivity.
    + assert (Hne : validate_header header <> Ok tt) by (rewrite Ev; discriminate).
      destruct (validate_header_raises header Hne) as (detail & E & H1 & H2).
      rewrite Ev in E. injection E as ->.
      split; [|split; [|split]].
      * discriminate.
      * intros _ _. exists detail. split; [|split; assumption].
        intros call_next'. reflexivity.
      * discriminate.
      * intros [H|H]; discriminate.
Qed.

Lemma dispatch_answers_witness :
  exists detail,
    (forall call_next' : result nat,
       dispatch (_build_skipped_routes [mkAppRoute "/docs" (Some false)])
         "/heroes" (Some "1.0") call_next'
       = Ok (JSONResponse detail 422))
    /\ ((Some "1.0" = None \/ Some "1.0" = Some "") ->
        detail = "Version header is missing")
    /\ (Some "1.0" <> None -> Some "1.0" <> Some "" ->
        detail = "Invalid version format").
Proof.
  apply (proj1 (proj2 (dispatch_answers
                         (_build_skipped_routes [mkAppRoute "/docs" (Some false)])
                         "/heroes" (Some "1.0") (Ok 0)))).
  - reflexivity.
  - discriminate.
Defined.

(* ================================================================== *)
(** * Statements about the least key *)
(* ================================================================== *)

Lemma min_str_In (x : string) (xs : list string) : In (min_str x xs) (x :: xs).
Proof.
  unfold min_str. revert x. induction xs as [|y xs IH]; intros x; simpl.
  - now left.
  - destruct (IH (if String.ltb y x then y else x)) as [H|H].
    + rewrite <- H. destruct (String.ltb y x); auto.
    + auto.
Qed.

(** [min] returns a least element. *)
Lemma min_str_le (x : string) (xs : list string) :
  forall y, In y (x :: xs) -> StrOrder.le (min_str x xs) y.
Proof.
  unfold min_str. revert x. induction xs as [|z xs IH]; intros x y Hy.
  - destruct Hy as [<-|[]]. apply str_le_refl.
  - simpl. destruct Hy as [<-|[<-|Hy]].
    + apply (str_le_trans _ (if String.ltb z x then z else x)).
      * apply IH. now left.
      * destruct (String.ltb z x) eqn:E;
          [now apply str_lt_le | apply str_le_refl].
    + apply (str_le_trans _ (if String.ltb z x then z else x)).
      * apply IH. now left.
      * destruct (String.ltb z x) eqn:E; [apply str_le_refl | exact E].
    + apply IH. now right.
Qed.

Lemma keys_of_kind_valid (is_date : bool) (d : list (string * loc))
    (c : string) :
  In c (keys_of_kind is_date d) ->
  In c (keys d)
  /\ (if is_date then is_valid_date c else is_valid_version c) = true.
Proof.
  destruct is_date; cbn [keys_of_kind]; intros H.
  - now apply date_keys_In.
  - now apply version_keys_In.
Qed.

(** The first call of [_get_min_version_or_date] for one kind of key, while
    the memoised index is up to date. *)
Lemma _get_min_version_or_date_first (is_date : bool) (self : MemoRouter) :
  router_inv (base self) -> index_fresh (base self) ->
  min_lru self is_date = None ->
  exists m s,
    _get_min_version_or_date is_date self = (Ok m, s)
    /\ min_lru s is_date = Some m
    /\ same_tables (base self) (base s)
    /\ (keys_of_kind is_date (versioned_routers (base self)) = [] ->
        m = if is_date then "" else datetime_max_isoformat)
    /\ (keys_of_kind is_date (versioned_routers (base self)) <> [] ->
        In m (keys_of_kind is_date (versioned_routers (base self)))
        /\ forall c,
             In c (keys_of_kind is_date (versioned_routers (base self))) ->
             String.ltb c m = false).
Proof.
  intros Hinv Hf Hm.
  destruct (fresh_served (base self) Hinv Hf) as (g & s1 & Eg & Et & (Hd & Hv)).
  pose proof (group_and_sort_routes_same_tables (base self)) as (Hsame & _).
  unfold exec in Hsame. rewrite Eg in Hsame. cbn [snd] in Hsame.
  unfold _get_min_version_or_date. rewrite Hm, Eg. cbv zeta.
  eexists. eexists. split; [reflexivity|]. cbn [min_lru base].
  rewrite Bool.eqb_reflx. split; [reflexivity|]. split; [exact Hsame|].
  assert (Hk : keys (if is_date then sorted_date_routes g
                     else sorted_version_routes g)
               = Py.sorted (keys_of_kind is_date (versioned_routers (base self))))
    by (destruct is_date; assumption).
  rewrite Hk.
  set (ks := keys_of_kind is_date (versioned_routers (base self))).
  split.
  - intros E. rewrite E. reflexivity.
  - intros Hne. destruct (Py.sorted ks) as [|x xs] eqn:Es.
    + exfalso. apply Hne. apply (f_equal (@List.length _)) in Es.
      rewrite sorted_length in Es. now destruct ks.
    + cbn [min_default]. split.
      * apply (proj1 (sorted_In _ ks)). rewrite Es. apply min_str_In.
      * intros c Hc. apply (min_str_le x xs). rewrite <- Es.
        now apply (proj2 (sorted_In c ks)).
Qed.



(** ** [_get_version] *)

(** X25.  [_get_version] hands a version of the query string back as it
    is, whatever it spells, and so does it, also without a version, when
    the dashboard is shown.  Without a version and without the dashboard
    it raises [StopIteration] while no version or date is registered;
    otherwise, on its first call and while the memoised index is up to
    date, it returns the registered key that is first in the order of
    strings among the keys of the kind (date or version) of the key that
    was registered first. *)
Theorem _get_version_default (show_dashboard : bool)
    (version : option string) (self : MemoRouter) :
  (truthy version = true \/ show_dashboard = true ->
   _get_version show_dashboard version self = (Returned version, self))
  /\ (truthy version = false -> show_dashboard = false ->
      keys (versioned_routers (base self)) = [] ->
      _get_version show_dashboard version self = (StopIteration, self))
  /\ (truthy version = false -> show_dashboard = false ->
      reachable (base self) -> index_fresh (base self) ->
      (forall b, min_lru self b = None) ->
      forall first_key rest,
        keys (versioned_routers (base self)) = first_key :: rest ->
        exists m s,
          _get_version show_dashboard version self = (Returned (Some m), s)
          /\ In m (keys (versioned_routers (base self)))
          /\ is_valid_version m = is_valid_version first_key
          /\ forall c, In c (keys (versioned_routers (base self))) ->
                       is_valid_version c = is_valid_version first_key ->
                       String.ltb c m = false).
Proof.
  unfold _get_version. split; [|split].
  - intros [H| ->]; [rewrite H|]; cbn [negb andb]; [reflexivity|].
    now rewrite andb_false_r.
  - intros -> -> ->. reflexivity.
  - intros -> -> Hr Hf Hmemo first_key rest Ek. cbn [negb andb]. rewrite Ek.
    pose proof (reachable_inv _ Hr) as Hinv.
    assert (Hfirst : In first_key (keys (versioned_routers (base self))))
      by (rewrite Ek; now left).
    assert (Hkind : forall c, In c (keys (versioned_routers (base self))) ->
              (In c (keys_of_kind (negb (is_valid_version first_key))
                       (versioned_routers (base self)))
               <-> is_valid_version c = is_valid_version first_key)).
    { intros c Hc.
      pose proof (inv_keys_ok _ Hinv) as Hok. rewrite Forall_forall in Hok.
      assert (Hx : forall k, In k (keys (versioned_routers (base self))) ->
                is_valid_date k = negb (is_valid_version k)).
      { intros k Hk. destruct (key_ok_valid k (Hok k Hk)) as [H|H].
        - now rewrite H, (is_valid_date_not_version _ H).
        - rewrite H. destruct (is_valid_date k) eqn:E; [|reflexivity].
          rewrite (is_valid_date_not_version _ E) in H. discriminate. }
      destruct (is_valid_version first_key) eqn:E1; cbn [negb keys_of_kind].
      - rewrite version_keys_In. tauto.
      - rewrite date_keys_In, (Hx c Hc).
        destruct (is_valid_version c); cbn [negb]; intuition congruence. }
    destruct (_get_min_version_or_date_first
                (negb (is_valid_version first_key)) self Hinv Hf (Hmemo _))
      as (m & s & E & _ & _ & _ & Hcons).
    rewrite E. exists m, s. split; [reflexivity|]. rewrite <- Ek.
    destruct Hcons as (Hin & Hle).
    { intros Hnil. pose proof (proj2 (Hkind first_key Hfirst) eq_refl) as H.
      rewrite Hnil in H. destruct H. }
    pose proof (proj1 (keys_of_kind_valid _ _ _ Hin)) as Hm.
    split; [exact Hm|]. split; [now apply (proj1 (Hkind m Hm))|].
    intros c Hc Hcv. apply Hle. now apply (proj2 (Hkind c Hc)).
Qed.

Lemma _get_version_default_witness :
  exists m s,
    _get_version false None (mkMemoRouter app_v1_9_and_v1_10 (fun _ => None))
    = (Returned (Some m), s)
    /\ In m (keys (versioned_routers app_v1_9_and_v1_10))
    /\ is_valid_version m = is_valid_version "v1.9.0"
    /\ forall c, In c (keys (versioned_routers app_v1_9_and_v1_10)) ->
                 is_valid_version c = is_valid_version "v1.9.0" ->
                 String.ltb c m = false.
Proof.
  refine (proj2 (proj2 (_get_version_default false None
                          (mkMemoRouter app_v1_9_and_v1_10 (fun _ => None))))
            eq_refl eq_refl _ _ _ "v1.9.0" ["v1.10.0"] _).
  - exists None, None,
      [Include heroes heroes (Some "v1.9.0");
       Include heroes heroes (Some "v1.10.0")].
    reflexivity.
  - intros g Hg. vm_compute in Hg. discriminate Hg.
  - reflexivity.
  - reflexivity.
Defined.

(* ================================================================== *)
(** * Statements about the OpenAPI documents *)
(* ================================================================== *)

Section Swaggers.
Context {OpenAPI : Type}.
Variable get_openapi : list BaseRoute -> string -> OpenAPI.
Variable has_paths : OpenAPI -> bool.

(** The loop of [enrich_swagger]: a key that has a document keeps it, a key
    of the table that has none takes the document of its list. *)
Lemma enrich_swagger_loop (r : VersionAwareAPIRouter)
    (table : list (string * loc)) (sw : list (string * OpenAPI)) (k : string) :
  dict_get
    (fold_left
       (fun sw item =>
          match dict_get sw (fst item) with
          | Some _ => sw
          | None =>
              dict_setitem sw (fst item)
                (get_openapi (deref r (snd item)) (fst item))
          end)
       table sw) k
  = match dict_get sw k with
    | Some d => Some d
    | None =>
        match dict_get table k with
        | Some l => Some (get_openapi (deref r l) k)
        | None => None
        end
    end.
Proof.
  revert sw. induction table as [|[k0 l0] table IH]; intros sw.
  - cbn. now destruct (dict_get sw k).
  - cbn [fold_left fst snd]. rewrite IH. cbn [dict_get].
    destruct (dict_get sw k0) as [d0|] eqn:E0.
    + destruct (String.eqb_spec k k0) as [->|Hne]; [now rewrite E0|].
      reflexivity.
    + rewrite dict_get_setitem.
      destruct (String.eqb_spec k k0) as [->|Hne]; [now rewrite E0|].
      reflexivity.
Qed.

Lemma enrich_swagger_lookup (self : handlers.HeaderBasedVersionHandler OpenAPI)
    (k : string) :
  k <> "unversioned" ->
  dict_get (handlers.swaggers
              (handlers.enrich_swagger get_openapi has_paths self)) k
  = match dict_get (handlers.swaggers self) k with
    | Some d => Some d
    | None =>
        match dict_get (versioned_routers (handlers.router self)) k with
        | Some l => Some (get_openapi (deref (handlers.router self) l) k)
        | None => None
        end
    end.
Proof.
  intros Hne. unfold handlers.enrich_swagger. cbv zeta.
  cbn [handlers.swaggers]. rewrite enrich_swagger_loop.
  destruct (has_paths _); [|reflexivity].
  rewrite dict_get_setitem.
  destruct (String.eqb_spec k "unversioned"); [contradiction | reflexivity].
Qed.

Lemma enrich_swagger_keeps (self : handlers.HeaderBasedVersionHandler OpenAPI)
    (k : string) :
  dict_get (handlers.swaggers self) k <> None ->
  dict_get (handlers.swaggers
              (handlers.enrich_swagger get_openapi has_paths self)) k
  <> None.
Proof.
  intros H. unfold handlers.enrich_swagger. cbv zeta.
  cbn [handlers.swaggers]. rewrite enrich_swagger_loop.
  destruct (has_paths _).
  - rewrite dict_get_setitem. destruct (String.eqb k "unversioned");
      [discriminate|].
    destruct (dict_get (handlers.swaggers self) k); [discriminate|].
    now contradiction H.
  - destruct (dict_get (handlers.swaggers self) k); [discriminate|].
    now contradiction H.
Qed.

Lemma enrich_swagger_router (self : handlers.HeaderBasedVersionHandler OpenAPI) :
  handlers.router (handlers.enrich_swagger get_openapi has_paths self)
  = handlers.router self.
Proof. reflexivity. Qed.

(** [include_router] raises before it changes anything, or returns. *)
Lemma include_router_outcome (rr appended : list BaseRoute)
    (version : option string) (self : VersionAwareAPIRouter) :
  include_router rr appended version self
  = (Ok tt, exec (include_router rr appended version) self)
  \/ exists e, include_router rr appended version self = (Raise e, self).
Proof.
  destruct (include_router_run rr appended version self)
    as (r & s & E & _).
  destruct version as [version|].
  - destruct (validate_version version) as [[]|e] eqn:Ev.
    + left. unfold exec.
      rewrite (include_router_versioned_eq _ _ _ _ Ev).
      match goal with
      | |- context [for_each ?f ?l ?s0] =>
          destruct (register_routes_grows (normalize_version version) l s0)
            as (s' & E' & _)
      end.
      unfold register_one. rewrite E'. reflexivity.
    + right. exists e. now apply include_router_rejects.
  - left. reflexivity.
Qed.

Lemma handlers_include_router_router (rr appended : list BaseRoute)
    (version : option string)
    (self : handlers.HeaderBasedVersionHandler OpenAPI) :
  handlers.router
    (snd (handlers.include_router get_openapi has_paths rr appended version
            self))
  = exec (include_router rr appended version) (handlers.router self).
Proof.
  unfold handlers.include_router, exec.
  destruct (include_router rr appended version (handlers.router self))
    as [[[]|e] s]; reflexivity.
Qed.

Lemma handlers_run_router (l : list action)
    (self : handlers.HeaderBasedVersionHandler OpenAPI) :
  handlers.router (handlers.run get_openapi has_paths l self)
  = run l (handlers.router self).
Proof.
  revert self. induction l as [|a l IH]; intros self; [reflexivity|].
  cbn [handlers.run run fold_left].
  fold (handlers.run get_openapi has_paths l
          (handlers.run_action get_openapi has_paths a self)).
  fold (run l (run_action a (handlers.router self))).
  rewrite IH. f_equal.
  destruct a as [rr appended version|h|]; cbn [handlers.run_action run_action];
    [apply handlers_include_router_router | reflexivity | reflexivity].
Qed.

Lemma unversioned_not_key (k : string) : key_ok k -> k <> "unversioned".
Proof. intros [H|(H & _)] ->; discriminate H. Qed.

Lemma reachable_key_ok (self : VersionAwareAPIRouter) (k : string) :
  reachable self -> In k (keys (versioned_routers self)) -> key_ok k.
Proof.
  intros Hr Hk. pose proof (inv_keys_ok _ (reachable_inv _ Hr)) as Hok.
  rewrite Forall_forall in Hok. now apply Hok.
Qed.

Lemma table_grows_keys (k0 k : string) (self self' : VersionAwareAPIRouter) :
  table_grows k0 self self' ->
  In k (keys (versioned_routers self)) ->
  In k (keys (versioned_routers self')).
Proof.
  intros (_ & [->|(_ & l & ->)]) H; [exact H|].
  rewrite keys_app. apply in_or_app. now left.
Qed.

Lemma reachable_run_action (a : action) (self : VersionAwareAPIRouter) :
  reachable self -> reachable (run_action a self).
Proof. intros H. exact (reachable_run [a] self H). Qed.

Lemma serving_same_table (a : action) (self : VersionAwareAPIRouter) :
  serving a ->
  versioned_routers (run_action a self) = versioned_routers self.
Proof.
  destruct a as [rr appended version|h|]; cbn [serving run_action];
    [intros []| |]; intros _.
  - destruct (_get_routes_for_version_same_tables h self) as ((_ & Ht & _) & _).
    unfold exec in *. rewrite call_eq.
    destruct (_get_routes_for_version h self) as [[l|e] s]; exact Ht.
  - now destruct (group_and_sort_routes_same_tables self) as ((_ & Ht & _) & _).
Qed.

Lemma handlers_include_router_inv (rr appended : list BaseRoute)
    (version : option string)
    (self : handlers.HeaderBasedVersionHandler OpenAPI) :
  handlers.handler_inv self ->
  handlers.handler_inv
    (snd (handlers.include_router get_openapi has_paths rr appended version
            self)).
Proof.
  intros [Hr Hd Hk].
  pose proof (reachable_run_action (Include rr appended version) _ Hr) as Hr'.
  cbn [run_action] in Hr'.
  destruct (include_router_grows rr appended version (handlers.router self))
    as (k0 & Hg & _).
  unfold handlers.include_router.
  destruct (include_router_outcome rr appended version (handlers.router self))
    as [E|(e & E)]; rewrite E; cbn [snd].
  - set (s := exec (include_router rr appended version) (handlers.router self))
      in *.
    constructor; rewrite ?enrich_swagger_router; cbn [handlers.router].
    + exact Hr'.
    + intros k Hin.
      pose proof (unversioned_not_key k (reachable_key_ok _ _ Hr' Hin)) as Hne.
      rewrite (enrich_swagger_lookup _ k Hne).
      cbn [handlers.swaggers handlers.router].
      destruct (dict_get (handlers.swaggers self) k); [discriminate|].
      destruct (dict_get_key _ _ Hin) as (l & ->). discriminate.
    + intros k Hsome.
      destruct (String.eqb_spec k "unversioned") as [->|Hne]; [now left|].
      right. rewrite (enrich_swagger_lookup _ k Hne) in Hsome.
      cbn [handlers.swaggers handlers.router] in Hsome.
      destruct (dict_get (handlers.swaggers self) k) as [d|] eqn:Ed.
      * destruct (Hk k) as [->|Hin]; [now rewrite Ed | now contradiction Hne |].
        exact (table_grows_keys k0 k _ _ Hg Hin).
      * destruct (dict_get (versioned_routers s) k) as [l|] eqn:El;
          [|now contradiction Hsome].
        apply dict_get_In in El. exact (in_map fst _ _ El).
  - constructor; cbn [handlers.router handlers.swaggers]; assumption.
Qed.

Lemma handlers_run_action_inv (a : action)
    (self : handlers.HeaderBasedVersionHandler OpenAPI) :
  handlers.handler_inv self ->
  handlers.handler_inv (handlers.run_action get_openapi has_paths a self).
Proof.
  intros Hinv. destruct a as [rr appended version|h|];
    cbn [handlers.run_action].
  - now apply handlers_include_router_inv.
  - destruct Hinv as [Hr Hd Hk].
    constructor; cbn [handlers.router handlers.swaggers];
      rewrite ?(serving_same_table (Request h) _ I);
      [now apply reachable_run_action | assumption | assumption].
  - destruct Hinv as [Hr Hd Hk].
    constructor; cbn [handlers.router handlers.swaggers];
      rewrite ?(serving_same_table Dashboard _ I);
      [now apply reachable_run_action | assumption | assumption].
Qed.

Lemma handlers_reachable_inv
    (self : handlers.HeaderBasedVersionHandler OpenAPI) :
  handlers.reachable get_openapi has_paths self -> handlers.handler_inv self.
Proof.
  intros (requested & returned & l & ->).
  assert (H0 : handlers.handler_inv
                 (handlers.__init__ get_openapi has_paths requested returned)).
  { unfold handlers.__init__. apply handlers_include_router_inv.
    constructor; cbn [handlers.router handlers.swaggers].
    - exists requested, returned, []. reflexivity.
    - intros k [].
    - intros k H. now contradiction H. }
  revert H0. generalize (handlers.__init__ get_openapi has_paths requested
                           returned).
  induction l as [|a l IH]; intros h Hh; [exact Hh|].
  apply (IH (handlers.run_action get_openapi has_paths a h)).
  now apply handlers_run_action_inv.
Qed.

End Swaggers.

(** X26.  The document of a registered version or date is written once,
    when its key is registered, and no later [include_router] writes it
    again: in every state of a running application each registered key has
    a document, and it is the same document after any router is included,
    under that key or another. *)
Theorem swaggers_never_refreshed {OpenAPI : Type}
    (get_openapi : list BaseRoute -> string -> OpenAPI)
    (has_paths : OpenAPI -> bool)
    (self : handlers.HeaderBasedVersionHandler OpenAPI)
    (rr appended : list BaseRoute) (version : option string) (k : string) :
  handlers.reachable get_openapi has_paths self ->
  In k (keys (versioned_routers (handlers.router self))) ->
  exists document,
    dict_get (handlers.swaggers self) k = Some document
    /\ dict_get
         (handlers.swaggers
            (snd (handlers.include_router get_openapi has_paths rr appended
                    version self))) k
       = Some document.
Proof.
  intros Hr Hin.
  destruct (handlers_reachable_inv get_openapi has_paths self Hr)
    as [Hrr Hd Hk].
  destruct (dict_get (handlers.swaggers self) k) as [document|] eqn:Ed;
    [|now contradiction (Hd k Hin)].
  exists document. split; [reflexivity|].
  pose proof (unversioned_not_key k (reachable_key_ok _ _ Hrr Hin)) as Hne.
  unfold handlers.include_router.
  destruct (include_router rr appended version (handlers.router self))
    as [[[]|e] s]; cbn [snd handlers.swaggers]; [|exact Ed].
  rewrite (enrich_swagger_lookup get_openapi has_paths _ k Hne).
  cbn [handlers.swaggers]. now rewrite Ed.
Qed.

Lemma swaggers_never_refreshed_witness :
  exists document,
    dict_get
      (handlers.swaggers
         (handlers.run paths_openapi paths_has_paths
            [Include heroes heroes (Some "1.0.0")]
            (handlers.__init__ paths_openapi paths_has_paths None None)))
      "v1.0.0"
    = Some document
    /\ dict_get
         (handlers.swaggers
            (snd (handlers.include_router paths_openapi paths_has_paths
                    docs docs (Some "v1.0.0")
                    (handlers.run paths_openapi paths_has_paths
                       [Include heroes heroes (Some "1.0.0")]
                       (handlers.__init__ paths_openapi paths_has_paths
                          None None)))))
         "v1.0.0"
       = Some document.
Proof.
  apply (swaggers_never_refreshed paths_openapi paths_has_paths).
  - exists None, None, [Include heroes heroes (Some "1.0.0")]. reflexivity.
  - left. reflexivity.
Defined.

(** X27.  The document of a key that is registered for the first time is
    the document of the routes that this registration files under it: the
    routes that the framework has added for the router. *)
Theorem swaggers_first_registration {OpenAPI : Type}
    (get_openapi : list BaseRoute -> string -> OpenAPI)
    (has_paths : OpenAPI -> bool)
    (self : handlers.HeaderBasedVersionHandler OpenAPI)
    (rr appended : list BaseRoute) (version : string) :
  handlers.reachable get_openapi has_paths self ->
  validate_version version = Ok tt ->
  dict_get (versioned_routers (handlers.router self))
    (normalize_version version) = None ->
  appended <> [] ->
  List.length appended = List.length rr ->
  dict_get
    (handlers.swaggers
       (snd (handlers.include_router get_openapi has_paths rr appended
               (Some version) self)))
    (normalize_version version)
  = Some (get_openapi appended (normalize_version version)).
Proof.
  intros Hr Ev Hnone Hne Hlen.
  destruct (handlers_reachable_inv get_openapi has_paths self Hr)
    as [Hrr Hd Hk].
  set (k := normalize_version version) in *.
  pose proof (unversioned_not_key k (validate_version_ok _ Ev)) as Hu.
  assert (Hdoc : dict_get (handlers.swaggers self) k = None).
  { destruct (dict_get (handlers.swaggers self) k) as [d|] eqn:Ed;
      [|reflexivity].
    destruct (Hk k) as [E|Hin]; [now rewrite Ed | now contradiction Hu |].
    now apply dict_get_None in Hnone. }
  destruct (include_router_versioned_spec rr appended appended version k
              (handlers.router self) (reachable_heap_inv _ Hrr) Ev eq_refl)
    as (s & E & _ & _ & _ & _ & _ & Hnew & _).
  { now rewrite <- Hlen, slice_from_len_minus_app. }
  destruct (Hnew Hnone Hne) as (Et & Hderef).
  unfold handlers.include_router. rewrite E. cbn [snd].
  rewrite (enrich_swagger_lookup get_openapi has_paths _ k Hu).
  cbn [handlers.swaggers handlers.router].
  now rewrite Hdoc, Et, (dict_get_app_new _ _ _ Hnone), Hderef.
Qed.

Lemma swaggers_first_registration_witness :
  dict_get
    (handlers.swaggers
       (snd (handlers.include_router paths_openapi paths_has_paths
               heroes heroes (Some "1.0.0")
               (handlers.__init__ paths_openapi paths_has_paths None None))))
    "v1.0.0"
  = Some ("v1.0.0", ["/heroes"]).
Proof.
  apply (swaggers_first_registration paths_openapi paths_has_paths
           (handlers.__init__ paths_openapi paths_has_paths None None)
           heroes heroes "1.0.0").
  - exists None, None, []. reflexivity.
  - reflexivity.
  - reflexivity.
  - discriminate.
  - reflexivity.
Defined.

(** X28.  [openapi_jsons] looks the version of the query string up as it
    is spelt.  Every registered key has its document; a valid version
    without the prefix [v], which a request header may use for the same
    routes, has none, and neither has a request without a version: both
    are answered with status 404. *)
Theorem openapi_jsons_normal_form {OpenAPI : Type}
    (get_openapi : list BaseRoute -> string -> OpenAPI)
    (has_paths : OpenAPI -> bool)
    (self : handlers.HeaderBasedVersionHandler OpenAPI) :
  handlers.reachable get_openapi has_paths self ->
  (forall k, In k (keys (versioned_routers (handlers.router self))) ->
     exists document, handlers.openapi_jsons (Some k) self = Ok document)
  /\ (forall version,
        is_valid_version version = true ->
        Py.startswith_v version = false ->
        handlers.openapi_jsons (Some version) self
        = Raise (HTTPException 404
                   ("OpenApi file of with version `" ++ version
                    ++ "` not found")))
  /\ handlers.openapi_jsons None self
     = Raise (HTTPException 404
                "OpenApi file of with version `None` not found").
Proof.
  intros Hr.
  destruct (handlers_reachable_inv get_openapi has_paths self Hr)
    as [Hrr Hd Hk].
  split; [|split].
  - intros k Hin. unfold handlers.openapi_jsons.
    destruct (dict_get (handlers.swaggers self) k) as [document|] eqn:Ed;
      [now exists document | now contradiction (Hd k Hin)].
  - intros version Hv Hp. unfold handlers.openapi_jsons.
    destruct (dict_get (handlers.swaggers self) version) as [d|] eqn:Ed;
      [|reflexivity].
    exfalso. destruct (Hk version) as [->|Hin]; [now rewrite Ed | discriminate |].
    destruct (reachable_key_ok _ _ Hrr Hin) as [H|(_ & H)].
    + rewrite (is_valid_date_not_version _ H) in Hv. discriminate.
    + rewrite H in Hp. discriminate.
  - reflexivity.
Qed.

Lemma openapi_jsons_normal_form_witness :
  handlers.openapi_jsons (Some "1.0.0")
    (handlers.run paths_openapi paths_has_paths
       [Include heroes heroes (Some "1.0.0")]
       (handlers.__init__ paths_openapi paths_has_paths None None))
  = Raise (HTTPException 404
             "OpenApi file of with version `1.0.0` not found").
Proof.
  refine (proj1 (proj2 (openapi_jsons_normal_form paths_openapi paths_has_paths
                          _ _)) "1.0.0" eq_refl eq_refl).
  exists None, None, [Include heroes heroes (Some "1.0.0")]. reflexivity.
Defined.

(* ================================================================== *)
(** * Statements about the dashboard *)
(* ================================================================== *)

Lemma group_key_eqb_spec (a b : group_key) : reflect (a = b) (group_key_eqb a b).
Proof.
  destruct a as [x|x], b as [y|y]; cbn [group_key_eqb];
    try (constructor; discriminate).
  - destruct (String.eqb_spec x y); constructor; congruence.
  - destruct (N.eqb_spec x y); constructor; congruence.
Qed.

Lemma group_get_append {V : Type} (d : list (group_key * list V))
    (k g : group_key) (v : V) :
  group_get (group_append d k v) g
  = if group_key_eqb g k
    then Some (match group_get d k with
               | Some vs => (vs ++ [v])%list
               | None => [v]
               end)
    else group_get d g.
Proof.
  induction d as [|[k0 vs0] d IH]; cbn [group_append group_get].
  - reflexivity.
  - destruct (group_key_eqb_spec k k0) as [->|Hne]; cbn [group_get].
    + destruct (group_key_eqb_spec g k0); reflexivity.
    + rewrite IH. destruct (group_key_eqb_spec g k0) as [->|Hne'];
        [|reflexivity].
      destruct (group_key_eqb_spec k0 k); [congruence | reflexivity].
Qed.

Lemma group_get_setitem {V : Type} (d : list (group_key * V))
    (k g : group_key) (v : V) :
  group_get (group_setitem d k v) g
  = if group_key_eqb g k then Some v else group_get d g.
Proof.
  induction d as [|[k0 v0] d IH]; cbn [group_setitem group_get].
  - reflexivity.
  - destruct (group_key_eqb_spec k k0) as [->|Hne]; cbn [group_get].
    + destruct (group_key_eqb_spec g k0); reflexivity.
    + rewrite IH. destruct (group_key_eqb_spec g k0) as [->|Hne'];
        [|reflexivity].
      destruct (group_key_eqb_spec k0 k); [congruence | reflexivity].
Qed.

(** A loop that files each element under its key: a group holds the
    elements of its key, in the order of the loop. *)
Lemma group_append_fold {V : Type} (key : string -> group_key)
    (entry : string -> V) (xs : list string)
    (d : list (group_key * list V)) (g : group_key) :
  group_get
    (fold_left (fun gv x => group_append gv (key x) (entry x)) xs d) g
  = match map entry (filter (fun x => group_key_eqb (key x) g) xs) with
    | [] => group_get d g
    | l => Some (match group_get d g with
                 | Some vs => (vs ++ l)%list
                 | None => l
                 end)
    end.
Proof.
  revert d. induction xs as [|x xs IH]; intros d; [reflexivity|].
  cbn [fold_left filter]. rewrite IH, group_get_append.
  destruct (group_key_eqb_spec (key x) g) as [<-|Hne].
  - destruct (group_key_eqb_spec (key x) (key x)) as [_|H];
      [|now contradiction H].
    cbn [map].
    destruct (map entry (filter _ xs)) as [|e l]; [reflexivity|].
    destruct (group_get d (key x)); [|reflexivity].
    now rewrite <- app_assoc.
  - destruct (group_key_eqb_spec g (key x)) as [E|_];
      [now contradiction Hne | reflexivity].
Qed.

(** A loop that files every element under one key. *)
Lemma group_append_one {V : Type} (k : group_key) (entry : string -> V)
    (xs : list string) (vs : list V) :
  fold_left (fun gv x => group_append gv k (entry x)) xs [(k, vs)]
  = [(k, (vs ++ map entry xs)%list)].
Proof.
  revert vs. induction xs as [|x xs IH]; intros vs.
  - cbn. now rewrite app_nil_r.
  - cbn [fold_left group_append map].
    destruct (group_key_eqb_spec k k) as [_|H]; [|now contradiction H].
    now rewrite IH, <- app_assoc.
Qed.

Lemma filter_none {A : Type} (l : list A) : filter (fun _ => false) l = [].
Proof. induction l; auto. Qed.

Lemma filter_nil_group {V : Type} (entry : string -> V) (l : list string) :
  match map entry l with
  | [] => None
  | e :: m => Some (e :: m)
  end = group_of (map entry l).
Proof. unfold group_of. now destruct (map entry l). Qed.

(** X29.  While the memoised index is up to date, the dashboard lists
    every registered key.  Without grouping there is one group
    ["versioned"], the versions before the dates, each in the order of
    strings; with grouping a version is in the group of its major version
    (the text before its first dot) and a date in the group of its year,
    and no group is empty.  The entry of the unversioned routes is always
    there, in a group of its own. *)
Theorem _get_dashboard_template_groups (group_versions : bool)
    (base_url url : string) (self : VersionAwareAPIRouter) :
  reachable self -> index_fresh self ->
  exists grouped_versions,
    outcome (_get_dashboard_template group_versions base_url url) self
    = Ok grouped_versions
    /\ group_get grouped_versions (GroupName "unversioned")
       = Some [dashboard_entry base_url url "unversioned"]
    /\ (group_versions = false ->
        grouped_versions
        = [(GroupName "versioned",
            map (dashboard_entry base_url url)
              (Py.sorted (version_keys (versioned_routers self))
               ++ Py.sorted (date_keys (versioned_routers self))));
           (GroupName "unversioned",
            [dashboard_entry base_url url "unversioned"])])
    /\ (group_versions = true ->
        (forall name, name <> "unversioned" ->
           group_get grouped_versions (GroupName name)
           = group_of
               (map (dashboard_entry base_url url)
                  (filter (fun v => String.eqb (major_version v) name)
                     (Py.sorted (version_keys (versioned_routers self))))))
        /\ (forall year,
              group_get grouped_versions (GroupYear year)
              = group_of
                  (map (dashboard_entry base_url url)
                     (filter (fun d => N.eqb (strptime_year d) year)
                        (Py.sorted (date_keys (versioned_routers self))))))).
Proof.
  intros Hr Hf.
  destruct (fresh_served self (reachable_inv _ Hr) Hf)
    as (g & s1 & Eg & _ & (Hd & Hv)).
  unfold outcome, _get_dashboard_template, bind, ret. rewrite Eg.
  cbv zeta. cbn [fst]. rewrite Hd, Hv.
  eexists. split; [reflexivity|]. split.
  { rewrite group_get_setitem. reflexivity. }
  split.
  - intros ->. rewrite (group_append_one (GroupName "versioned")).
    rewrite (group_append_one (GroupName "versioned")).
    cbn [app group_setitem group_key_eqb String.eqb Ascii.eqb Bool.eqb].
    now rewrite map_app.
  - intros ->. split.
    + intros name Hne. rewrite group_get_setitem. cbn [group_key_eqb].
      destruct (String.eqb_spec name "unversioned") as [E|_];
        [now contradiction Hne|].
      rewrite (group_append_fold (fun d => GroupYear (strptime_year d))).
      rewrite (group_append_fold (fun v => GroupName (major_version v))).
      cbn [group_key_eqb group_get].
      rewrite filter_none. cbn [map]. apply filter_nil_group.
    + intros year. rewrite group_get_setitem. cbn [group_key_eqb].
      rewrite (group_append_fold (fun d => GroupYear (strptime_year d))).
      rewrite (group_append_fold (fun v => GroupName (major_version v))).
      cbn [group_key_eqb group_get].
      rewrite filter_none. cbn [map]. apply filter_nil_group.
Qed.

Lemma _get_dashboard_template_groups_witness :
  exists grouped_versions,
    outcome (_get_dashboard_template true "http://testserver" "/docs")
      app_v1_9_and_v1_10
    = Ok grouped_versions
    /\ group_get grouped_versions (GroupName "v1")
       = Some [("v1.10.0", "http://testserver/docs?version=v1.10.0");
               ("v1.9.0", "http://testserver/docs?version=v1.9.0")].
Proof.
  destruct (_get_dashboard_template_groups true "http://testserver" "/docs"
              app_v1_9_and_v1_10)
    as (gv & E & _ & _ & H).
  - exists None, None,
      [Include heroes heroes (Some "v1.9.0");
       Include heroes heroes (Some "v1.10.0")].
    reflexivity.
  - intros g Hg. vm_compute in Hg. discriminate Hg.
  - exists gv. split; [exact E|].
    destruct (H eq_refl) as (Hname & _).
    rewrite (Hname "v1") by discriminate. reflexivity.
Defined.
